(** * Deye / SolarmanV5 telemetry: codec, register decoding, request planning,
      polling scheduler

    A shallow embedding of [lib/solarmanV5.js], [lib/registerParser.js] and
    [lib/DeyeDevice.js], followed by the properties their specification
    states about them.

    Conventions of the embedding.
    - A Node [Buffer] is a [list Z] whose elements are bytes ([isBuffer]).
    - A JavaScript number that holds an integer is a [Z]; where the source
      adds such numbers the rounding of the IEEE double is written out
      ([round53]).  Scales, offsets and decoded measurements are binary64
      floats ([PrimFloat]), so products such as [(raw - offset) * scale]
      are the ones the JavaScript engine computes.
    - A thrown exception is the [Throw] case of [result]; every message
      of the source has a constructor of [error].
    - A [Map] with number keys is a [gmap Z _]; a [Map] or [Set] that is
      iterated keeps its insertion order and is a list.
    - The socket is a script of replies and rejections, one per request;
      the timer and the clock enter the scheduler as events that carry the
      time read by [Date.now()] and the answer of [_isNight()]. *)

From Stdlib Require Import ZArith Lia List String Ascii Floats Sorted.
From Stdlib Require Import DecimalString HexadecimalString.
From stdpp Require Import base option list sorting gmap strings.
Import ListNotations.
Open Scope Z_scope.
#[local] Set Warnings "-inexact-float".

(* ===================================================================== *)
(** * Part I.  The embedding                                              *)
(* ===================================================================== *)

(** ** Exceptions *)

Inductive error : Type :=
| RangeError                               (* Buffer read/write out of range *)
| InvalidV5StartByte                       (* 'Invalid V5 start byte' *)
| InvalidV5EndByte                         (* 'Invalid V5 end byte' *)
| UnexpectedV5ControlCode (ctrl : Z)       (* 'Unexpected V5 control code: 0x..' *)
| V5PayloadLengthOutOfBounds               (* 'V5 payload length out of bounds' *)
| ModbusTcpException (code : Z)            (* 'Modbus TCP exception code: ..' *)
| UnexpectedModbusTcpFc (expected got : Z) (* 'Unexpected Modbus TCP FC: ..' *)
| InvalidModbusRtuFrame                    (* 'Invalid Modbus RTU frame (too short)' *)
| ModbusRtuException (code : Z)            (* 'Modbus RTU exception code: ..' *)
| UnexpectedModbusRtuFc (expected got : Z) (* 'Unexpected Modbus RTU FC: ..' *)
| TransportError (msg : string).           (* a rejection of _sendReceive *)

Inductive result (A : Type) : Type :=
| Ok (a : A)
| Throw (e : error).
Arguments Ok {A} a.
Arguments Throw {A} e.

#[global] Instance result_ret : MRet result := fun _ a => Ok a.
#[global] Instance result_bind : MBind result := fun _ _ f r =>
  match r with
  | Ok a => f a
  | Throw e => Throw e
  end.

(** ** Buffers *)

Abbreviation Buffer := (list Z).

Definition isByte (b : Z) : Prop := 0 <= b < 256.
Definition isBuffer (buf : Buffer) : Prop := Forall isByte buf.

(** [buf[i] = v] on a Buffer stores [v] modulo 256. *)
Definition toUint8 (v : Z) : Z := v mod 256.

(** [v >>> 0]. *)
Definition toUint32 (v : Z) : Z := v mod 2 ^ 32.

(** [buf.readUInt16LE(off)] and [buf.readUInt16BE(off)]; out of range they
    throw. *)
Definition readUInt16LE (buf : Buffer) (off : nat) : result Z :=
  match buf !! off, buf !! S off with
  | Some lo, Some hi => Ok (lo + 256 * hi)
  | _, _ => Throw RangeError
  end.

Definition readUInt16BE (buf : Buffer) (off : nat) : result Z :=
  match buf !! off, buf !! S off with
  | Some hi, Some lo => Ok (256 * hi + lo)
  | _, _ => Throw RangeError
  end.

(** The two bytes [buf.writeUInt16LE(v, _)] / [buf.writeUInt16BE(v, _)]
    store; a value outside [0, 65535] throws. *)
Definition inUInt16 (v : Z) : bool := (0 <=? v) && (v <=? 0xffff).

Definition writeUInt16LE (v : Z) : result Buffer :=
  if inUInt16 v then Ok [Z.land v 0xff; Z.shiftr v 8] else Throw RangeError.

Definition writeUInt16BE (v : Z) : result Buffer :=
  if inUInt16 v then Ok [Z.shiftr v 8; Z.land v 0xff] else Throw RangeError.

(** The four bytes of [buf.writeUInt32LE(v >>> 0, _)]. *)
Definition writeUInt32LE (v : Z) : Buffer :=
  [Z.land v 0xff; Z.land (Z.shiftr v 8) 0xff;
   Z.land (Z.shiftr v 16) 0xff; Z.land (Z.shiftr v 24) 0xff].

(** [buf.slice(from, to)] for [0 <= from] and [0 <= to <= buf.length]. *)
Definition slice (buf : Buffer) (from to : nat) : Buffer :=
  take (to - from)%nat (drop from buf).

(** ** solarmanV5.js: constants *)

Definition V5_START : Z := 0xa5.
Definition V5_END : Z := 0x15.
Definition V5_CTRL_REQUEST : Z := 0x4510.
Definition V5_CTRL_RESPONSE : Z := 0x1510.
Definition MODBUS_FC_READ_HOLDING : Z := 0x03.
Definition MODBUS_FC_READ_INPUT : Z := 0x04.
Definition MODBUS_TCP_PROTOCOL_ID : Z := 0x0000.
Definition MODBUS_TCP_HEADER_LEN : nat := 7.

(** ** solarmanV5.js: checksums *)

Definition crc16_bit (crc : Z) : Z :=
  if Z.testbit crc 0
  then Z.lxor (Z.shiftr crc 1) 0xa001
  else Z.shiftr crc 1.

Definition crc16_byte (crc b : Z) : Z :=
  Nat.iter 8 crc16_bit (Z.lxor crc b).

Definition crc16 (buf : Buffer) : Z := fold_left crc16_byte buf 0xffff.

(** [sum(frame[1..len-3]) & 0xFF]. *)
Definition v5Checksum (frame : Buffer) : Z :=
  Z.land (fold_left Z.add (slice frame 1 (length frame - 2)) 0) 0xff.

(** ** solarmanV5.js: request ADUs *)

Definition buildModbusRtuFrame (slaveId fc register valueOrCount : Z)
  : result Buffer :=
  reg ← writeUInt16BE register;
  voc ← writeUInt16BE valueOrCount;
  let frame := [toUint8 slaveId; toUint8 fc] ++ reg ++ voc in
  crc ← writeUInt16LE (crc16 frame);
  mret (frame ++ crc).

Definition buildModbusTcpFrame (transactionId unitId fc register valueOrCount : Z)
  : result Buffer :=
  reg ← writeUInt16BE register;
  voc ← writeUInt16BE valueOrCount;
  let pdu := [toUint8 fc] ++ reg ++ voc in
  tid ← writeUInt16BE (Z.land transactionId 0xffff);
  pid ← writeUInt16BE MODBUS_TCP_PROTOCOL_ID;
  len ← writeUInt16BE (1 + Z.of_nat (length pdu));
  mret ((tid ++ pid ++ len ++ [toUint8 unitId]) ++ pdu).

(** ** solarmanV5.js: the outer frame *)

(** The 15-byte request prefix: frame type 2, then sensor type, total
    working time, power-on time and offset time, all zero. *)
Definition requestPrefix : Buffer := 0x02 :: repeat 0 14.

Definition encodeV5Frame (modbusFrame : Buffer) (loggerSerial sequence : Z)
  : result Buffer :=
  let payloadLen := 15 + Z.of_nat (length modbusFrame) in
  len ← writeUInt16LE payloadLen;
  ctl ← writeUInt16LE V5_CTRL_REQUEST;
  seq ← writeUInt16LE sequence;
  let body := [V5_START] ++ len ++ ctl ++ seq
              ++ writeUInt32LE (toUint32 loggerSerial)
              ++ requestPrefix ++ modbusFrame in
  (* the checksum is taken while the last two bytes are still zero *)
  mret (body ++ [v5Checksum (body ++ [0; 0]); V5_END]).

(** Strips the trailing ["0000"] some devices append. *)
Definition stripZeroPair (modbus : Buffer) : Buffer :=
  let n := length modbus in
  if decide (2 <= n)%nat then
    match modbus !! (n - 2)%nat, modbus !! (n - 1)%nat with
    | Some 0, Some 0 => take (n - 2)%nat modbus
    | _, _ => modbus
    end
  else modbus.

Definition decodeV5Frame (v5Frame : Buffer) : result Buffer :=
  if negb (bool_decide (v5Frame !! 0%nat = Some V5_START))
  then Throw InvalidV5StartByte
  else if negb (bool_decide (last v5Frame = Some V5_END))
  then Throw InvalidV5EndByte
  else
    ctrl ← readUInt16LE v5Frame 3;
    if negb (ctrl =? V5_CTRL_RESPONSE) then Throw (UnexpectedV5ControlCode ctrl)
    else
      payloadLen ← readUInt16LE v5Frame 1;
      let modbusStart := 25%nat in
      let modbusEnd := 11 + payloadLen in
      if Z.of_nat (length v5Frame) - 2 <? modbusEnd
      then Throw V5PayloadLengthOutOfBounds
      else mret (stripZeroPair (slice v5Frame modbusStart (Z.to_nat modbusEnd))).

(** ** solarmanV5.js: response ADUs *)

Definition looksLikeModbusTcp (frame : Buffer) : bool :=
  if decide (length frame < MODBUS_TCP_HEADER_LEN + 2)%nat then false
  else
    match readUInt16BE frame 2, readUInt16BE frame 4 with
    | Ok protocolId, Ok len =>
        if negb (protocolId =? 0x0000) then false
        else if len <? 2 then false
        else true   (* the comparison with frame.length has an empty body *)
    | _, _ => false  (* not reached: at least nine bytes are present *)
    end.

(** [for (let i = 0; i < byteCount; i += 2) values.push(adu.readUInt16BE(start + i))],
    as [n] iterations from offset [start]. *)
Fixpoint readWords (adu : Buffer) (start n : nat) : result (list Z) :=
  match n with
  | O => Ok []
  | S n' =>
      v ← readUInt16BE adu start;
      vs ← readWords adu (S (S start)) n';
      mret (v :: vs)
  end.

(** Number of iterations of the loop above. *)
Definition wordCount (byteCount : Z) : nat := Z.to_nat ((byteCount + 1) / 2).

(** [fc & 0x80]. *)
Definition isExceptionFc (fc : Z) : bool := Z.testbit fc 7.

Definition parseTcpPath (adu : Buffer) (expectedFc : Z) : result (list Z) :=
  match adu !! 7%nat, adu !! 8%nat with
  | Some fc, Some byteCount =>
      if isExceptionFc fc then Throw (ModbusTcpException byteCount)
      else if negb (fc =? expectedFc) then Throw (UnexpectedModbusTcpFc expectedFc fc)
      else readWords adu 9 (wordCount byteCount)
  | _, _ => Throw RangeError (* not reached: at least nine bytes are present *)
  end.

Definition parseRtuPath (adu : Buffer) (expectedFc : Z) : result (list Z) :=
  if decide (length adu < 5)%nat then Throw InvalidModbusRtuFrame
  else
    match adu !! 1%nat, adu !! 2%nat with
    | Some fc, Some byteCount =>
        if isExceptionFc fc then Throw (ModbusRtuException byteCount)
        else if negb (fc =? expectedFc) then Throw (UnexpectedModbusRtuFc expectedFc fc)
        else readWords adu 3 (wordCount byteCount)
    | _, _ => Throw RangeError (* not reached: at least five bytes are present *)
    end.

Definition parseRegistersAuto (adu : Buffer) (expectedFc : Z) : result (list Z) :=
  if looksLikeModbusTcp adu then parseTcpPath adu expectedFc
  else parseRtuPath adu expectedFc.

(** A response frame as the header comment of solarmanV5.js lays it out:
    start byte, payload length (LE), [0x10], control code [0x15], six bytes
    of sequence and logger serial ([header]), the 14-byte payload [prefix],
    the Modbus ADU, checksum and end byte. *)
Definition v5ResponseFrame (header prefix adu : Buffer) (checksum : Z) : Buffer :=
  let payloadLen := 14 + Z.of_nat (length adu) in
  [V5_START; Z.land payloadLen 0xff; Z.shiftr payloadLen 8; 0x10; 0x15]
    ++ header ++ prefix ++ adu ++ [checksum; V5_END].

(** The condition of the empty-bodied [if] of [looksLikeModbusTcp], negated:
    the declared MBAP length fits the bytes present, two bytes of
    truncation allowed. *)
Definition declaredLengthFits (frame : Buffer) : bool :=
  match readUInt16BE frame 4 with
  | Ok len => (2 <=? len) && (Z.of_nat MODBUS_TCP_HEADER_LEN + len <=? Z.of_nat (length frame) + 2)
  | Throw _ => false
  end.

(** The shape test as the specification words it: protocol id zero and a
    declared length that is plausible for the bytes present. *)
Definition specTcpShape (frame : Buffer) : Prop :=
  readUInt16BE frame 2 = Ok 0 /\ declaredLengthFits frame = true.

(** ** solarmanV5.js: the client *)

Inductive Transport : Type := rtu | tcp.

Record Client : Type := mkClient {
  loggerSerial : Z;
  slaveId : Z;
  _sequence : Z;
  _transport : Transport;
  _txId : Z
}.

Definition setTransport (t : Transport) (c : Client) : Client :=
  mkClient (loggerSerial c) (slaveId c) (_sequence c) t (_txId c).

Definition _nextSequence (c : Client) : Client :=
  mkClient (loggerSerial c) (slaveId c) (Z.land (_sequence c + 1) 0xffff)
           (_transport c) (_txId c).

Definition _nextTxId (c : Client) : Client :=
  mkClient (loggerSerial c) (slaveId c) (_sequence c) (_transport c)
           (Z.land (_txId c + 1) 0xffff).

Definition isRtu (c : Client) : bool :=
  match _transport c with rtu => true | tcp => false end.

Definition _buildModbusRequest (c : Client) (fc register countOrValue : Z)
  : result Buffer * Client :=
  match _transport c with
  | tcp =>
      let c' := _nextTxId c in
      (buildModbusTcpFrame (_txId c') (slaveId c') fc register countOrValue, c')
  | rtu => (buildModbusRtuFrame (slaveId c) fc register countOrValue, c)
  end.

(** What the logger does with one request handed to [_sendReceive]: it
    answers with a frame, or the promise is rejected (connection refused,
    timeout, socket closed).  The remote side is a script of such
    exchanges, consumed one per request; an exhausted script is a timeout. *)
Inductive Exchange : Type :=
| Reply (v5Resp : Buffer)
| Reject (msg : string).

Record Outcome : Type := mkOutcome {
  returned : result (list Z);   (* resolved values or the rejection *)
  clientAfter : Client;
  handed : list Buffer;         (* requests given to _sendReceive, in order *)
  unread : list Exchange
}.

(** The first two statements of [_readRegisters]: the Modbus request for
    the current transport, wrapped with the next sequence number. *)
Definition prepareRequest (c : Client) (fc register count : Z)
  : result Buffer * Client :=
  let '(modbusReq, c1) := _buildModbusRequest c fc register count in
  match modbusReq with
  | Throw e => (Throw e, c1)
  | Ok modbusReq =>
      let c2 := _nextSequence c1 in
      (encodeV5Frame modbusReq (loggerSerial c2) (_sequence c2), c2)
  end.

Fixpoint _readRegisters (net : list Exchange) (c : Client) (fc register count : Z)
  : Outcome :=
  match prepareRequest c fc register count with
  | (Throw e, c2) => mkOutcome (Throw e) c2 [] net
  | (Ok v5Req, c2) =>
      match net with
      | [] => mkOutcome (Throw (TransportError "Response timeout")) c2 [v5Req] []
      | Reject msg :: net' =>
          mkOutcome (Throw (TransportError msg)) c2 [v5Req] net'
      | Reply v5Resp :: net' =>
          match decodeV5Frame v5Resp with
          | Throw e => mkOutcome (Throw e) c2 [v5Req] net'
          | Ok adu =>
              match parseRegistersAuto adu fc with
              | Ok values =>
                  let c3 := if isRtu c2 && looksLikeModbusTcp adu
                            then setTransport tcp c2 else c2 in
                  mkOutcome (Ok values) c3 [v5Req] net'
              | Throw e =>
                  if isRtu c2 && looksLikeModbusTcp adu then
                    let o := _readRegisters net' (setTransport tcp c2)
                                            fc register count in
                    mkOutcome (returned o) (clientAfter o)
                              (v5Req :: handed o) (unread o)
                  else mkOutcome (Throw e) c2 [v5Req] net'
              end
          end
      end
  end.

Definition readHoldingRegisters (net : list Exchange) (c : Client) (register count : Z)
  : Outcome :=
  _readRegisters net c MODBUS_FC_READ_HOLDING register count.

Definition readInputRegisters (net : list Exchange) (c : Client) (register count : Z)
  : Outcome :=
  _readRegisters net c MODBUS_FC_READ_INPUT register count.

(** ** JavaScript numbers *)

(** Round to nearest, ties to even, on 53 significant bits: the double that
    an exact integer result is stored as (below the overflow threshold). *)
Definition round53 (z : Z) : Z :=
  let a := Z.abs z in
  if a <? 2 ^ 53 then z
  else
    let k := Z.log2 a - 52 in
    let q := Z.shiftr a k in
    let r := Z.land a (Z.ones k) in
    let half := 2 ^ (k - 1) in
    let q' := if (half <? r) || ((r =? half) && Z.odd q) then q + 1 else q in
    Z.sgn z * (q' * 2 ^ k).

(** [a + b] and [a - b] on numbers holding integers. *)
Definition jsAdd (a b : Z) : Z := round53 (a + b).
Definition jsSub (a b : Z) : Z := round53 (a - b).

(** The double holding the integer [z] ([z] a value of [round53]). *)
Definition Z2float (z : Z) : float :=
  let a := Z.abs z in
  let k := Z.max 0 (Z.log2 a - 52) in
  let f := Z.ldexp (PrimFloat.of_uint63 (Uint63.of_Z (Z.shiftr a k))) k in
  if z <? 0 then PrimFloat.opp f else f.

(** Template-literal rendering of an integer. *)
Definition decimal (z : Z) : string := DecimalString.NilZero.string_of_int (Z.to_int z).

(** ** registerParser.js: definitions *)

Inductive LookupKey : Type :=
| KeyOne (k : Z)
| KeyMany (ks : list Z).

Record LookupEntry : Type := mkEntry { key : LookupKey; value : string }.

Record RegisterDefinition : Type := mkDef {
  name : string;
  rule : Z;
  registers : list Z;
  scale : option float;
  offset : option float;
  fc : option Z;
  lookup : option (list LookupEntry);
  homeyCapability : option string
}.

(** A decoded value: [null], a number or a string. *)
Inductive Value : Type :=
| VNull
| VNum (x : float)
| VStr (s : string).

(** ** registerParser.js: decodeRegister *)

(** [registerMap.get(addr) & 0xffff]; [undefined & 0xffff] is 0. *)
Definition word (registerMap : gmap Z Z) (addr : Z) : Z :=
  Z.land (default 0 (registerMap !! addr)) 0xffff.

(** [for (i ...) raw += (registerMap.get(regs[i]) & 0xffff) * Math.pow(2, 16 * i)],
    entered at index [i] with the running [raw]. *)
Fixpoint accumulate (registerMap : gmap Z Z) (regs : list Z) (i : Z) (raw : Z) : Z :=
  match regs with
  | [] => raw
  | addr :: regs' =>
      accumulate registerMap regs' (i + 1)
                 (jsAdd raw (word registerMap addr * 2 ^ (16 * i)))
  end.

Definition keys (k : LookupKey) : list Z :=
  match k with
  | KeyOne k => [k]
  | KeyMany ks => ks
  end.

Fixpoint lookupLabel (table : list LookupEntry) (raw : Z) : option string :=
  match table with
  | [] => None
  | entry :: table' =>
      if existsb (Z.eqb raw) (keys (key entry)) then Some (value entry)
      else lookupLabel table' raw
  end.

(** [(raw - offset) * scale]. *)
Definition scaled (raw : Z) (offset scale : float) : float :=
  PrimFloat.mul (PrimFloat.sub (Z2float raw) offset) scale.

(** Rule 5. *)
Definition charOf (b : Z) : string :=
  if b =? 0 then EmptyString else String (ascii_of_N (Z.to_N b)) EmptyString.

Definition registerChars (r : Z) : string :=
  let hi := Z.land (Z.shiftr r 8) 0xff in
  let lo := Z.land r 0xff in
  (charOf hi ++ charOf lo)%string.

Definition isWhiteSpace (c : ascii) : bool :=
  let n := N_of_ascii c in
  ((9 <=? n) && (n <=? 13) || (n =? 32) || (n =? 160))%N.

Fixpoint trimStart (s : string) : string :=
  match s with
  | String c s' => if isWhiteSpace c then trimStart s' else s
  | EmptyString => EmptyString
  end.

Fixpoint trimEnd (s : string) : string :=
  match s with
  | String c s' =>
      match trimEnd s' with
      | EmptyString => if isWhiteSpace c then EmptyString else String c EmptyString
      | t => String c t
      end
  | EmptyString => EmptyString
  end.

Definition trim (s : string) : string := trimEnd (trimStart s).

(** Rule 6: [n.toString(16).padStart(4, '0')]. *)
Definition hex (z : Z) : string :=
  match z with
  | Z0 => "0"
  | Zpos p => HexadecimalString.NilEmpty.string_of_uint (Pos.to_hex_uint p)
  | Zneg p => String "-" (HexadecimalString.NilEmpty.string_of_uint (Pos.to_hex_uint p))
  end.

Definition padStart4 (s : string) : string :=
  (string_of_list_ascii (repeat "0"%char (4 - String.length s)) ++ s)%string.

Fixpoint join (sep : string) (parts : list string) : string :=
  match parts with
  | [] => EmptyString
  | [p] => p
  | p :: ps => (p ++ sep ++ join sep ps)%string
  end.

(** Rule 7. *)
Definition nibbles (r : Z) : string :=
  (decimal (Z.land (Z.shiftr r 12) 0xf) ++ "." ++
   decimal (Z.land (Z.shiftr r 8) 0xf) ++ "." ++
   decimal (Z.land (Z.shiftr r 4) 0xf) ++ "." ++
   decimal (Z.land r 0xf))%string.

Definition get (registerMap : gmap Z Z) (addr : Z) : Z :=
  default 0 (registerMap !! addr).

Definition has (registerMap : gmap Z Z) (addr : Z) : bool :=
  bool_decide (is_Some (registerMap !! addr)).

Definition decodeRegister (def : RegisterDefinition) (registerMap : gmap Z Z) : Value :=
  let regs := registers def in
  if negb (forallb (has registerMap) regs) then VNull
  else
    let scale := default 1%float (scale def) in
    let offset := default 0%float (offset def) in
    if (rule def =? 1) || (rule def =? 3) then
      let raw := toUint32 (accumulate registerMap regs 0 0) in
      match lookup def with
      | Some table =>
          match lookupLabel table raw with
          | Some label => VStr label
          | None => VStr ("Unknown(" ++ decimal raw ++ ")")
          end
      | None => VNum (scaled raw offset scale)
      end
    else if (rule def =? 2) || (rule def =? 4) then
      let raw := accumulate registerMap regs 0 0 in
      let bits := 16 * Z.of_nat (length regs) in
      let wrap := 2 ^ bits in
      (* threshold = wrap / 2; raw >= threshold *)
      let raw := if wrap <=? 2 * raw then jsSub raw wrap else raw in
      VNum (scaled raw offset scale)
    else if rule def =? 5 then
      VStr (trim (String.concat "" (map (fun addr => registerChars (get registerMap addr)) regs)))
    else if rule def =? 6 then
      VStr (join "," (map (fun a => ("0x" ++ padStart4 (hex (get registerMap a)))%string) regs))
    else if rule def =? 7 then
      VStr (join "-" (map (fun a => nibbles (get registerMap a)) regs))
    else VNull.

(** ** deyeRegisters.js: the string-inverter catalogs *)

Definition STRING_BASE : list RegisterDefinition :=
  [ mkDef "Device Serial" 5 [0x0003; 0x0004; 0x0005; 0x0006; 0x0007]
          None None None None None;
    mkDef "Device State" 1 [0x003B] None None None
          (Some [ mkEntry (KeyOne 0x0000) "Standby";
                  mkEntry (KeyOne 0x0001) "Self-test";
                  mkEntry (KeyOne 0x0002) "Normal";
                  mkEntry (KeyOne 0x0003) "Alarm";
                  mkEntry (KeyOne 0x0004) "Fault" ])
          (Some "alarm_generic");
    mkDef "Today Production" 1 [0x003C] (Some 0.1%float) None None None
          (Some "meter_power.today");
    mkDef "Total Production" 3 [0x003F; 0x0040] (Some 0.1%float) None None None
          (Some "meter_power");
    mkDef "Grid L1 Voltage" 1 [0x0049] (Some 0.1%float) None None None
          (Some "measure_voltage.grid");
    mkDef "Grid L1 Current" 2 [0x004C] (Some 0.1%float) None None None
          (Some "measure_current.grid");
    mkDef "Grid Frequency" 1 [0x004F] (Some 0.01%float) None None None
          (Some "measure_frequency");
    mkDef "Output AC Power" 3 [0x0050; 0x0051] (Some 0.1%float) None None None
          (Some "measure_power");
    mkDef "Temperature" 2 [0x005A] (Some 0.1%float) (Some 1000%float) None None
          (Some "measure_temperature");
    mkDef "PV1 Voltage" 1 [0x006D] (Some 0.1%float) None None None
          (Some "measure_voltage.pv1");
    mkDef "PV1 Current" 1 [0x006E] (Some 0.1%float) None None None
          (Some "measure_current.pv1");
    mkDef "PV2 Voltage" 1 [0x006F] (Some 0.1%float) None None None
          (Some "measure_voltage.pv2");
    mkDef "PV2 Current" 1 [0x0070] (Some 0.1%float) None None None
          (Some "measure_current.pv2") ]%string.

Definition DEYE_STRING_2MPPT : list RegisterDefinition := STRING_BASE.

Definition DEYE_STRING_4MPPT : list RegisterDefinition :=
  STRING_BASE ++
  [ mkDef "PV3 Voltage" 1 [0x0071] (Some 0.1%float) None None None
          (Some "measure_voltage.pv3");
    mkDef "PV3 Current" 1 [0x0072] (Some 0.1%float) None None None
          (Some "measure_current.pv3");
    mkDef "PV4 Voltage" 1 [0x0073] (Some 0.1%float) None None None
          (Some "measure_voltage.pv4");
    mkDef "PV4 Current" 1 [0x0074] (Some 0.1%float) None None None
          (Some "measure_current.pv4") ]%string.

(** ** The decode rules as the specification words them *)

(** [raw = Σ (map[addr_i] & 0xFFFF) × 2^(16·i)], low register first, in
    exact integer arithmetic; [i] is the index of the first register. *)
Fixpoint specRaw (registerMap : gmap Z Z) (regs : list Z) (i : Z) : Z :=
  match regs with
  | [] => 0
  | addr :: regs' => word registerMap addr * 2 ^ (16 * i) + specRaw registerMap regs' (i + 1)
  end.

(** "If a lookup table is present, match raw against table keys and return
    the mapped label, else [Unknown(raw)]; else return (raw − offset) × scale". *)
Definition specFinishUnsigned (def : RegisterDefinition) (raw : Z) : Value :=
  match lookup def with
  | Some table =>
      match lookupLabel table raw with
      | Some label => VStr label
      | None => VStr ("Unknown(" ++ decimal raw ++ ")")
      end
  | None => VNum (scaled raw (default 0%float (offset def)) (default 1%float (scale def)))
  end.

Definition specDecodeUnsigned (def : RegisterDefinition) (registerMap : gmap Z Z) : Value :=
  specFinishUnsigned def (specRaw registerMap (registers def) 0).

(** "If raw ≥ 2^(16N−1), raw −= 2^(16N)", over [n] registers; the test is
    written [2·raw ≥ 2^(16N)] so that it needs no half when [n = 0]. *)
Definition specSignExtend (n : nat) (raw : Z) : Z :=
  if 2 ^ (16 * Z.of_nat n) <=? 2 * raw then raw - 2 ^ (16 * Z.of_nat n) else raw.

Definition specDecodeSigned (def : RegisterDefinition) (registerMap : gmap Z Z) : Value :=
  let raw := specSignExtend (length (registers def))
                            (specRaw registerMap (registers def) 0) in
  VNum (scaled raw (default 0%float (offset def)) (default 1%float (scale def))).

(** ** registerParser.js: buildReadRequests *)

(** A request [{fc, start, count}].  [ReqUndefined] is the object pushed
    for an empty address set, whose [start] is [undefined] and whose
    [count] is [NaN]. *)
Inductive ReadRequest : Type :=
| Req (fc start count : Z)
| ReqUndefined (fc : Z).

(** [Set.prototype.add], the set in insertion order. *)
Definition setAdd (addrSet : list Z) (addr : Z) : list Z :=
  if bool_decide (addr ∈ addrSet) then addrSet else addrSet ++ [addr].

(** [byFc], a [Map] from function code to address set, in insertion order. *)
Definition mapHas (byFc : list (Z * list Z)) (fc : Z) : bool :=
  existsb (fun entry => fst entry =? fc) byFc.

Fixpoint mapUpdate (byFc : list (Z * list Z)) (fc : Z) (f : list Z -> list Z)
  : list (Z * list Z) :=
  match byFc with
  | [] => []
  | (k, addrSet) :: byFc' =>
      if k =? fc then (k, f addrSet) :: byFc'
      else (k, addrSet) :: mapUpdate byFc' fc f
  end.

Definition fcOf (def : RegisterDefinition) : Z := default 3 (fc def).

(** The body of [for (const def of definitions)]. *)
Definition collect (byFc : list (Z * list Z)) (def : RegisterDefinition)
  : list (Z * list Z) :=
  let fc := fcOf def in
  let byFc := if mapHas byFc fc then byFc else byFc ++ [(fc, [])] in
  fold_left (fun byFc addr => mapUpdate byFc fc (fun s => setAdd s addr))
            (registers def) byFc.

Definition groupByFc (definitions : list RegisterDefinition) : list (Z * list Z) :=
  fold_left collect definitions [].

(** [[...addrSet].sort((a, b) => a - b)]. *)
Definition sortAscending (addrSet : list Z) : list Z := merge_sort Z.le addrSet.

(** [for (let i = 1; i < sorted.length; i++)] with the running [start] and
    [end], followed by the final push. *)
Fixpoint mergeLoop (fc maxCount start end_ : Z) (rest : list Z) : list ReadRequest :=
  match rest with
  | [] => [Req fc start (end_ - start + 1)]
  | addr :: rest' =>
      if addr - start <? maxCount then mergeLoop fc maxCount start addr rest'
      else Req fc start (end_ - start + 1) :: mergeLoop fc maxCount addr addr rest'
  end.

Definition mergeRanges (fc maxCount : Z) (sorted : list Z) : list ReadRequest :=
  match sorted with
  | [] => [ReqUndefined fc]
  | first :: rest => mergeLoop fc maxCount first first rest
  end.

Definition buildReadRequests (definitions : list RegisterDefinition) (maxCount : Z)
  : list ReadRequest :=
  flat_map (fun entry => mergeRanges (fst entry) maxCount (sortAscending (snd entry)))
           (groupByFc definitions).

(** [Map.prototype.get] on [byFc]. *)
Fixpoint mapGet (byFc : list (Z * list Z)) (fc : Z) : option (list Z) :=
  match byFc with
  | [] => None
  | (k, addrSet) :: byFc' => if k =? fc then Some addrSet else mapGet byFc' fc
  end.

(** What the specification asks of the planner's output. *)

Definition requestFc (r : ReadRequest) : Z :=
  match r with
  | Req fc _ _ => fc
  | ReqUndefined fc => fc
  end.

(** [addr] lies in the range [start, start + count - 1] of a request for
    function code [fc]. *)
Definition covers (fc addr : Z) (r : ReadRequest) : bool :=
  match r with
  | Req fc' start count => (fc' =? fc) && (start <=? addr) && (addr <=? start + count - 1)
  | ReqUndefined _ => false
  end.

(** The range of [r1] ends before the range of [r2] begins. *)
Definition endsBefore (r1 r2 : ReadRequest) : Prop :=
  match r1, r2 with
  | Req _ start1 count1, Req _ start2 _ => start1 + count1 - 1 < start2
  | _, _ => False
  end.

Definition requestsOf (fc : Z) (requests : list ReadRequest) : list ReadRequest :=
  filter (fun r => requestFc r = fc) requests.

(** The default of the [maxCount] parameter. *)
Definition DEFAULT_MAX_COUNT : Z := 100.

(** ** DeyeDevice.js *)

Definition POLL_INTERVAL_MS : Z := 60000.
Definition NIGHT_BACKOFF_MS : Z := 30 * 60 * 1000.
Definition POWER_THRESHOLD_W : float := 5%float.

Inductive CapabilityValue : Type :=
| CNum (x : float)
| CStr (s : string)
| CBool (b : bool).

Inductive Availability : Type :=
| Available
| Unavailable (message : string).

(** Lines written with [this.log] and [this.error] by the failure branches. *)
Inductive LogLine : Type :=
| LogNightTimeout (message : string)        (* 'poll: night timeout (expected), ...' *)
| ErrorInverterActive (message : string)    (* 'Poll failed (inverter was active):' *)
| LogInverterIdle (message : string).       (* 'Poll failed (inverter idle):' *)

(** The fields of a device that the poll loop reads and writes.  The host
    keeps [capabilities] (a capability the device has is a key of the map;
    [setCapabilityValue] is taken to succeed) and [availability]. *)
Record DeyeDevice : Type := mkDevice {
  _definitions : list RegisterDefinition;
  _lastPowerW : float;
  _backoffUntil : Z;
  _polling : bool;
  capabilities : gmap string CapabilityValue;
  availability : Availability;
  journal : list LogLine
}.

Definition hasCapability (dev : DeyeDevice) (c : string) : bool :=
  bool_decide (is_Some (capabilities dev !! c)).

Definition setCapabilityValue (dev : DeyeDevice) (c : string) (v : CapabilityValue)
  : DeyeDevice :=
  mkDevice (_definitions dev) (_lastPowerW dev) (_backoffUntil dev) (_polling dev)
           (<[c := v]> (capabilities dev)) (availability dev) (journal dev).

Definition setLastPowerW (dev : DeyeDevice) (w : float) : DeyeDevice :=
  mkDevice (_definitions dev) w (_backoffUntil dev) (_polling dev)
           (capabilities dev) (availability dev) (journal dev).

Definition setBackoffUntil (dev : DeyeDevice) (t : Z) : DeyeDevice :=
  mkDevice (_definitions dev) (_lastPowerW dev) t (_polling dev)
           (capabilities dev) (availability dev) (journal dev).

Definition setPolling (dev : DeyeDevice) (b : bool) : DeyeDevice :=
  mkDevice (_definitions dev) (_lastPowerW dev) (_backoffUntil dev) b
           (capabilities dev) (availability dev) (journal dev).

Definition setAvailability (dev : DeyeDevice) (a : Availability) : DeyeDevice :=
  mkDevice (_definitions dev) (_lastPowerW dev) (_backoffUntil dev) (_polling dev)
           (capabilities dev) a (journal dev).

Definition setAvailable (dev : DeyeDevice) : DeyeDevice := setAvailability dev Available.
Definition setUnavailable (dev : DeyeDevice) (message : string) : DeyeDevice :=
  setAvailability dev (Unavailable message).

Definition log (dev : DeyeDevice) (line : LogLine) : DeyeDevice :=
  mkDevice (_definitions dev) (_lastPowerW dev) (_backoffUntil dev) (_polling dev)
           (capabilities dev) (availability dev) (journal dev ++ [line]).

(** The state [onInit] sets up, over the host's capabilities and
    availability. *)
Definition onInit (definitions : list RegisterDefinition)
           (caps : gmap string CapabilityValue) (a : Availability) : DeyeDevice :=
  mkDevice definitions 0%float 0 false caps a [].

(** The [caps] array of [_applyZeros]. *)
Definition zeroedCapabilities : list string :=
  [ "measure_power";
    "measure_voltage.pv1"; "measure_current.pv1";
    "measure_voltage.pv2"; "measure_current.pv2";
    "measure_voltage.pv3"; "measure_current.pv3";
    "measure_voltage.pv4"; "measure_current.pv4";
    "measure_voltage.grid"; "measure_current.grid";
    "measure_frequency";
    "measure_temperature" ]%string.

Definition _applyZeros (dev : DeyeDevice) : DeyeDevice :=
  let dev' :=
    fold_left (fun d c => setCapabilityValue d c (CNum 0%float))
              (filter (fun c => hasCapability dev c = true) zeroedCapabilities) dev in
  setLastPowerW dev' 0%float.

(** The value handed to [setCapabilityValue] in the success loop. *)
Definition coerce (capId : string) (v : Value) : CapabilityValue :=
  if String.eqb capId "alarm_generic" then
    match v with
    | VStr s => CBool (String.eqb s "Fault" || String.eqb s "Alarm")
    | _ => CBool false
    end
  else
    match v with
    | VNum x => CNum x
    | VStr s => CStr s
    | VNull => CStr ""   (* not reached: null values are skipped *)
    end.

(** One iteration of [for (const def of this._definitions)]. *)
Definition applyDefinition (values : gmap string Value) (dev : DeyeDevice)
           (def : RegisterDefinition) : DeyeDevice :=
  match homeyCapability def with
  | None => dev
  | Some capId =>
      if String.eqb capId "" then dev
      else
        match values !! name def with
        | None | Some VNull => dev
        | Some v =>
            if negb (hasCapability dev capId) then dev
            else
              let dev' := setCapabilityValue dev capId (coerce capId v) in
              if String.eqb capId "measure_power" then
                setLastPowerW dev' (match v with VNum x => x | _ => 0%float end)
              else dev'
        end
  end.

(** [_poll] runs in two steps, separated by [await readAll(...)]: the
    guards and the busy flag when the timer fires at time [now], then one
    of the two continuations when [readAll] settles. *)

Definition pollAdmitted (dev : DeyeDevice) (now : Z) : bool :=
  negb (now <? _backoffUntil dev) && negb (_polling dev).

Definition _poll (dev : DeyeDevice) (now : Z) : DeyeDevice :=
  if now <? _backoffUntil dev then dev
  else if _polling dev then dev
  else setPolling dev true.

(** [readAll] resolved with [values]. *)
Definition pollResolved (dev : DeyeDevice) (values : gmap string Value) : DeyeDevice :=
  let dev := setAvailable dev in
  let dev := fold_left (applyDefinition values) (_definitions dev) dev in
  setPolling dev false.

(** [readAll] rejected with [err]; [isNight] is what [_isNight()] answers
    and [now] what [Date.now()] reads in the handler. *)
Definition pollRejected (dev : DeyeDevice) (message : string) (isNight : bool) (now : Z)
  : DeyeDevice :=
  let dev :=
    if isNight then
      let dev := _applyZeros dev in
      let dev := setAvailable dev in
      let dev := log dev (LogNightTimeout message) in
      setBackoffUntil dev (now + NIGHT_BACKOFF_MS)
    else if PrimFloat.ltb POWER_THRESHOLD_W (_lastPowerW dev) then
      let dev := log dev (ErrorInverterActive message) in
      setUnavailable dev message
    else log dev (LogInverterIdle message) in
  setPolling dev false.

(** Which branch of the [catch] block handles a rejection. *)
Inductive FailureBranch : Type := NightBranch | FaultBranch | IdleBranch.

Definition failureBranch (dev : DeyeDevice) (isNight : bool) : FailureBranch :=
  if isNight then NightBranch
  else if PrimFloat.ltb POWER_THRESHOLD_W (_lastPowerW dev) then FaultBranch
  else IdleBranch.

(** The scheduler as a transition system.  The second component counts
    the poll cycles that have passed the guards and not yet settled. *)
Inductive Event : Type :=
| Tick (now : Z)
| Resolved (values : gmap string Value)
| Rejected (message : string) (isNight : bool) (now : Z).

Inductive step : DeyeDevice * nat -> Event -> DeyeDevice * nat -> Prop :=
| step_tick_skipped dev n now :
    pollAdmitted dev now = false ->
    step (dev, n) (Tick now) (_poll dev now, n)
| step_tick_admitted dev n now :
    pollAdmitted dev now = true ->
    step (dev, n) (Tick now) (_poll dev now, S n)
| step_resolved dev n values :
    step (dev, S n) (Resolved values) (pollResolved dev values, n)
| step_rejected dev n message isNight now :
    step (dev, S n) (Rejected message isNight now)
         (pollRejected dev message isNight now, n).

Inductive reachable : DeyeDevice * nat -> Prop :=
| reachable_init definitions caps a :
    reachable (onInit definitions caps a, O)
| reachable_step st ev st' :
    reachable st -> step st ev st' -> reachable st'.

(** The device after an event, the counter left aside. *)
Definition handle (dev : DeyeDevice) (ev : Event) : DeyeDevice :=
  match ev with
  | Tick now => _poll dev now
  | Resolved values => pollResolved dev values
  | Rejected message isNight now => pollRejected dev message isNight now
  end.

(** A run in which no successful poll changes the stored power reading. *)
Fixpoint powerUntouched (dev : DeyeDevice) (events : list Event) : Prop :=
  match events with
  | [] => True
  | ev :: events' =>
      match ev with
      | Resolved values => _lastPowerW (pollResolved dev values) = _lastPowerW dev
      | _ => True
      end /\ powerUntouched (handle dev ev) events'
  end.

(** ** Further code of the three modules *)

(** The register words of a read response, each big-endian as
    [readUInt16BE] reads it back. *)
Definition wordsBE (values : list Z) : Buffer :=
  flat_map (fun v => [Z.shiftr v 8; Z.land v 0xff]) values.

(** *** [_sendReceive]: reassembly of the response

    The state of the promise of [_sendReceive] while it listens: the chunks
    received so far, [expectedLen] ([None] is [null]) and, once [resolve]
    ran, the frame it was given.  [cleanup] removes the listener, so
    chunks that arrive after that are not seen. *)
Record Pending : Type := mkPending {
  chunks : list Buffer;
  expectedLen : option Z;
  resolved : option Buffer
}.

Definition listening : Pending := mkPending [] None None.

Definition onData (p : Pending) (chunk : Buffer) : Pending :=
  match resolved p with
  | Some _ => p
  | None =>
      let chunks' := chunks p ++ [chunk] in
      let buf := concat chunks' in
      let expectedLen' :=
        match expectedLen p with
        | None =>
            if decide (3 <= length buf)%nat then
              match readUInt16LE buf 1 with
              | Ok payloadLen => Some (11 + payloadLen + 2)
              | Throw _ => None   (* not reached: three bytes are present *)
              end
            else None
        | Some len => Some len
        end in
      match expectedLen' with
      | Some len =>
          if len <=? Z.of_nat (length buf)
          then mkPending chunks' expectedLen' (Some (slice buf 0 (Z.to_nat len)))
          else mkPending chunks' expectedLen' None
      | None => mkPending chunks' expectedLen' None
      end
  end.

(** The socket delivers the chunks in order. *)
Definition receive (data : list Buffer) : Pending := fold_left onData data listening.

(** The frame a byte stream holds: 13 + payloadLen bytes, the payload
    length read from bytes 1 and 2, once that many bytes are there. *)
Definition firstFrame (stream : Buffer) : option Buffer :=
  match readUInt16LE stream 1 with
  | Ok payloadLen =>
      if 13 + payloadLen <=? Z.of_nat (length stream)
      then Some (take (Z.to_nat (13 + payloadLen)) stream)
      else None
  | Throw _ => None
  end.

(** *** [writeSingleRegister] *)

Definition MODBUS_FC_WRITE_SINGLE : Z := 0x06.

(** What [writeSingleRegister] can throw: what the request, the transport
    or [decodeV5Frame] threw, or one of its own four errors.  A byte the
    ADU does not have prints as [undefined] ([None]). *)
Inductive WriteError : Type :=
| Thrown (e : error)
| ModbusTcpWriteException (code : option Z) (* 'Modbus TCP write exception code: ..' *)
| UnexpectedModbusTcpWriteFc (fc : option Z) (* 'Unexpected Modbus TCP FC: ..' *)
| ModbusRtuWriteException (code : option Z) (* 'Modbus RTU write exception code: ..' *)
| UnexpectedModbusRtuWriteFc (fc : option Z). (* 'Unexpected Modbus RTU FC: ..' *)

(** The checks on the response ADU; [None] is the normal return.
    [undefined & 0x80] is 0 and [undefined !== 6] holds. *)
Definition checkWriteResponse (adu : Buffer) : option WriteError :=
  if looksLikeModbusTcp adu then
    match adu !! 7%nat with
    | Some fc =>
        if isExceptionFc fc then Some (ModbusTcpWriteException (adu !! 8%nat))
        else if negb (fc =? MODBUS_FC_WRITE_SINGLE)
             then Some (UnexpectedModbusTcpWriteFc (Some fc))
             else None
    | None => Some (UnexpectedModbusTcpWriteFc None)
    end
  else
    match adu !! 1%nat with
    | Some fc =>
        if isExceptionFc fc then Some (ModbusRtuWriteException (adu !! 2%nat))
        else if negb (fc =? MODBUS_FC_WRITE_SINGLE)
             then Some (UnexpectedModbusRtuWriteFc (Some fc))
             else None
    | None => Some (UnexpectedModbusRtuWriteFc None)
    end.

Record WriteOutcome : Type := mkWriteOutcome {
  thrown : option WriteError;     (* [None]: the promise resolved *)
  writeClientAfter : Client;
  writeHanded : list Buffer;
  writeUnread : list Exchange
}.

Definition writeSingleRegister (net : list Exchange) (c : Client) (register value : Z)
  : WriteOutcome :=
  match prepareRequest c MODBUS_FC_WRITE_SINGLE register value with
  | (Throw e, c2) => mkWriteOutcome (Some (Thrown e)) c2 [] net
  | (Ok v5Req, c2) =>
      match net with
      | [] => mkWriteOutcome (Some (Thrown (TransportError "Response timeout"))) c2 [v5Req] []
      | Reject msg :: net' =>
          mkWriteOutcome (Some (Thrown (TransportError msg))) c2 [v5Req] net'
      | Reply v5Resp :: net' =>
          match decodeV5Frame v5Resp with
          | Throw e => mkWriteOutcome (Some (Thrown e)) c2 [v5Req] net'
          | Ok adu => mkWriteOutcome (checkWriteResponse adu) c2 [v5Req] net'
          end
      end
  end.

(** ** registerParser.js: fetchRegisters and readAll *)

(** How an [await] in these two functions settles.  A request object
    whose [start] is [undefined] (and [count] is [NaN]) reaches
    [Buffer.writeUInt16BE] with a value that is no number in range, for
    which Node documents no behaviour: that case is [Unspecified]. *)
Inductive Settled (A : Type) : Type :=
| Resolves (a : A)
| Rejects (e : error)
| Unspecified.
Arguments Resolves {A} a.
Arguments Rejects {A} e.
Arguments Unspecified {A}.

(** [for (let i = 0; i < values.length; i++) map.set(req.start + i, values[i])]. *)
Fixpoint setValues (map : gmap Z Z) (start : Z) (values : list Z) : gmap Z Z :=
  match values with
  | [] => map
  | v :: values' => setValues (<[start := v]> map) (start + 1) values'
  end.

Record Fetch : Type := mkFetch {
  fetched : Settled (gmap Z Z);
  fetchClient : Client;
  fetchHanded : list Buffer;
  fetchUnread : list Exchange
}.

(** [for (const req of requests)], entered with the map filled so far. *)
Fixpoint fetchLoop (requests : list ReadRequest) (net : list Exchange) (c : Client)
         (map : gmap Z Z) : Fetch :=
  match requests with
  | [] => mkFetch (Resolves map) c [] net
  | ReqUndefined _ :: _ => mkFetch Unspecified c [] net
  | Req fc start count :: requests' =>
      let o := if fc =? 4 then readInputRegisters net c start count
               else readHoldingRegisters net c start count in
      match returned o with
      | Throw e => mkFetch (Rejects e) (clientAfter o) (handed o) (unread o)
      | Ok values =>
          let f := fetchLoop requests' (unread o) (clientAfter o)
                             (setValues map start values) in
          mkFetch (fetched f) (fetchClient f) (handed o ++ fetchHanded f) (fetchUnread f)
      end
  end.

Definition fetchRegisters (net : list Exchange) (c : Client) (requests : list ReadRequest)
  : Fetch :=
  fetchLoop requests net c ∅.

(** [result[def.name] = decodeRegister(def, registerMap)] for each
    definition in turn; sensor names are ordinary property names. *)
Definition snapshot (definitions : list RegisterDefinition) (registerMap : gmap Z Z)
  : gmap string Value :=
  fold_left (fun result def => <[name def := decodeRegister def registerMap]> result)
            definitions ∅.

Record ReadAll : Type := mkReadAll {
  values : Settled (gmap string Value);
  readAllClient : Client;
  readAllHanded : list Buffer;
  readAllUnread : list Exchange
}.

Definition readAll (net : list Exchange) (c : Client) (definitions : list RegisterDefinition)
  : ReadAll :=
  let requests := buildReadRequests definitions DEFAULT_MAX_COUNT in
  let f := fetchRegisters net c requests in
  mkReadAll
    match fetched f with
    | Resolves registerMap => Resolves (snapshot definitions registerMap)
    | Rejects e => Rejects e
    | Unspecified => Unspecified
    end
    (fetchClient f) (fetchHanded f) (fetchUnread f).

(** The logger answers request [r] with the contents of the inverter's
    registers [bank]: a response frame around a Modbus RTU read response
    for the function code sent, of any unit id, CRC and checksum. *)
Definition wireFc (fc : Z) : Z := if fc =? 4 then MODBUS_FC_READ_INPUT else MODBUS_FC_READ_HOLDING.

Definition answers (bank : gmap Z Z) (r : ReadRequest) (ex : Exchange) : Prop :=
  match r with
  | Req fc start count =>
      exists header prefix unit crcLo crcHi ck registerValues,
        length header = 6%nat /\ length prefix = 14%nat /\
        Z.of_nat (length registerValues) = count /\
        (forall i v, registerValues !! i = Some v -> bank !! (start + Z.of_nat i) = Some v) /\
        ex = Reply (v5ResponseFrame header prefix
                      ([unit; wireFc fc; 2 * Z.of_nat (length registerValues)]
                         ++ wordsBE registerValues ++ [crcLo; crcHi]) ck)
  | ReqUndefined _ => False
  end.

(** A definition whose iteration of the success loop of [_poll] reaches
    [setCapabilityValue(capId, ...)] on a device that has [capId]: it is
    bound to [capId] and its value is neither [null] nor [undefined]. *)
Definition bindsValue (values : gmap string Value) (capId : string)
           (def : RegisterDefinition) : bool :=
  match homeyCapability def with
  | Some c =>
      String.eqb c capId &&
      match values !! name def with
      | None | Some VNull => false
      | Some _ => true
      end
  | None => false
  end.

(** ** DeyeDevice.js: _isNight

    The [try] block of [_isNight], once [_getSunriseSunset] has answered
    [{sunrise, sunset}] and the local clock reads [hours]:[minutes]:
    [h = hours + minutes / 60] in doubles, then
    [h < sunrise - 0.5 || h >= sunset + 0.5]. *)
Definition _isNight (sunrise sunset : float) (hours minutes : Z) : bool :=
  let h := PrimFloat.add (Z2float hours) (PrimFloat.div (Z2float minutes) 60%float) in
  PrimFloat.ltb h (PrimFloat.sub sunrise 0.5%float)
  || PrimFloat.leb (PrimFloat.add sunset 0.5%float) h.

(** The logger answers a read of function code [fc] with the words
    [registerValues], as a response frame around a Modbus RTU read
    response of any unit id, CRC and checksum. *)
Definition rtuAnswer (fc : Z) (registerValues : list Z) (ex : Exchange) : Prop :=
  exists header prefix unit crcLo crcHi ck,
    length header = 6%nat /\ length prefix = 14%nat /\
    ex = Reply (v5ResponseFrame header prefix
                  ([unit; fc; 2 * Z.of_nat (length registerValues)]
                     ++ wordsBE registerValues ++ [crcLo; crcHi]) ck).

(** A request [{fc, start, count}] together with the words the logger
    sends back for it. *)
Record Answered : Type := mkAnswered {
  askedFc : Z;
  askedStart : Z;
  askedCount : Z;
  sentWords : list Z
}.

Definition asked (p : Answered) : ReadRequest :=
  Req (askedFc p) (askedStart p) (askedCount p).

(** The address lies among the words received for [p]. *)
Definition received (a : Z) (p : Answered) : bool :=
  (askedStart p <=? a) && (a <? askedStart p + Z.of_nat (length (sentWords p))).

(* ===================================================================== *)
(** * Part II.  Properties                                                *)
(* ===================================================================== *)

(** ** Bytes and 16-bit fields *)

Lemma split16 (v : Z) : Z.land v 0xff + 256 * Z.shiftr v 8 = v.
Proof.
  change 0xff with (Z.ones 8).
  rewrite Z.land_ones, Z.shiftr_div_pow2 by lia.
  change (2 ^ 8) with 256. pose proof (Z.div_mod v 256). lia.
Qed.

Lemma writeUInt16LE_Ok (v : Z) :
  inUInt16 v = true -> writeUInt16LE v = Ok [Z.land v 0xff; Z.shiftr v 8].
Proof. unfold writeUInt16LE. intros ->. reflexivity. Qed.

Lemma writeUInt16BE_Ok (v : Z) :
  inUInt16 v = true -> writeUInt16BE v = Ok [Z.shiftr v 8; Z.land v 0xff].
Proof. unfold writeUInt16BE. intros ->. reflexivity. Qed.

Lemma inUInt16_iff (v : Z) : inUInt16 v = true <-> 0 <= v <= 0xffff.
Proof. unfold inUInt16. rewrite andb_true_iff, Z.leb_le, Z.leb_le. tauto. Qed.

Lemma inUInt16_land (v : Z) : inUInt16 (Z.land v 0xffff) = true.
Proof.
  apply inUInt16_iff.
  assert (Z.land v 0xffff = v mod 65536) as -> by (apply (Z.land_ones v 16); lia).
  pose proof (Z.mod_pos_bound v 65536). lia.
Qed.

(** ** The outer frame *)

Lemma encodeV5Frame_Ok (adu : Buffer) (serial sequence : Z) :
  15 + Z.of_nat (length adu) <= 0xffff ->
  inUInt16 sequence = true ->
  exists l0 l1 s0 s1 ck,
    l0 + 256 * l1 = 15 + Z.of_nat (length adu) /\
    encodeV5Frame adu serial sequence =
      Ok ([V5_START; l0; l1; 0x10; 0x45; s0; s1]
            ++ writeUInt32LE (toUint32 serial) ++ requestPrefix ++ adu
            ++ [ck; V5_END]).
Proof.
  intros Hlen Hseq. unfold encodeV5Frame.
  rewrite (writeUInt16LE_Ok (15 + Z.of_nat (length adu))) by (apply inUInt16_iff; lia).
  rewrite (writeUInt16LE_Ok sequence) by assumption.
  eexists _, _, _, _, _. split; [apply split16|].
  reflexivity.
Qed.

Lemma decodeV5Frame_request (l0 l1 s0 s1 : Z) (rest : Buffer) (ck : Z) :
  decodeV5Frame ([V5_START; l0; l1; 0x10; 0x45; s0; s1] ++ rest ++ [ck; V5_END])
  = Throw (UnexpectedV5ControlCode V5_CTRL_REQUEST).
Proof.
  unfold decodeV5Frame.
  rewrite bool_decide_true by reflexivity.
  rewrite bool_decide_true.
  2:{ change [ck; V5_END] with ([ck] ++ [V5_END]).
      rewrite !app_assoc. apply last_snoc. }
  reflexivity.
Qed.

Lemma slice_middle (pre mid post : Buffer) :
  slice (pre ++ mid ++ post) (length pre) (length pre + length mid) = mid.
Proof.
  unfold slice. rewrite drop_app_length.
  replace (length pre + length mid - length pre)%nat with (length mid) by lia.
  apply take_app_length.
Qed.

Lemma stripZeroPair_id (adu : Buffer) :
  (forall pre, adu <> pre ++ [0; 0]) -> stripZeroPair adu = adu.
Proof.
  intros Hne. unfold stripZeroPair.
  destruct (decide (2 <= length adu)%nat) as [Hn|]; [|reflexivity].
  destruct (adu !! (length adu - 2)%nat) as [[| |]|] eqn:Ha; try reflexivity.
  destruct (adu !! (length adu - 1)%nat) as [[| |]|] eqn:Hb; try reflexivity.
  exfalso. apply (Hne (take (length adu - 2) adu)).
  rewrite <- (take_drop (length adu - 2) adu) at 1. f_equal.
  apply list_eq. intros i. rewrite lookup_drop.
  destruct i as [|[|i]]; cbn.
  - rewrite Nat.add_0_r. exact Ha.
  - replace (length adu - 2 + 1)%nat with (length adu - 1)%nat by lia. exact Hb.
  - apply lookup_ge_None_2. lia.
Qed.

Lemma readUInt16LE_cons (b : Z) (buf : Buffer) (off : nat) :
  readUInt16LE (b :: buf) (S off) = readUInt16LE buf off.
Proof. reflexivity. Qed.

Lemma readUInt16LE_here (lo hi : Z) (buf : Buffer) :
  readUInt16LE (lo :: hi :: buf) 0 = Ok (lo + 256 * hi).
Proof. reflexivity. Qed.

Lemma decodeV5Frame_response (header prefix adu : Buffer) (ck : Z) :
  length header = 6%nat -> length prefix = 14%nat ->
  decodeV5Frame (v5ResponseFrame header prefix adu ck) = Ok (stripZeroPair adu).
Proof.
  intros Hh Hp. unfold decodeV5Frame, v5ResponseFrame.
  set (payloadLen := 14 + Z.of_nat (length adu)).
  set (pre := [V5_START; Z.land payloadLen 255; Z.shiftr payloadLen 8; 16; 21]
                ++ header ++ prefix).
  assert (Hpre : length pre = 25%nat)
    by (unfold pre; rewrite !length_app, Hh, Hp; reflexivity).
  rewrite bool_decide_true by reflexivity.
  rewrite bool_decide_true.
  2:{ change [ck; V5_END] with ([ck] ++ [V5_END]).
      rewrite !app_assoc. apply last_snoc. }
  cbn [negb app].
  rewrite !readUInt16LE_cons, !readUInt16LE_here, split16.
  cbn [mbind result_bind]. change (16 + 256 * 21 =? V5_CTRL_RESPONSE) with true.
  cbn [negb].
  change (V5_START :: Z.land payloadLen 255 :: Z.shiftr payloadLen 8 :: 16 :: 21
            :: header ++ prefix ++ adu ++ [ck; V5_END])
    with ([V5_START; Z.land payloadLen 255; Z.shiftr payloadLen 8; 16; 21]
            ++ header ++ prefix ++ adu ++ [ck; V5_END]).
  replace ([V5_START; Z.land payloadLen 255; Z.shiftr payloadLen 8; 16; 21]
             ++ header ++ prefix ++ adu ++ [ck; V5_END])
    with (pre ++ adu ++ [ck; V5_END])
    by (unfold pre; rewrite <- !app_assoc; reflexivity).
  destruct (Z.ltb_spec (Z.of_nat (length (pre ++ adu ++ [ck; V5_END])) - 2)
                       (11 + payloadLen)) as [Hlt|_].
  { rewrite !length_app, Hpre in Hlt. cbn [length] in Hlt. unfold payloadLen in Hlt. lia. }
  cbn [mret result_ret]. do 2 f_equal.
  replace (Z.to_nat (11 + payloadLen)) with (length pre + length adu)%nat
    by (unfold payloadLen; lia).
  rewrite <- Hpre. apply slice_middle.
Qed.

(** C1, corrected.  [encodeV5Frame] builds request frames and
    [decodeV5Frame] accepts response frames only, so the two do not
    compose: for every ADU that fits a frame and every serial and sequence
    number, [encodeV5Frame] returns a frame which [decodeV5Frame] rejects
    with 'Unexpected V5 control code: 0x4510'.  The ADU is carried verbatim
    at bytes 26 .. 26+|adu| of the built frame, and from a response frame
    that wraps the ADU [decodeV5Frame] returns the ADU with a trailing zero
    pair removed, hence the ADU itself when it does not end in two zero
    bytes. *)
Theorem encodeV5Frame_decodeV5Frame (adu : Buffer) (serial sequence : Z) :
  15 + Z.of_nat (length adu) <= 0xffff ->
  inUInt16 sequence = true ->
  exists frame,
    encodeV5Frame adu serial sequence = Ok frame /\
    decodeV5Frame frame = Throw (UnexpectedV5ControlCode V5_CTRL_REQUEST) /\
    slice frame 26 (26 + length adu) = adu /\
    forall header prefix ck,
      length header = 6%nat -> length prefix = 14%nat ->
      decodeV5Frame (v5ResponseFrame header prefix adu ck) = Ok (stripZeroPair adu) /\
      ((forall pre, adu <> pre ++ [0; 0]) -> stripZeroPair adu = adu).
Proof.
  intros Hlen Hseq.
  destruct (encodeV5Frame_Ok adu serial sequence Hlen Hseq)
    as (l0 & l1 & s0 & s1 & ck & _ & Henc).
  eexists. split; [exact Henc|]. split; [|split].
  - rewrite !app_assoc. rewrite <- (app_assoc _ (writeUInt32LE _)).
    rewrite <- (app_assoc [V5_START; l0; l1; 16; 69; s0; s1]).
    apply decodeV5Frame_request.
  - rewrite !app_assoc. rewrite <- (app_assoc _ adu).
    apply (slice_middle (([V5_START; l0; l1; 16; 69; s0; s1]
                            ++ writeUInt32LE (toUint32 serial)) ++ requestPrefix)).
  - intros header prefix ck' Hh Hp. split.
    + apply decodeV5Frame_response; assumption.
    + apply stripZeroPair_id.
Qed.

Lemma encodeV5Frame_decodeV5Frame_witness :
  exists frame,
    encodeV5Frame [1; 3; 0; 0; 0; 1; 132; 10] 1782317166 5 = Ok frame /\
    decodeV5Frame frame = Throw (UnexpectedV5ControlCode V5_CTRL_REQUEST) /\
    slice frame 26 34 = [1; 3; 0; 0; 0; 1; 132; 10].
Proof.
  destruct (encodeV5Frame_decodeV5Frame [1; 3; 0; 0; 0; 1; 132; 10] 1782317166 5)
    as (frame & Henc & Hdec & Hslice & _).
  - cbn. lia.
  - reflexivity.
  - exists frame. auto.
Defined.

(** C1 as stated fails: the RTU request for one holding register at
    address 0 and a TCP request for two registers at 0x3b, wrapped by
    [encodeV5Frame], are not decoded back by [decodeV5Frame]. *)
Lemma encodeV5Frame_decodeV5Frame_counterexample :
  (encodeV5Frame [1; 3; 0; 0; 0; 1; 132; 10] 1782317166 5 ≫= decodeV5Frame)
    <> Ok [1; 3; 0; 0; 0; 1; 132; 10] /\
  (encodeV5Frame [0; 7; 0; 0; 0; 6; 1; 3; 0; 59; 0; 2] 1782317166 5 ≫= decodeV5Frame)
    <> Ok [0; 7; 0; 0; 0; 6; 1; 3; 0; 59; 0; 2].
Proof. split; vm_compute; discriminate. Qed.

(** The two ADUs above are the ones the request builders produce. *)
Example buildModbusRtuFrame_example :
  buildModbusRtuFrame 1 3 0 1 = Ok [1; 3; 0; 0; 0; 1; 132; 10].
Proof. reflexivity. Qed.

Example buildModbusTcpFrame_example :
  buildModbusTcpFrame 7 1 3 0x3b 2 = Ok [0; 7; 0; 0; 0; 6; 1; 3; 0; 59; 0; 2].
Proof. reflexivity. Qed.

(** ** Shape detection *)

Lemma readUInt16BE_Ok (buf : Buffer) (off : nat) :
  (S off < length buf)%nat -> exists hi lo,
    buf !! off = Some hi /\ buf !! S off = Some lo /\
    readUInt16BE buf off = Ok (256 * hi + lo).
Proof.
  intros Hlen. unfold readUInt16BE.
  destruct (lookup_lt_is_Some_2 buf off) as [hi Hhi]; [lia|].
  destruct (lookup_lt_is_Some_2 buf (S off)) as [lo Hlo]; [lia|].
  exists hi, lo. rewrite Hhi, Hlo. auto.
Qed.

(** C7, corrected.  An ADU is parsed as Modbus TCP exactly when it has at
    least nine bytes, its protocol-id field (bytes 2-3, big-endian) reads
    zero and its declared MBAP length (bytes 4-5) is at least 2; the
    declared length is not compared with the number of bytes present.
    Every other ADU is parsed as Modbus RTU. *)
Theorem looksLikeModbusTcp_iff (adu : Buffer) (expectedFc : Z) :
  (looksLikeModbusTcp adu = true <->
     (9 <= length adu)%nat /\
     readUInt16BE adu 2 = Ok 0 /\
     exists len, readUInt16BE adu 4 = Ok len /\ 2 <= len) /\
  (looksLikeModbusTcp adu = true ->
     parseRegistersAuto adu expectedFc = parseTcpPath adu expectedFc) /\
  (looksLikeModbusTcp adu = false ->
     parseRegistersAuto adu expectedFc = parseRtuPath adu expectedFc).
Proof.
  split; [|split; intros H; unfold parseRegistersAuto; rewrite H; reflexivity].
  unfold looksLikeModbusTcp, MODBUS_TCP_HEADER_LEN.
  destruct (decide (length adu < 7 + 2)%nat) as [Hshort|Hlong].
  { split; [discriminate|]. intros (Hlen & _). lia. }
  destruct (readUInt16BE_Ok adu 2) as (h2 & l2 & _ & _ & ->); [lia|].
  destruct (readUInt16BE_Ok adu 4) as (h4 & l4 & _ & _ & ->); [lia|].
  destruct (Z.eqb_spec (256 * h2 + l2) 0) as [Hp|Hp]; cbn [negb].
  - destruct (Z.ltb_spec (256 * h4 + l4) 2) as [Hl|Hl].
    + split; [discriminate|]. intros (_ & _ & len & [= <-] & Hge). lia.
    + split; [|reflexivity]. intros _. split; [lia|]. split; [congruence|].
      eexists. split; [reflexivity|lia].
  - split; [discriminate|]. intros (_ & [= Hz] & _). lia.
Qed.

(** C7 as stated fails in both directions.  Nine bytes with protocol id
    zero and a declared length of 65535 are taken for Modbus TCP although
    the length cannot fit the bytes present; eight bytes that form a
    consistent MBAP header with unit id and function code are not. *)
Lemma looksLikeModbusTcp_counterexample :
  ~ (looksLikeModbusTcp [0; 1; 0; 0; 255; 255; 1; 3; 2] = true <->
     specTcpShape [0; 1; 0; 0; 255; 255; 1; 3; 2]) /\
  ~ (looksLikeModbusTcp [0; 1; 0; 0; 0; 2; 1; 3] = true <->
     specTcpShape [0; 1; 0; 0; 0; 2; 1; 3]).
Proof.
  split; intros [Hto Hfrom].
  - destruct (Hto eq_refl) as [_ Hfits]. vm_compute in Hfits. discriminate.
  - assert (Hshape : specTcpShape [0; 1; 0; 0; 0; 2; 1; 3]) by (split; reflexivity).
    specialize (Hfrom Hshape). vm_compute in Hfrom. discriminate.
Qed.

(** ** The client: transport switch and retry *)

Lemma lxor_range16 (a b : Z) :
  0 <= a < 2 ^ 16 -> 0 <= b < 2 ^ 16 -> 0 <= Z.lxor a b < 2 ^ 16.
Proof.
  intros Ha Hb. split; [apply Z.lxor_nonneg; lia|].
  destruct (Z.eq_dec (Z.lxor a b) 0) as [->|Hne]; [lia|].
  assert (0 < Z.lxor a b) by (pose proof (proj2 (Z.lxor_nonneg a b)); lia).
  apply Z.log2_lt_pow2; [assumption|].
  eapply Z.le_lt_trans; [apply Z.log2_lxor; lia|].
  apply Z.max_lub_lt.
  - destruct (Z.eq_dec a 0) as [->|]; [reflexivity|]. apply Z.log2_lt_pow2; lia.
  - destruct (Z.eq_dec b 0) as [->|]; [reflexivity|]. apply Z.log2_lt_pow2; lia.
Qed.

Lemma crc16_bit_range (crc : Z) : 0 <= crc < 2 ^ 16 -> 0 <= crc16_bit crc < 2 ^ 16.
Proof.
  intros Hc. unfold crc16_bit.
  assert (0 <= Z.shiftr crc 1 < 2 ^ 16).
  { rewrite Z.shiftr_div_pow2 by lia. change (2 ^ 1) with 2.
    change (2 ^ 16) with 65536 in *. split; [apply Z.div_pos; lia|].
    apply Z.div_lt_upper_bound; lia. }
  destruct (Z.testbit crc 0); [|assumption].
  apply lxor_range16; [assumption|]. change (2 ^ 16) with 65536. lia.
Qed.

Lemma crc16_byte_range (crc b : Z) :
  0 <= crc < 2 ^ 16 -> isByte b -> 0 <= crc16_byte crc b < 2 ^ 16.
Proof.
  intros Hc Hb. unfold crc16_byte.
  assert (H0 : 0 <= Z.lxor crc b < 2 ^ 16).
  { apply lxor_range16; [assumption|]. unfold isByte in Hb.
    change (2 ^ 16) with 65536. lia. }
  generalize dependent (Z.lxor crc b). intros x Hx.
  do 8 (cbn [Nat.iter]; apply crc16_bit_range). exact Hx.
Qed.

Lemma crc16_range (buf : Buffer) : isBuffer buf -> inUInt16 (crc16 buf) = true.
Proof.
  intros Hbuf. unfold crc16.
  assert (Hgen : forall crc, 0 <= crc < 2 ^ 16 ->
                 0 <= fold_left crc16_byte buf crc < 2 ^ 16).
  { induction Hbuf as [|b buf Hb _ IH]; intros crc Hc; cbn [fold_left]; [exact Hc|].
    apply IH, crc16_byte_range; assumption. }
  apply inUInt16_iff. specialize (Hgen 0xffff). change (2 ^ 16) with 65536 in Hgen. lia.
Qed.

Lemma toUint8_isByte (v : Z) : isByte (toUint8 v).
Proof. unfold isByte, toUint8. apply Z.mod_pos_bound. lia. Qed.

Lemma uint16_bytes (v : Z) :
  inUInt16 v = true -> isByte (Z.shiftr v 8) /\ isByte (Z.land v 0xff).
Proof.
  intros Hv%inUInt16_iff. unfold isByte.
  assert (Z.land v 0xff = v mod 256) as -> by (apply (Z.land_ones v 8); lia).
  rewrite Z.shiftr_div_pow2 by lia. change (2 ^ 8) with 256.
  pose proof (Z.mod_pos_bound v 256). split; [|lia].
  split; [apply Z.div_pos; lia|apply Z.div_lt_upper_bound; lia].
Qed.

Lemma bind_Ok {A B : Type} (a : A) (f : A -> result B) : (Ok a ≫= f) = f a.
Proof. reflexivity. Qed.

Lemma rtuHeader_isBuffer (slave fc register count : Z) :
  inUInt16 register = true -> inUInt16 count = true ->
  isBuffer ([toUint8 slave; toUint8 fc]
              ++ [Z.shiftr register 8; Z.land register 255]
              ++ [Z.shiftr count 8; Z.land count 255]).
Proof.
  intros Hr Hc. destruct (uint16_bytes _ Hr), (uint16_bytes _ Hc).
  unfold isBuffer.
  do 6 (apply Forall_cons_2; [solve [auto using toUint8_isByte]|]).
  apply Forall_nil_2.
Qed.

Lemma buildModbusRtuFrame_Ok (slave fc register count : Z) :
  inUInt16 register = true -> inUInt16 count = true ->
  exists req, buildModbusRtuFrame slave fc register count = Ok req /\ length req = 8%nat.
Proof.
  intros Hr Hc. unfold buildModbusRtuFrame.
  rewrite (writeUInt16BE_Ok _ Hr), (writeUInt16BE_Ok _ Hc).
  rewrite !bind_Ok.
  rewrite (writeUInt16LE_Ok _ (crc16_range _ (rtuHeader_isBuffer slave fc register count Hr Hc))).
  rewrite bind_Ok.
  eexists. split; [reflexivity|]. rewrite !length_app. reflexivity.
Qed.

Lemma buildModbusTcpFrame_Ok (tid unit fc register count : Z) :
  inUInt16 register = true -> inUInt16 count = true ->
  exists req, buildModbusTcpFrame tid unit fc register count = Ok req /\ length req = 12%nat.
Proof.
  intros Hr Hc. unfold buildModbusTcpFrame.
  rewrite (writeUInt16BE_Ok _ Hr), (writeUInt16BE_Ok _ Hc).
  cbn [mbind result_bind]. rewrite (writeUInt16BE_Ok _ (inUInt16_land tid)).
  cbn [mbind result_bind mret result_ret app].
  change (writeUInt16BE MODBUS_TCP_PROTOCOL_ID) with (@Ok Buffer [0; 0]).
  cbn [mbind result_bind app length].
  change (writeUInt16BE (1 + Z.of_nat 5)) with (@Ok Buffer [0; 6]).
  cbn [mbind result_bind app]. eexists. split; [reflexivity|].
  cbn [length]. reflexivity.
Qed.

Lemma prepareRequest_Ok (c : Client) (fc register count : Z) :
  inUInt16 register = true -> inUInt16 count = true ->
  exists v5Req,
    prepareRequest c fc register count =
      (Ok v5Req, _nextSequence (match _transport c with tcp => _nextTxId c | rtu => c end)).
Proof.
  intros Hr Hc. unfold prepareRequest, _buildModbusRequest.
  destruct (_transport c).
  - destruct (buildModbusRtuFrame_Ok (slaveId c) fc register count Hr Hc) as (req & -> & Hlen).
    destruct (encodeV5Frame_Ok req (loggerSerial (_nextSequence c)) (_sequence (_nextSequence c)))
      as (? & ? & ? & ? & ? & _ & ->); [rewrite Hlen; cbn; lia|apply inUInt16_land|].
    eexists. reflexivity.
  - destruct (buildModbusTcpFrame_Ok (_txId (_nextTxId c)) (slaveId (_nextTxId c))
                                     fc register count Hr Hc) as (req & -> & Hlen).
    destruct (encodeV5Frame_Ok req (loggerSerial (_nextSequence (_nextTxId c)))
                               (_sequence (_nextSequence (_nextTxId c))))
      as (? & ? & ? & ? & ? & _ & ->); [rewrite Hlen; cbn; lia|apply inUInt16_land|].
    eexists. reflexivity.
Qed.

(** A client on TCP never retries and never leaves TCP: one request is
    handed over, and whatever the shape of the answer, the outcome is that
    of [parseRegistersAuto] on it. *)
Lemma _readRegisters_tcp (net : list Exchange) (c : Client) (fc register count : Z) :
  _transport c = tcp ->
  inUInt16 register = true -> inUInt16 count = true ->
  let o := _readRegisters net c fc register count in
  _transport (clientAfter o) = tcp /\
  length (handed o) = 1%nat /\
  forall v5Resp net' adu,
    net = Reply v5Resp :: net' -> decodeV5Frame v5Resp = Ok adu ->
    returned o = parseRegistersAuto adu fc /\ unread o = net'.
Proof.
  intros Ht Hr Hc o. subst o.
  destruct (prepareRequest_Ok c fc register count Hr Hc) as (v5Req & Hprep).
  rewrite Ht in Hprep.
  destruct net as [|[v5Resp|msg] net']; cbn [_readRegisters]; rewrite Hprep.
  - cbn. repeat split; done.
  - destruct (decodeV5Frame v5Resp) as [adu|e] eqn:Hdec.
    + assert (Hrtu : isRtu (_nextSequence (_nextTxId c)) = false)
        by (unfold isRtu; cbn; rewrite Ht; reflexivity).
      rewrite Hrtu. cbn [andb].
      destruct (parseRegistersAuto adu fc) as [values|e] eqn:Hparse; cbn;
        (split; [assumption|]; split; [reflexivity|];
         intros ? ? ? [= <- <-] Hdec'; rewrite Hdec in Hdec';
         injection Hdec' as <-; rewrite Hparse; auto).
    + cbn. split; [assumption|]. split; [reflexivity|].
      intros ? ? ? [= <- <-] Hdec'. congruence.
  - cbn. repeat split; done.
Qed.




(** ** The polling scheduler *)

Lemma capabilities_fold_set (l : list string) (v : CapabilityValue)
      (dev : DeyeDevice) (c : string) :
  capabilities (fold_left (fun d c => setCapabilityValue d c v) l dev) !! c =
    if decide (c ∈ l) then Some v else capabilities dev !! c.
Proof.
  revert dev. induction l as [|x l IH]; intros dev; cbn [fold_left].
  - rewrite decide_False by apply not_elem_of_nil. reflexivity.
  - rewrite IH. cbn [setCapabilityValue capabilities].
    destruct (decide (c ∈ l)) as [Hin|Hnin].
    + rewrite decide_True by (apply elem_of_cons; auto). reflexivity.
    + destruct (decide (x = c)) as [->|Hne].
      * rewrite decide_True by (apply elem_of_cons; auto). apply lookup_insert_eq.
      * rewrite decide_False by (rewrite elem_of_cons; intros [?|?]; congruence).
        apply lookup_insert_ne. exact Hne.
Qed.

Lemma fold_set_fields (l : list string) (v : CapabilityValue) (dev : DeyeDevice) :
  let dev' := fold_left (fun d c => setCapabilityValue d c v) l dev in
  _lastPowerW dev' = _lastPowerW dev /\ _backoffUntil dev' = _backoffUntil dev /\
  _polling dev' = _polling dev /\ availability dev' = availability dev /\
  journal dev' = journal dev /\ _definitions dev' = _definitions dev.
Proof.
  revert dev. induction l as [|x l IH]; intros dev; cbn [fold_left]; [tauto|].
  apply (IH (setCapabilityValue dev x v)).
Qed.

Lemma _applyZeros_capabilities (dev : DeyeDevice) (c : string) :
  capabilities (_applyZeros dev) !! c =
    if decide (c ∈ zeroedCapabilities /\ hasCapability dev c = true)
    then Some (CNum 0%float) else capabilities dev !! c.
Proof.
  unfold _applyZeros. cbn [setLastPowerW capabilities].
  rewrite capabilities_fold_set.
  destruct (decide (c ∈ filter (fun c => hasCapability dev c = true) zeroedCapabilities))
    as [Hin|Hnin].
  - apply list_elem_of_filter in Hin. rewrite decide_True by tauto. reflexivity.
  - rewrite decide_False; [reflexivity|].
    intros [? ?]. apply Hnin, list_elem_of_filter. tauto.
Qed.

Lemma _applyZeros_fields (dev : DeyeDevice) :
  _lastPowerW (_applyZeros dev) = 0%float /\
  _backoffUntil (_applyZeros dev) = _backoffUntil dev /\
  _polling (_applyZeros dev) = _polling dev /\
  availability (_applyZeros dev) = availability dev /\
  journal (_applyZeros dev) = journal dev.
Proof.
  unfold _applyZeros. cbn [setLastPowerW _lastPowerW _backoffUntil _polling availability journal].
  pose proof (fold_set_fields
    (filter (fun c => hasCapability dev c = true) zeroedCapabilities) (CNum 0%float) dev).
  cbv zeta in H. tauto.
Qed.

Lemma hasCapability_true (dev : DeyeDevice) (c : string) :
  hasCapability dev c = true <-> is_Some (capabilities dev !! c).
Proof. unfold hasCapability. apply bool_decide_eq_true. Qed.

(** Every capability the string-inverter catalogs bind is zeroed by
    [_applyZeros], or is an energy counter, or is the alarm flag. *)
Lemma string_catalog_capabilities :
  Forall (fun def =>
            from_option (fun c => c ∈ zeroedCapabilities \/
                                  c ∈ ["meter_power"; "meter_power.today"; "alarm_generic"]%string)
                        True (homeyCapability def))
         DEYE_STRING_4MPPT.
Proof.
  unfold DEYE_STRING_4MPPT, STRING_BASE. cbn [app].
  repeat (apply Forall_cons_2;
          [cbn [from_option homeyCapability];
           first [exact I
                 | left; solve [repeat first [apply list_elem_of_here
                                             | apply list_elem_of_further]]
                 | right; solve [repeat first [apply list_elem_of_here
                                              | apply list_elem_of_further]]]|]).
  apply Forall_nil_2.
Qed.

Lemma _poll_skipped (dev : DeyeDevice) (now : Z) :
  now < _backoffUntil dev \/ _polling dev = true -> _poll dev now = dev.
Proof.
  intros [Hlt|Hbusy]; unfold _poll.
  - destruct (Z.ltb_spec now (_backoffUntil dev)); [reflexivity|lia].
  - rewrite Hbusy. destruct (now <? _backoffUntil dev); reflexivity.
Qed.


Lemma pollAdmitted_false (dev : DeyeDevice) (now : Z) :
  pollAdmitted dev now = false <-> now < _backoffUntil dev \/ _polling dev = true.
Proof.
  unfold pollAdmitted.
  destruct (Z.ltb_spec now (_backoffUntil dev)), (_polling dev); cbn;
    intuition (try lia; try discriminate).
Qed.

(** The counter of unsettled poll cycles is the busy flag. *)
Lemma reachable_busy_flag (st : DeyeDevice * nat) :
  reachable st -> snd st = (if _polling (fst st) then 1 else 0)%nat.
Proof.
  induction 1 as [definitions caps a|st ev st' Hreach IH Hstep]; [reflexivity|].
  destruct Hstep as [dev n now Hskip|dev n now Hadm|dev n values|dev n message isNight now];
    cbn [fst snd] in *.
  - apply pollAdmitted_false in Hskip. rewrite (_poll_skipped _ _ Hskip). exact IH.
  - unfold pollAdmitted in Hadm. apply andb_true_iff in Hadm as [Hb Hp].
    apply negb_true_iff in Hb, Hp. unfold _poll. rewrite Hb, Hp in *.
    cbn. lia.
  - destruct (_polling dev); [injection IH as ->|discriminate IH]. reflexivity.
  - destruct (_polling dev); [injection IH as ->|discriminate IH]. reflexivity.
Qed.



(** ** Night failures and the stored power reading *)

Lemma pollRejected_night_fields (dev : DeyeDevice) (message : string) (now : Z) :
  _lastPowerW (pollRejected dev message true now) = 0%float /\
  availability (pollRejected dev message true now) = Available.
Proof.
  unfold pollRejected.
  cbn [setPolling setBackoffUntil log setAvailable setAvailability
       _lastPowerW availability].
  split; [apply _applyZeros_fields|reflexivity].
Qed.

Lemma failureBranch_zero_power (dev : DeyeDevice) (isNight : bool) :
  _lastPowerW dev = 0%float ->
  failureBranch dev isNight = if isNight then NightBranch else IdleBranch.
Proof. unfold failureBranch. intros ->. destruct isNight; reflexivity. Qed.

Lemma applyDefinitions_availability
      (values : gmap string Value) (defs : list RegisterDefinition) (dev : DeyeDevice) :
  availability (fold_left (applyDefinition values) defs dev) = availability dev.
Proof.
  revert dev. induction defs as [|def defs IH]; intros dev; cbn [fold_left]; [reflexivity|].
  rewrite IH. unfold applyDefinition.
  repeat (match goal with
          | |- context [match ?x with _ => _ end] => destruct x
          end; try reflexivity).
Qed.

Lemma handle_keeps_zero_power (dev : DeyeDevice) (ev : Event) :
  _lastPowerW dev = 0%float -> availability dev = Available ->
  match ev with
  | Resolved values => _lastPowerW (pollResolved dev values) = _lastPowerW dev
  | _ => True
  end ->
  _lastPowerW (handle dev ev) = 0%float /\ availability (handle dev ev) = Available.
Proof.
  intros Hzero Havail Hquiet.
  destruct ev as [now|values|message [|] now]; cbn [handle].
  - unfold _poll. destruct (now <? _backoffUntil dev); [auto|].
    destruct (_polling dev); auto.
  - split; [congruence|]. unfold pollResolved.
    cbn [setPolling availability]. apply applyDefinitions_availability.
  - apply pollRejected_night_fields.
  - unfold pollRejected, POWER_THRESHOLD_W. rewrite Hzero.
    change (PrimFloat.ltb 5 0) with false. cbn. auto.
Qed.

Lemma powerUntouched_run (dev : DeyeDevice) (before : list Event) (ev : Event)
      (after : list Event) :
  _lastPowerW dev = 0%float -> availability dev = Available ->
  powerUntouched dev (before ++ ev :: after) ->
  let d := fold_left handle before dev in
  _lastPowerW d = 0%float /\ availability d = Available /\
  availability (handle d ev) = Available.
Proof.
  revert dev. induction before as [|ev0 before IH]; intros dev Hzero Havail Hrun.
  - cbn [app powerUntouched] in Hrun. destruct Hrun as [Hquiet _]. cbn [fold_left].
    split; [exact Hzero|]. split; [exact Havail|].
    apply (handle_keeps_zero_power dev ev Hzero Havail Hquiet).
  - cbn [app powerUntouched] in Hrun. destruct Hrun as [Hquiet Hrest].
    destruct (handle_keeps_zero_power dev ev0 Hzero Havail Hquiet) as [Hz Ha].
    cbn [fold_left]. apply (IH (handle dev ev0) Hz Ha Hrest).
Qed.

(** C10, corrected.  A failure handled as night sets the stored power
    reading to 0.  From then on, as long as no successful poll changes
    that reading, the reading stays 0 and the device stays available:
    every later rejected poll is handled by the night branch when it falls
    outside the solar window and by the idle-daytime branch when it falls
    inside, never by the fault branch, whatever power was stored before
    the night failure. *)
Theorem night_failure_masks_power (dev : DeyeDevice) (message : string) (t : Z)
        (events : list Event) :
  let night := pollRejected dev message true t in
  powerUntouched night events ->
  _lastPowerW night = 0%float /\
  forall before ev after,
    events = before ++ ev :: after ->
    let d := fold_left handle before night in
    _lastPowerW d = 0%float /\ availability d = Available /\
    availability (handle d ev) = Available /\
    forall m isNight now,
      ev = Rejected m isNight now ->
      failureBranch d isNight = (if isNight then NightBranch else IdleBranch).
Proof.
  intros night Hrun.
  destruct (pollRejected_night_fields dev message t) as [Hzero Havail].
  fold night in Hzero, Havail. split; [exact Hzero|].
  intros before ev after -> d.
  destruct (powerUntouched_run night before ev after Hzero Havail Hrun) as (Hz & Ha & Hnext).
  fold d in Hz, Ha, Hnext. repeat (split; [assumption|]).
  intros m isNight now _. apply failureBranch_zero_power. exact Hz.
Qed.

(** A device that stored 3000 W, failed at night at time 0, and fails
    again inside the solar window after the backoff. *)
Lemma night_failure_masks_power_witness :
  let dev := setPolling (setLastPowerW (onInit [] ∅ Available) 3000%float) true in
  let night := pollRejected dev "timeout" true 0 in
  failureBranch dev false = FaultBranch /\
  failureBranch (handle night (Tick 1800000)) false = IdleBranch /\
  availability (handle (handle night (Tick 1800000)) (Rejected "timeout" false 1815000))
    = Available.
Proof.
  cbv zeta.
  destruct (night_failure_masks_power
              (setPolling (setLastPowerW (onInit [] ∅ Available) 3000%float) true)
              "timeout" 0
              [Tick 1800000; Rejected "timeout" false 1815000]) as [_ H].
  - cbn. tauto.
  - destruct (H [Tick 1800000] (Rejected "timeout" false 1815000) [] eq_refl)
      as (_ & _ & Hav & Hbr).
    split; [reflexivity|]. split; [|exact Hav].
    exact (Hbr "timeout"%string false 1815000 eq_refl).
Defined.

(** C10 as stated fails when the next failure is again outside the solar
    window: it is handled by the night branch, which arms a new backoff,
    not by the idle-daytime branch. *)
Lemma night_failure_masks_power_counterexample :
  let dev := setPolling (setLastPowerW (onInit [] ∅ Available) 3000%float) true in
  let night := handle (pollRejected dev "timeout" true 0) (Tick 1800000) in
  failureBranch night true <> IdleBranch /\
  _backoffUntil (handle night (Rejected "timeout" true 1815000)) <> _backoffUntil night.
Proof. cbv zeta. split; vm_compute; discriminate. Qed.

(** ** Register decoding *)

Lemma word_range (registerMap : gmap Z Z) (addr : Z) :
  0 <= word registerMap addr <= 2 ^ 16 - 1.
Proof.
  unfold word.
  assert (Z.land (default 0 (registerMap !! addr)) 0xffff
          = default 0 (registerMap !! addr) mod 2 ^ 16) as ->
    by (apply (Z.land_ones _ 16); lia).
  pose proof (Z.mod_pos_bound (default 0 (registerMap !! addr)) (2 ^ 16)). lia.
Qed.

Lemma specRaw_bounds (registerMap : gmap Z Z) (regs : list Z) (i : Z) :
  0 <= i ->
  0 <= specRaw registerMap regs i <= 2 ^ (16 * i) * (2 ^ (16 * Z.of_nat (length regs)) - 1).
Proof.
  revert i. induction regs as [|addr regs IH]; intros i Hi; cbn [specRaw length].
  - cbn. lia.
  - specialize (IH (i + 1) ltac:(lia)).
    pose proof (word_range registerMap addr) as Hw.
    replace (16 * Z.of_nat (S (length regs))) with (16 + 16 * Z.of_nat (length regs)) by lia.
    replace (16 * (i + 1)) with (16 * i + 16) in IH by lia.
    rewrite Z.pow_add_r in * by lia.
    set (p := 2 ^ (16 * i)) in *. set (q := 2 ^ (16 * Z.of_nat (length regs))) in *.
    set (w := word registerMap addr) in *. set (r := specRaw registerMap regs (i + 1)) in *.
    assert (0 < p) by (apply Z.pow_pos_nonneg; lia).
    assert (0 < q) by (apply Z.pow_pos_nonneg; lia).
    change (2 ^ 16) with 65536 in *. nia.
Qed.

Lemma round53_small (z : Z) : Z.abs z < 2 ^ 53 -> round53 z = z.
Proof.
  intros Hz. unfold round53.
  destruct (Z.ltb_spec (Z.abs z) (2 ^ 53)); [reflexivity|lia].
Qed.

(** Below 2^53 the running sum of the source is the exact sum. *)
Lemma accumulate_exact (registerMap : gmap Z Z) (regs : list Z) (i raw : Z) :
  0 <= i -> 0 <= raw ->
  raw + specRaw registerMap regs i < 2 ^ 53 ->
  accumulate registerMap regs i raw = raw + specRaw registerMap regs i.
Proof.
  revert i raw. induction regs as [|addr regs IH]; intros i raw Hi Hraw Hsum;
    cbn [accumulate specRaw] in *; [lia|].
  pose proof (word_range registerMap addr) as Hw.
  pose proof (specRaw_bounds registerMap regs (i + 1) ltac:(lia)) as [Hlo _].
  assert (0 <= word registerMap addr * 2 ^ (16 * i))
    by (apply Z.mul_nonneg_nonneg; [lia|apply Z.pow_nonneg; lia]).
  unfold jsAdd. rewrite round53_small by lia.
  rewrite IH by lia. lia.
Qed.

Lemma specRaw_three (registerMap : gmap Z Z) (regs : list Z) :
  (length regs <= 3)%nat -> 0 <= specRaw registerMap regs 0 < 2 ^ 48.
Proof.
  intros Hn. pose proof (specRaw_bounds registerMap regs 0 ltac:(lia)) as [Hlo Hhi].
  split; [exact Hlo|].
  assert (2 ^ (16 * Z.of_nat (length regs)) <= 2 ^ 48)
    by (apply Z.pow_le_mono_r; lia).
  change (2 ^ (16 * 0)) with 1 in Hhi. lia.
Qed.

Lemma accumulate_three (registerMap : gmap Z Z) (regs : list Z) :
  (length regs <= 3)%nat ->
  accumulate registerMap regs 0 0 = specRaw registerMap regs 0.
Proof.
  intros Hn. pose proof (specRaw_three registerMap regs Hn).
  rewrite accumulate_exact; [lia|lia|lia|].
  assert (2 ^ 48 < 2 ^ 53) by (apply Z.pow_lt_mono_r; lia). lia.
Qed.

Lemma has_all (registerMap : gmap Z Z) (regs : list Z) :
  forallb (has registerMap) regs = true <->
  forall addr, addr ∈ regs -> is_Some (registerMap !! addr).
Proof.
  unfold has. induction regs as [|a regs IH]; cbn [forallb].
  - split; [intros _ addr Hin; inversion Hin|reflexivity].
  - rewrite andb_true_iff, IH, bool_decide_eq_true. split.
    + intros [Ha Hall] addr [->|Hin]%elem_of_cons; auto.
    + intros Hall. split; [apply Hall; left|intros addr Hin; apply Hall; right; exact Hin].
Qed.

Lemma lookupLabel_None (table : list LookupEntry) (raw : Z) :
  lookupLabel table raw = None <->
  forall entry, entry ∈ table -> raw ∉ keys (key entry).
Proof.
  induction table as [|entry table IH]; cbn [lookupLabel].
  - split; [intros _ entry Hin; inversion Hin|reflexivity].
  - destruct (existsb (Z.eqb raw) (keys (key entry))) eqn:Hex.
    + split; [discriminate|]. intros Hall. exfalso.
      apply existsb_exists in Hex as (k & Hk & ->%Z.eqb_eq).
      apply (Hall entry); [left|apply list_elem_of_In; exact Hk].
    + rewrite IH. split.
      * intros Hall e [->|Hin]%elem_of_cons; [|auto].
        intros Hk%list_elem_of_In.
        assert (existsb (Z.eqb raw) (keys (key entry)) = true)
          by (apply existsb_exists; exists raw; split; [exact Hk|apply Z.eqb_refl]).
        congruence.
      * intros Hall e Hin. apply Hall. right. exact Hin.
Qed.

Lemma lookupLabel_Some (table : list LookupEntry) (raw : Z) (label : string) :
  lookupLabel table raw = Some label ->
  exists before entry after,
    table = before ++ entry :: after /\
    raw ∈ keys (key entry) /\ value entry = label /\
    forall e, e ∈ before -> raw ∉ keys (key e).
Proof.
  induction table as [|entry table IH]; cbn [lookupLabel]; [discriminate|].
  destruct (existsb (Z.eqb raw) (keys (key entry))) eqn:Hex.
  - intros [= <-]. exists [], entry, table.
    apply existsb_exists in Hex as (k & Hk & ->%Z.eqb_eq).
    split; [reflexivity|]. split; [apply list_elem_of_In; exact Hk|].
    split; [reflexivity|]. intros e Hin. inversion Hin.
  - intros (before & e & after & -> & Hin & Hval & Hfirst)%IH.
    exists (entry :: before), e, after. split; [reflexivity|].
    split; [exact Hin|]. split; [exact Hval|].
    intros e' [->|Hb]%elem_of_cons; [|auto].
    intros Hk%list_elem_of_In.
    assert (existsb (Z.eqb raw) (keys (key entry)) = true)
      by (apply existsb_exists; exists raw; split; [exact Hk|apply Z.eqb_refl]).
    congruence.
Qed.

Lemma decodeRegister_present (def : RegisterDefinition) (registerMap : gmap Z Z) :
  (forall addr, addr ∈ registers def -> is_Some (registerMap !! addr)) ->
  negb (forallb (has registerMap) (registers def)) = false.
Proof. intros Hall%has_all. rewrite Hall. reflexivity. Qed.

(** C5, corrected.  For a definition with rule 1 or 3 and at most three
    registers, all present in the map, [decodeRegister] takes
    raw = (Σ (map[addr_i] & 0xFFFF) × 2^(16·i)) mod 2^32, low register
    first: the sum is coerced to an unsigned 32-bit integer, so it is the
    plain sum for one or two registers.  With a lookup table the result is
    the label of the first entry that has raw among its keys, or
    [Unknown(raw)] when no entry has; without one it is
    (raw − offset) × scale in double arithmetic, offset defaulting to 0 and
    scale to 1. *)
Theorem decodeRegister_unsigned (def : RegisterDefinition) (registerMap : gmap Z Z) :
  rule def = 1 \/ rule def = 3 ->
  (forall addr, addr ∈ registers def -> is_Some (registerMap !! addr)) ->
  (length (registers def) <= 3)%nat ->
  let raw := specRaw registerMap (registers def) 0 mod 2 ^ 32 in
  decodeRegister def registerMap = specFinishUnsigned def raw /\
  ((length (registers def) <= 2)%nat ->
     raw = specRaw registerMap (registers def) 0 /\
     decodeRegister def registerMap = specDecodeUnsigned def registerMap) /\
  (forall table, lookup def = Some table ->
     (forall label, decodeRegister def registerMap = VStr label ->
        label = ("Unknown(" ++ decimal raw ++ ")")%string \/
        exists before entry after,
          table = before ++ entry :: after /\ raw ∈ keys (key entry) /\
          value entry = label /\ forall e, e ∈ before -> raw ∉ keys (key e)) /\
     ((forall entry, entry ∈ table -> raw ∉ keys (key entry)) ->
        decodeRegister def registerMap = VStr ("Unknown(" ++ decimal raw ++ ")"))) /\
  (lookup def = None ->
     decodeRegister def registerMap =
       VNum (PrimFloat.mul (PrimFloat.sub (Z2float raw) (default 0%float (offset def)))
                           (default 1%float (scale def)))).
Proof.
  intros Hrule Hall Hn raw.
  assert (Hdec : decodeRegister def registerMap = specFinishUnsigned def raw).
  { unfold decodeRegister. rewrite (decodeRegister_present _ _ Hall).
    assert ((rule def =? 1) || (rule def =? 3) = true) as ->
      by (destruct Hrule as [-> | ->]; reflexivity).
    rewrite (accumulate_three _ _ Hn). reflexivity. }
  split; [exact Hdec|]. split; [|split].
  - intros Hn2.
    assert (Hsmall : raw = specRaw registerMap (registers def) 0).
    { subst raw. apply Z.mod_small.
      pose proof (specRaw_bounds registerMap (registers def) 0 ltac:(lia)) as [Hlo Hhi].
      assert (2 ^ (16 * Z.of_nat (length (registers def))) <= 2 ^ 32)
        by (apply Z.pow_le_mono_r; lia).
      change (2 ^ (16 * 0)) with 1 in Hhi. lia. }
    split; [exact Hsmall|]. rewrite Hdec, Hsmall. reflexivity.
  - intros table Htable. rewrite Hdec. unfold specFinishUnsigned. rewrite Htable. split.
    + intros label.
      destruct (lookupLabel table raw) as [l|] eqn:Hl; intros [= <-]; [right|left; reflexivity].
      apply lookupLabel_Some. exact Hl.
    + intros Hnone%lookupLabel_None. rewrite Hnone. reflexivity.
  - intros Hnone. rewrite Hdec. unfold specFinishUnsigned, scaled. rewrite Hnone. reflexivity.
Qed.

(** Total production of the string inverters: registers 0x3F and 0x40,
    rule 3, scale 0.1. *)
Lemma decodeRegister_unsigned_witness :
  decodeRegister (mkDef "Total Production" 3 [0x3f; 0x40] (Some 0.1%float) None None None
                        (Some "meter_power"%string))
                 (<[0x3f := 0x86a0]> (<[0x40 := 0x0001]> ∅))
  = VNum (PrimFloat.mul (PrimFloat.sub 100000%float 0%float) 0.1%float).
Proof.
  destruct (decodeRegister_unsigned
              (mkDef "Total Production" 3 [0x3f; 0x40] (Some 0.1%float) None None None
                     (Some "meter_power"%string))
              (<[0x3f := 0x86a0]> (<[0x40 := 0x0001]> ∅))) as (_ & _ & _ & H).
  - right. reflexivity.
  - intros addr Hin. cbn [registers] in Hin.
    apply elem_of_cons in Hin as [->|Hin]; [eexists; reflexivity|].
    apply list_elem_of_singleton in Hin as ->. eexists; reflexivity.
  - cbn. lia.
  - exact (H eq_refl).
Defined.

(** C5 as stated fails for three registers: with words 0, 0, 1 the sum is
    2^32, which the source coerces to 0. *)
Lemma decodeRegister_unsigned_counterexample :
  let registerMap : gmap Z Z := <[0 := 0]> (<[1 := 0]> (<[2 := 1]> ∅)) in
  let def := mkDef "x" 1 [0; 1; 2] None None None (Some []) None in
  specRaw registerMap (registers def) 0 = 2 ^ 32 /\
  decodeRegister def registerMap = VStr "Unknown(0)" /\
  specDecodeUnsigned def registerMap = VStr "Unknown(4294967296)" /\
  decodeRegister def registerMap <> specDecodeUnsigned def registerMap.
Proof. cbv zeta. repeat split; try reflexivity. vm_compute. discriminate. Qed.

(** Two decoded values that differ as doubles. *)
Lemma VNum_neq (x y : float) : PrimFloat.eqb x y = false -> PrimFloat.eqb y y = true ->
  VNum x <> VNum y.
Proof. intros Hxy Hyy [= ->]. congruence. Qed.

(** C6, corrected.  For a definition with rule 2 or 4 and at most three
    registers, all present in the map, [decodeRegister] forms the unsigned
    sum Σ (map[addr_i] & 0xFFFF) × 2^(16·i) (not reduced modulo 2^32 as
    under rules 1 and 3), subtracts 2^(16N) when the sum is at least
    2^(16N−1), and returns (raw − offset) × scale in double arithmetic.
    For the single word 0xFFFF with offset 1000 and scale 0.1 the result is
    the double product (−1 − 1000) × 0.1, which is −100.10000000000001. *)
Theorem decodeRegister_signed (def : RegisterDefinition) (registerMap : gmap Z Z) :
  rule def = 2 \/ rule def = 4 ->
  (forall addr, addr ∈ registers def -> is_Some (registerMap !! addr)) ->
  (length (registers def) <= 3)%nat ->
  let n := Z.of_nat (length (registers def)) in
  let sum := specRaw registerMap (registers def) 0 in
  let raw := if 2 ^ (16 * n) <=? 2 * sum then sum - 2 ^ (16 * n) else sum in
  - 2 ^ (16 * n) <= 2 * raw < 2 ^ (16 * n) /\
  decodeRegister def registerMap = specDecodeSigned def registerMap /\
  decodeRegister def registerMap =
    VNum (PrimFloat.mul (PrimFloat.sub (Z2float raw) (default 0%float (offset def)))
                        (default 1%float (scale def))) /\
  decodeRegister (mkDef "Temperature" 2 [0x5a] (Some 0.1%float)
                        (Some 1000%float) None None None)
                 (<[0x5a := 0xffff]> ∅)
    = VNum (PrimFloat.mul (PrimFloat.sub (-1)%float 1000%float) 0.1%float) /\
  PrimFloat.mul (PrimFloat.sub (-1)%float 1000%float) 0.1%float
    = (-100.10000000000001)%float.
Proof.
  intros Hrule Hall Hn n sum raw.
  pose proof (specRaw_bounds registerMap (registers def) 0 ltac:(lia)) as [Hlo Hhi].
  change (2 ^ (16 * 0)) with 1 in Hhi. fold n sum in Hhi, Hlo.
  assert (Hwrap : 0 < 2 ^ (16 * n) <= 2 ^ 48).
  { split; [apply Z.pow_pos_nonneg; lia|apply Z.pow_le_mono_r; lia]. }
  assert (H53 : 2 ^ 48 < 2 ^ 53) by (apply Z.pow_lt_mono_r; lia).
  assert (Hdec : decodeRegister def registerMap = specDecodeSigned def registerMap).
  { unfold decodeRegister, specDecodeSigned, specSignExtend.
    rewrite (decodeRegister_present _ _ Hall).
    assert ((rule def =? 1) || (rule def =? 3) = false) as ->
      by (destruct Hrule as [-> | ->]; reflexivity).
    assert ((rule def =? 2) || (rule def =? 4) = true) as ->
      by (destruct Hrule as [-> | ->]; reflexivity).
    rewrite (accumulate_three _ _ Hn). fold n sum.
    destruct (Z.leb_spec (2 ^ (16 * n)) (2 * sum)); [|reflexivity].
    unfold jsSub. rewrite round53_small by lia. reflexivity. }
  split; [|split; [exact Hdec|split; [|split; reflexivity]]].
  - subst raw. destruct (Z.leb_spec (2 ^ (16 * n)) (2 * sum)); lia.
  - rewrite Hdec. reflexivity.
Qed.

(** Grid current of the string inverters: register 0x4C, rule 2, scale
    0.1, reading the word 0xFFFE. *)
Lemma decodeRegister_signed_witness :
  decodeRegister (mkDef "Grid L1 Current" 2 [0x4c] (Some 0.1%float) None None None
                        (Some "measure_current.grid"%string))
                 (<[0x4c := 0xfffe]> ∅)
  = VNum (PrimFloat.mul (PrimFloat.sub (-2)%float 0%float) 0.1%float).
Proof.
  destruct (decodeRegister_signed
              (mkDef "Grid L1 Current" 2 [0x4c] (Some 0.1%float) None None None
                     (Some "measure_current.grid"%string))
              (<[0x4c := 0xfffe]> ∅)) as (_ & _ & H & _).
  - left. reflexivity.
  - intros addr Hin. cbn [registers] in Hin.
    apply list_elem_of_singleton in Hin as ->. eexists; reflexivity.
  - cbn. lia.
  - exact H.
Defined.

(** C6 as stated fails for four registers: the words 0xFFFF, 0xFFFF,
    0xFFFF, 0xFFFF stand for −1, but the double sum 2^64 − 1 is rounded to
    2^64 before the sign extension and the result is 0.  The claimed
    example value −100.1 is not the double returned either. *)
Lemma decodeRegister_signed_counterexample :
  let registerMap : gmap Z Z :=
    <[0 := 0xffff]> (<[1 := 0xffff]> (<[2 := 0xffff]> (<[3 := 0xffff]> ∅))) in
  let def := mkDef "x" 2 [0; 1; 2; 3] None None None None None in
  specDecodeSigned def registerMap = VNum (-1)%float /\
  decodeRegister def registerMap = VNum 0%float /\
  decodeRegister def registerMap <> specDecodeSigned def registerMap /\
  decodeRegister (mkDef "Temperature" 2 [0x5a] (Some 0.1%float)
                        (Some 1000%float) None None None)
                 (<[0x5a := 0xffff]> ∅) <> VNum (-100.1)%float.
Proof.
  cbv zeta. split; [reflexivity|]. split; [reflexivity|].
  split; apply VNum_neq; reflexivity.
Qed.

(** C8.  [decodeRegister] is a total function into [null], numbers and
    strings (it has no throwing case).  It returns [null] exactly when some
    address of the definition is missing from the map or the rule is not
    one of 1 to 7; so a value other than [null] is returned only if every
    address of the definition is present. *)
Theorem decodeRegister_null (def : RegisterDefinition) (registerMap : gmap Z Z) :
  (decodeRegister def registerMap = VNull <->
     (exists addr, addr ∈ registers def /\ registerMap !! addr = None) \/
     ~ (1 <= rule def <= 7)) /\
  (decodeRegister def registerMap <> VNull ->
     forall addr, addr ∈ registers def -> is_Some (registerMap !! addr)).
Proof.
  assert (Hmissing : forallb (has registerMap) (registers def) = false <->
                     exists addr, addr ∈ registers def /\ registerMap !! addr = None).
  { split.
    - intros Hf. destruct (decide (Exists (fun addr => registerMap !! addr = None)
                                          (registers def))) as [Hex|Hnex].
      + apply Exists_exists in Hex as (addr & Hin & Hnone). eauto.
      + exfalso. assert (forallb (has registerMap) (registers def) = true); [|congruence].
        apply has_all. intros addr Hin.
        destruct (registerMap !! addr) eqn:Hl; [eauto|].
        exfalso. apply Hnex, Exists_exists. eauto.
    - intros (addr & Hin & Hnone).
      destruct (forallb (has registerMap) (registers def)) eqn:Hf; [|reflexivity].
      pose proof (proj1 (has_all _ _) Hf addr Hin) as [v Hv]. congruence. }
  assert (Hiff : decodeRegister def registerMap = VNull <->
     (exists addr, addr ∈ registers def /\ registerMap !! addr = None) \/
     ~ (1 <= rule def <= 7)).
  { unfold decodeRegister.
    destruct (forallb (has registerMap) (registers def)) eqn:Hf; cbn [negb].
    - assert (Hnone : ~ exists addr, addr ∈ registers def /\ registerMap !! addr = None).
      { intros H%Hmissing. congruence. }
      destruct (Z.eqb_spec (rule def) 1), (Z.eqb_spec (rule def) 3),
               (Z.eqb_spec (rule def) 2), (Z.eqb_spec (rule def) 4),
               (Z.eqb_spec (rule def) 5), (Z.eqb_spec (rule def) 6),
               (Z.eqb_spec (rule def) 7); cbn [orb];
        repeat match goal with
               | |- context [match ?x with _ => _ end] => destruct x
               end;
        (split; [try discriminate; intros _; right; lia
                | intros [?|?]; first [reflexivity | tauto | lia]]).
    - split; [intros _; left; apply Hmissing; reflexivity|reflexivity]. }
  split; [exact Hiff|].
  intros Hne addr Hin. destruct (registerMap !! addr) eqn:Hl; [eauto|].
  exfalso. apply Hne, Hiff. left. eauto.
Qed.

(** ** Request planning *)

(** *** The address sets *)

Lemma elem_of_setAdd (addrSet : list Z) (addr a : Z) :
  a ∈ setAdd addrSet addr <-> a = addr \/ a ∈ addrSet.
Proof.
  unfold setAdd. case_bool_decide as Hin.
  - split; [auto|]. intros [->|?]; assumption.
  - rewrite elem_of_app, list_elem_of_singleton. tauto.
Qed.

Lemma NoDup_setAdd (addrSet : list Z) (addr : Z) :
  NoDup addrSet -> NoDup (setAdd addrSet addr).
Proof.
  intros Hnd. unfold setAdd. case_bool_decide as Hin; [exact Hnd|].
  apply NoDup_app. split; [exact Hnd|]. split; [|apply NoDup_singleton].
  intros x Hx ->%list_elem_of_singleton. contradiction.
Qed.

Lemma fold_setAdd (regs addrSet : list Z) :
  NoDup addrSet ->
  let s := fold_left setAdd regs addrSet in
  NoDup s /\ (forall a, a ∈ s <-> a ∈ addrSet \/ a ∈ regs) /\
  (regs <> [] -> s <> []).
Proof.
  revert addrSet. induction regs as [|r regs IH]; intros addrSet Hnd; cbn [fold_left].
  - split; [exact Hnd|]. split; [|congruence].
    intros a. rewrite elem_of_nil. tauto.
  - destruct (IH (setAdd addrSet r) (NoDup_setAdd _ _ Hnd)) as (Hnd' & Hin & _).
    split; [exact Hnd'|]. split.
    + intros a. rewrite Hin, elem_of_setAdd, elem_of_cons. tauto.
    + intros _ Hnil.
      assert (Hr : r ∈ fold_left setAdd regs (setAdd addrSet r))
        by (apply Hin; left; apply elem_of_setAdd; auto).
      rewrite Hnil in Hr. inversion Hr.
Qed.

(** *** The map from function code to address set *)

Lemma mapHas_mapGet (byFc : list (Z * list Z)) (fc : Z) :
  mapHas byFc fc = true <-> is_Some (mapGet byFc fc).
Proof.
  unfold mapHas. induction byFc as [|[k s] byFc IH]; cbn [existsb mapGet fst].
  - split; [discriminate|intros [? [=]]].
  - destruct (k =? fc); cbn [orb]; [|exact IH]. split; eauto.
Qed.

Lemma mapGet_None (byFc : list (Z * list Z)) (fc : Z) :
  mapGet byFc fc = None <-> fc ∉ byFc.*1.
Proof.
  induction byFc as [|[k s] byFc IH]; cbn [mapGet fmap list_fmap fst].
  - split; [intros _ Hin; inversion Hin|reflexivity].
  - rewrite not_elem_of_cons. destruct (Z.eqb_spec k fc) as [->|Hne].
    + split; [discriminate|]. intros [? _]. congruence.
    + rewrite IH. split; [intros ?; split; [congruence|assumption]|tauto].
Qed.

Lemma mapGet_mapUpdate (byFc : list (Z * list Z)) (fc fc' : Z) (f : list Z -> list Z) :
  mapGet (mapUpdate byFc fc f) fc' =
    if decide (fc' = fc) then f <$> mapGet byFc fc else mapGet byFc fc'.
Proof.
  induction byFc as [|[k s] byFc IH]; cbn [mapUpdate mapGet].
  - destruct (decide (fc' = fc)); reflexivity.
  - destruct (Z.eqb_spec k fc) as [->|Hne]; cbn [mapGet].
    + destruct (decide (fc' = fc)) as [->|Hne'].
      * rewrite Z.eqb_refl. reflexivity.
      * destruct (Z.eqb_spec fc fc'); [congruence|reflexivity].
    + destruct (Z.eqb_spec k fc') as [->|Hne'].
      * rewrite decide_False by congruence. reflexivity.
      * exact IH.
Qed.

Lemma mapUpdate_keys (byFc : list (Z * list Z)) (fc : Z) (f : list Z -> list Z) :
  (mapUpdate byFc fc f).*1 = byFc.*1.
Proof.
  induction byFc as [|[k s] byFc IH]; cbn [mapUpdate fmap list_fmap]; [reflexivity|].
  destruct (k =? fc); cbn [fmap list_fmap fst]; [reflexivity|].
  f_equal. exact IH.
Qed.

Lemma mapGet_snoc (byFc : list (Z * list Z)) (fc fc' : Z) (s : list Z) :
  mapGet (byFc ++ [(fc, s)]) fc' =
    match mapGet byFc fc' with
    | Some x => Some x
    | None => if decide (fc' = fc) then Some s else None
    end.
Proof.
  induction byFc as [|[k x] byFc IH]; cbn [app mapGet].
  - destruct (Z.eqb_spec fc fc') as [->|Hne].
    + rewrite decide_True by reflexivity. reflexivity.
    + rewrite decide_False by congruence. reflexivity.
  - destruct (k =? fc'); [reflexivity|exact IH].
Qed.

(** One definition added to the map. *)
Lemma collect_spec (byFc : list (Z * list Z)) (def : RegisterDefinition) :
  NoDup byFc.*1 ->
  NoDup (collect byFc def).*1 /\
  forall fc',
    mapGet (collect byFc def) fc' =
      if decide (fc' = fcOf def)
      then Some (fold_left setAdd (registers def) (default [] (mapGet byFc fc')))
      else mapGet byFc fc'.
Proof.
  intros Hnd. unfold collect.
  set (byFc1 := if mapHas byFc (fcOf def) then byFc else byFc ++ [(fcOf def, [])]).
  assert (H1 : NoDup byFc1.*1 /\
               forall fc', mapGet byFc1 fc' =
                 if decide (fc' = fcOf def) then Some (default [] (mapGet byFc fc'))
                 else mapGet byFc fc').
  { subst byFc1. destruct (mapHas byFc (fcOf def)) eqn:Hhas.
    - split; [exact Hnd|]. intros fc'. destruct (decide (fc' = fcOf def)) as [->|]; [|reflexivity].
      apply mapHas_mapGet in Hhas as [s ->]. reflexivity.
    - assert (Hnone : mapGet byFc (fcOf def) = None).
      { destruct (mapGet byFc (fcOf def)) eqn:Hg; [|reflexivity].
        assert (mapHas byFc (fcOf def) = true) by (apply mapHas_mapGet; eauto). congruence. }
      split.
      + rewrite fmap_app. apply NoDup_app. split; [exact Hnd|].
        split; [|apply NoDup_singleton].
        intros x Hx ->%list_elem_of_singleton. apply mapGet_None in Hnone. contradiction.
      + intros fc'. rewrite mapGet_snoc. destruct (decide (fc' = fcOf def)) as [->|].
        * rewrite Hnone. reflexivity.
        * destruct (mapGet byFc fc'); reflexivity. }
  clearbody byFc1. destruct H1 as [Hnd1 Hget1].
  assert (Hfold : forall regs m, NoDup m.*1 ->
     let m' := fold_left (fun byFc addr => mapUpdate byFc (fcOf def) (fun s => setAdd s addr))
                         regs m in
     NoDup m'.*1 /\
     forall fc', mapGet m' fc' =
       if decide (fc' = fcOf def) then fold_left setAdd regs <$> mapGet m (fcOf def)
       else mapGet m fc').
  { induction regs as [|r regs IH]; intros m Hm; cbn [fold_left].
    - split; [exact Hm|]. intros fc'. destruct (decide (fc' = fcOf def)) as [->|]; [|reflexivity].
      destruct (mapGet m (fcOf def)); reflexivity.
    - destruct (IH (mapUpdate m (fcOf def) (fun s => setAdd s r))) as [Hnd' Hget'].
      { rewrite mapUpdate_keys. exact Hm. }
      split; [exact Hnd'|]. intros fc'. rewrite Hget', !mapGet_mapUpdate.
      destruct (decide (fc' = fcOf def)) as [->|Hne].
      * rewrite decide_True by reflexivity. destruct (mapGet m (fcOf def)); reflexivity.
      * reflexivity. }
  destruct (Hfold (registers def) byFc1 Hnd1) as [Hnd2 Hget2].
  split; [exact Hnd2|]. intros fc'. rewrite Hget2, !Hget1.
  destruct (decide (fc' = fcOf def)) as [->|]; [|reflexivity].
  rewrite decide_True by reflexivity. reflexivity.
Qed.

(** The map after all definitions: keys are distinct, every address set is
    duplicate-free and not empty, and the set of a definition's function
    code holds all its addresses. *)
Lemma groupByFc_spec (definitions : list RegisterDefinition) :
  (forall def, def ∈ definitions -> registers def <> []) ->
  NoDup (groupByFc definitions).*1 /\
  (forall fc s, mapGet (groupByFc definitions) fc = Some s -> NoDup s /\ s <> []) /\
  (forall def, def ∈ definitions ->
     exists s, mapGet (groupByFc definitions) (fcOf def) = Some s /\
               forall a, a ∈ registers def -> a ∈ s).
Proof.
  unfold groupByFc.
  assert (Hgen : forall defs m,
    (forall def, def ∈ defs -> registers def <> []) ->
    NoDup m.*1 ->
    (forall fc s, mapGet m fc = Some s -> NoDup s /\ s <> []) ->
    let g := fold_left collect defs m in
    NoDup g.*1 /\
    (forall fc s, mapGet g fc = Some s -> NoDup s /\ s <> []) /\
    (forall fc s, mapGet m fc = Some s ->
       exists s', mapGet g fc = Some s' /\ forall a, a ∈ s -> a ∈ s') /\
    (forall def, def ∈ defs ->
       exists s, mapGet g (fcOf def) = Some s /\ forall a, a ∈ registers def -> a ∈ s)).
  { induction defs as [|d defs IH]; intros m Hne Hnd Hsets; cbn [fold_left].
    - split; [exact Hnd|]. split; [exact Hsets|]. split; [eauto|].
      intros def Hin. inversion Hin.
    - destruct (collect_spec m d Hnd) as [Hnd1 Hget1].
      assert (Hbase : NoDup (default [] (mapGet m (fcOf d)))).
      { destruct (mapGet m (fcOf d)) as [s|] eqn:Hg; [apply (Hsets _ _ Hg)|apply NoDup_nil_2]. }
      destruct (fold_setAdd (registers d) _ Hbase) as (Hnds & Hins & Hnes).
      assert (Hsets1 : forall fc s, mapGet (collect m d) fc = Some s -> NoDup s /\ s <> []).
      { intros fc s. rewrite Hget1. destruct (decide (fc = fcOf d)) as [->|]; [|apply Hsets].
        intros [= <-]. split; [exact Hnds|]. apply Hnes, Hne. left. }
      destruct (IH (collect m d)) as (Hnd2 & Hsets2 & Hmono & Hdefs);
        [intros def Hin; apply Hne; right; exact Hin|exact Hnd1|exact Hsets1|].
      split; [exact Hnd2|]. split; [exact Hsets2|]. split; [|].
      + intros fc s Hg.
        assert (Hstep : exists s1, mapGet (collect m d) fc = Some s1 /\
                                   forall a, a ∈ s -> a ∈ s1).
        { rewrite Hget1. destruct (decide (fc = fcOf d)) as [->|]; [|eauto].
          eexists. split; [reflexivity|]. intros a Ha. apply Hins. left.
          rewrite Hg. exact Ha. }
        destruct Hstep as (s1 & Hg1 & Hsub1).
        destruct (Hmono fc s1 Hg1) as (s' & Hg' & Hsub'). eauto.
      + intros def [->|Hin]%elem_of_cons; [|apply Hdefs; exact Hin].
        destruct (Hmono (fcOf d) (fold_left setAdd (registers d)
                                    (default [] (mapGet m (fcOf d))))) as (s' & Hg' & Hsub').
        { rewrite Hget1. rewrite decide_True by reflexivity. reflexivity. }
        exists s'. split; [exact Hg'|]. intros a Ha. apply Hsub', Hins. right. exact Ha. }
  intros Hne. destruct (Hgen definitions [] Hne) as (H1 & H2 & _ & H4).
  - apply NoDup_nil_2.
  - intros fc s [=].
  - auto.
Qed.

Lemma mapGet_elem_of (byFc : list (Z * list Z)) (fc : Z) (s : list Z) :
  NoDup byFc.*1 -> (fc, s) ∈ byFc -> mapGet byFc fc = Some s.
Proof.
  induction byFc as [|[k x] byFc IH]; intros Hnd Hin; [inversion Hin|].
  cbn [fmap list_fmap fst] in Hnd. apply NoDup_cons in Hnd as [Hk Hnd].
  cbn [mapGet]. apply elem_of_cons in Hin as [[= -> ->]|Hin].
  - rewrite Z.eqb_refl. reflexivity.
  - destruct (Z.eqb_spec k fc) as [->|Hne]; [|apply IH; assumption].
    exfalso. apply Hk. apply list_elem_of_fmap. exists (fc, s). auto.
Qed.

(** *** Sorting *)

Lemma strictly_ascending (l : list Z) :
  StronglySorted Z.le l -> NoDup l -> StronglySorted Z.lt l.
Proof.
  induction 1 as [|x l Hl IH Hall]; intros Hnd; [constructor|].
  apply NoDup_cons in Hnd as [Hx Hnd]. constructor; [apply IH; exact Hnd|].
  apply Forall_forall. intros y Hy.
  pose proof (proj1 (Forall_forall _ _) Hall y Hy) as Hle.
  assert (x <> y) by (intros ->; contradiction). lia.
Qed.

Lemma sortAscending_spec (addrSet : list Z) :
  NoDup addrSet ->
  StronglySorted Z.lt (sortAscending addrSet) /\
  (forall a, a ∈ sortAscending addrSet <-> a ∈ addrSet) /\
  (addrSet <> [] -> sortAscending addrSet <> []).
Proof.
  intros Hnd. unfold sortAscending.
  pose proof (merge_sort_Permutation Z.le addrSet) as Hperm.
  assert (Hmem : forall a, a ∈ merge_sort Z.le addrSet <-> a ∈ addrSet)
    by (intros a; rewrite Hperm; reflexivity).
  split; [|split; [exact Hmem|]].
  - assert (Hnd' : NoDup (merge_sort Z.le addrSet)) by (rewrite Hperm; exact Hnd).
    apply strictly_ascending; [apply StronglySorted_merge_sort; apply _|exact Hnd'].
  - intros Hne Hnil. destruct addrSet as [|a l]; [congruence|].
    assert (Ha : a ∈ merge_sort Z.le (a :: l)) by (apply Hmem; left).
    rewrite Hnil in Ha. inversion Ha.
Qed.

(** *** The greedy merge *)

Lemma mergeLoop_spec (fc maxCount : Z) (rest : list Z) :
  1 <= maxCount ->
  forall start end_,
    start <= end_ -> end_ - start < maxCount ->
    Forall (fun x => end_ < x) rest ->
    StronglySorted Z.lt rest ->
    let requests := mergeLoop fc maxCount start end_ rest in
    Forall (fun r => exists s c, r = Req fc s c /\ 1 <= c <= maxCount /\ start <= s)
           requests /\
    StronglySorted endsBefore requests /\
    (forall a, start <= a <= end_ \/ a ∈ rest ->
               exists r, r ∈ requests /\ covers fc a r = true).
Proof.
  intros HB. induction rest as [|addr rest IH]; intros start end_ Hse Hlen Hgt Hsorted;
    cbn [mergeLoop].
  - split; [|split].
    + apply Forall_cons_2; [|apply Forall_nil_2]. eexists _, _. split; [reflexivity|]. lia.
    + repeat constructor.
    + intros a [Ha|Ha]; [|inversion Ha].
      eexists. split; [left|]. cbn [covers]. rewrite Z.eqb_refl. cbn [andb].
      apply andb_true_iff. split; [apply Z.leb_le|apply Z.leb_le]; lia.
  - apply Forall_cons in Hgt as [Hgt_addr Hgt_rest].
    apply StronglySorted_inv in Hsorted as [Hsorted Hfirst].
    assert (Hrest_addr : Forall (fun x => addr < x) rest) by exact Hfirst.
    destruct (Z.ltb_spec (addr - start) maxCount) as [Hfits|Hnofit].
    + destruct (IH start addr ltac:(lia) Hfits Hrest_addr Hsorted) as (Hwf & Hord & Hcov).
      split; [exact Hwf|]. split; [exact Hord|].
      intros a [Ha|[->|Ha]%elem_of_cons]; apply Hcov; [left; lia|left; lia|right; exact Ha].
    + destruct (IH addr addr ltac:(lia) ltac:(lia) Hrest_addr Hsorted) as (Hwf & Hord & Hcov).
      split; [|split].
      * apply Forall_cons_2.
        -- eexists _, _. split; [reflexivity|]. lia.
        -- eapply Forall_impl; [exact Hwf|]. cbn beta.
           intros r (s & c & -> & Hc & Hs). eexists _, _. split; [reflexivity|]. lia.
      * constructor; [exact Hord|].
        eapply Forall_impl; [exact Hwf|]. cbn beta.
        intros r (s & c & -> & Hc & Hs). cbn [endsBefore]. lia.
      * intros a [Ha|[->|Ha]%elem_of_cons].
        -- eexists. split; [left|]. cbn [covers]. rewrite Z.eqb_refl. cbn [andb].
           apply andb_true_iff. split; apply Z.leb_le; lia.
        -- destruct (Hcov addr) as (r & Hr & Hc); [left; lia|].
           exists r. split; [right; exact Hr|exact Hc].
        -- destruct (Hcov a) as (r & Hr & Hc); [right; exact Ha|].
           exists r. split; [right; exact Hr|exact Hc].
Qed.

Lemma mergeRanges_spec (fc maxCount : Z) (sorted : list Z) :
  1 <= maxCount -> sorted <> [] -> StronglySorted Z.lt sorted ->
  let requests := mergeRanges fc maxCount sorted in
  Forall (fun r => exists s c, r = Req fc s c /\ 1 <= c <= maxCount) requests /\
  StronglySorted endsBefore requests /\
  (forall a, a ∈ sorted -> exists r, r ∈ requests /\ covers fc a r = true).
Proof.
  intros HB Hne Hsorted. destruct sorted as [|first rest]; [congruence|].
  cbn [mergeRanges]. apply StronglySorted_inv in Hsorted as [Hsorted Hfirst].
  destruct (mergeLoop_spec fc maxCount rest HB first first ltac:(lia) ltac:(lia)
                           Hfirst Hsorted) as (Hwf & Hord & Hcov).
  split; [|split; [exact Hord|]].
  - eapply Forall_impl; [exact Hwf|]. cbn beta.
    intros r (s & c & -> & Hc & _). eauto.
  - intros a [->|Ha]%elem_of_cons; apply Hcov; [left; lia|right; exact Ha].
Qed.

Lemma mergeLoop_fc (fc maxCount : Z) (rest : list Z) (start end_ : Z) :
  Forall (fun r => requestFc r = fc) (mergeLoop fc maxCount start end_ rest).
Proof.
  revert start end_. induction rest as [|addr rest IH]; intros start end_; cbn [mergeLoop].
  - apply Forall_cons_2; [reflexivity|apply Forall_nil_2].
  - destruct (addr - start <? maxCount); [apply IH|].
    apply Forall_cons_2; [reflexivity|apply IH].
Qed.

Lemma mergeRanges_fc (fc maxCount : Z) (sorted : list Z) :
  Forall (fun r => requestFc r = fc) (mergeRanges fc maxCount sorted).
Proof.
  destruct sorted as [|first rest]; cbn [mergeRanges]; [|apply mergeLoop_fc].
  apply Forall_cons_2; [reflexivity|apply Forall_nil_2].
Qed.

(** *** Requests per function code *)

Lemma filter_all {A} (P : A -> Prop) `{forall x, Decision (P x)} (l : list A) :
  Forall P l -> filter P l = l.
Proof.
  induction 1 as [|x l Hx _ IH]; [reflexivity|].
  rewrite filter_cons_True by exact Hx. f_equal. exact IH.
Qed.

Lemma filter_none {A} (P : A -> Prop) `{forall x, Decision (P x)} (l : list A) :
  Forall (fun x => ~ P x) l -> filter P l = [].
Proof.
  induction 1 as [|x l Hx _ IH]; [reflexivity|].
  rewrite filter_cons_False by exact Hx. exact IH.
Qed.

Lemma requestsOf_flat_map (byFc : list (Z * list Z)) (maxCount fc : Z) :
  NoDup byFc.*1 ->
  requestsOf fc (flat_map (fun entry => mergeRanges (fst entry) maxCount
                                                   (sortAscending (snd entry))) byFc)
  = match mapGet byFc fc with
    | Some s => mergeRanges fc maxCount (sortAscending s)
    | None => []
    end.
Proof.
  unfold requestsOf. induction byFc as [|[k s] byFc IH]; intros Hnd; [reflexivity|].
  cbn [fmap list_fmap fst] in Hnd. apply NoDup_cons in Hnd as [Hk Hnd].
  cbn [flat_map mapGet fst snd]. rewrite filter_app, (IH Hnd).
  destruct (Z.eqb_spec k fc) as [->|Hne].
  - rewrite (proj2 (mapGet_None byFc fc) Hk), app_nil_r.
    apply filter_all, mergeRanges_fc.
  - rewrite filter_none; [reflexivity|].
    eapply Forall_impl; [apply mergeRanges_fc|]. cbn beta. intros r Hr; congruence.
Qed.

Lemma covers_requestFc (fc addr : Z) (r : ReadRequest) :
  covers fc addr r = true -> requestFc r = fc.
Proof.
  destruct r as [fc' start count|fc']; cbn [covers requestFc]; [|discriminate].
  intros [[Hfc _]%andb_true_iff _]%andb_true_iff. apply Z.eqb_eq. exact Hfc.
Qed.

Lemma filter_covers_requestsOf (fc addr : Z) (requests : list ReadRequest) :
  filter (fun r => covers fc addr r = true) (requestsOf fc requests)
  = filter (fun r => covers fc addr r = true) requests.
Proof.
  unfold requestsOf. rewrite list_filter_filter. apply list_filter_iff.
  intros r. split; [tauto|]. intros Hc. split; [exact Hc|].
  apply (covers_requestFc _ _ _ Hc).
Qed.

Lemma covered_at_most_once (fc addr : Z) (requests : list ReadRequest) :
  StronglySorted endsBefore requests ->
  (length (filter (fun r => covers fc addr r = true) requests) <= 1)%nat.
Proof.
  induction 1 as [|r requests Hsorted IH Hall]; [cbn; lia|].
  rewrite filter_cons. destruct (decide (covers fc addr r = true)) as [Hc|_]; [|exact IH].
  rewrite filter_none; [cbn; lia|].
  eapply Forall_impl; [exact Hall|]. cbn beta. intros r' Hbefore Hc'.
  destruct r as [f1 s1 c1|], r' as [f2 s2 c2|]; cbn [endsBefore covers] in *;
    try contradiction.
  apply andb_true_iff in Hc as [_ H1%Z.leb_le].
  apply andb_true_iff in Hc' as [[_ H2%Z.leb_le]%andb_true_iff _]. lia.
Qed.

Lemma covered_once (fc addr : Z) (requests : list ReadRequest) (r : ReadRequest) :
  StronglySorted endsBefore requests ->
  r ∈ requests -> covers fc addr r = true ->
  length (filter (fun r => covers fc addr r = true) requests) = 1%nat.
Proof.
  intros Hsorted Hin Hc. pose proof (covered_at_most_once fc addr requests Hsorted) as Hle.
  assert (Hr : r ∈ filter (fun r => covers fc addr r = true) requests)
    by (apply list_elem_of_filter; auto).
  destruct (filter (fun r => covers fc addr r = true) requests); [inversion Hr|].
  cbn [length] in *. lia.
Qed.

(** C4.  For definitions whose address lists are not empty and a maximum
    batch size of at least 1 (no request could satisfy a smaller one),
    [buildReadRequests] returns proper requests with 1 <= count <= maxCount;
    the requests of each function code are in ascending address order and
    pairwise non-overlapping (each range ends before every later one
    begins); and every address of every definition lies in the range
    [start, start + count - 1] of exactly one request of its function
    code. *)
Theorem buildReadRequests_spec (definitions : list RegisterDefinition) (maxCount : Z) :
  1 <= maxCount ->
  (forall def, def ∈ definitions -> registers def <> []) ->
  let requests := buildReadRequests definitions maxCount in
  (forall r, r ∈ requests ->
     exists fc start count, r = Req fc start count /\ 1 <= count <= maxCount) /\
  (forall fc, StronglySorted endsBefore (requestsOf fc requests)) /\
  (forall def addr, def ∈ definitions -> addr ∈ registers def ->
     length (filter (fun r => covers (fcOf def) addr r = true) requests) = 1%nat).
Proof.
  intros HB Hne requests.
  destruct (groupByFc_spec definitions Hne) as (Hkeys & Hsets & Hdefs).
  assert (Hgroup : forall fc s, mapGet (groupByFc definitions) fc = Some s ->
            let rs := mergeRanges fc maxCount (sortAscending s) in
            Forall (fun r => exists s c, r = Req fc s c /\ 1 <= c <= maxCount) rs /\
            StronglySorted endsBefore rs /\
            (forall a, a ∈ s -> exists r, r ∈ rs /\ covers fc a r = true)).
  { intros fc s Hget. destruct (Hsets fc s Hget) as [Hnd Hnonempty].
    destruct (sortAscending_spec s Hnd) as (Hsorted & Hmem & Hnil).
    destruct (mergeRanges_spec fc maxCount (sortAscending s) HB (Hnil Hnonempty) Hsorted)
      as (Hwf & Hord & Hcov).
    split; [exact Hwf|]. split; [exact Hord|].
    intros a Ha. apply Hcov, Hmem. exact Ha. }
  assert (Hof : forall fc, requestsOf fc requests =
                  match mapGet (groupByFc definitions) fc with
                  | Some s => mergeRanges fc maxCount (sortAscending s)
                  | None => []
                  end)
    by (intros fc; apply requestsOf_flat_map; exact Hkeys).
  split; [|split].
  - intros r Hr. subst requests. unfold buildReadRequests in Hr.
    apply list_elem_of_In, in_flat_map in Hr as ([k s] & Hentry%list_elem_of_In & Hin).
    cbn [fst snd] in Hin. apply list_elem_of_In in Hin.
    pose proof (mapGet_elem_of _ _ _ Hkeys Hentry) as Hget.
    destruct (Hgroup k s Hget) as (Hwf & _ & _).
    destruct (proj1 (Forall_forall _ _) Hwf r Hin) as (st & c & -> & Hc). eauto.
  - intros fc. rewrite Hof.
    destruct (mapGet (groupByFc definitions) fc) as [s|] eqn:Hget; [|constructor].
    apply (Hgroup fc s Hget).
  - intros def addr Hdef Haddr.
    destruct (Hdefs def Hdef) as (s & Hget & Hsub).
    destruct (Hgroup (fcOf def) s Hget) as (_ & Hord & Hcov).
    destruct (Hcov addr (Hsub addr Haddr)) as (r & Hr & Hc).
    rewrite <- filter_covers_requestsOf, Hof, Hget.
    apply (covered_once _ _ _ r Hord Hr Hc).
Qed.

(** Three definitions over two function codes, batches of at most 100
    registers. *)
Lemma buildReadRequests_spec_witness :
  let definitions :=
    [ mkDef "Total Production" 3 [0x3f; 0x40] (Some 0.1%float) None None None None;
      mkDef "Device State" 1 [0x3b] None None None None None;
      mkDef "Far Apart" 1 [200; 10] None None (Some 4) None None ] in
  buildReadRequests definitions 100 = [Req 3 59 6; Req 4 10 1; Req 4 200 1] /\
  forall def addr, def ∈ definitions -> addr ∈ registers def ->
    length (filter (fun r => covers (fcOf def) addr r = true)
                   (buildReadRequests definitions 100)) = 1%nat.
Proof.
  cbv zeta. split; [reflexivity|].
  refine (proj2 (proj2 (buildReadRequests_spec _ 100 _ _))); [lia|].
  intros def Hin.
  repeat (apply elem_of_cons in Hin as [->|Hin]; [discriminate|]).
  inversion Hin.
Defined.

(** With a batch size of 0 a request still reads one register. *)
Example buildReadRequests_zero_batch :
  buildReadRequests [mkDef "x" 1 [7] None None None None None] 0 = [Req 3 7 1].
Proof. reflexivity. Qed.

(** A definition without addresses makes the planner push a request whose
    start is undefined. *)
Example buildReadRequests_empty_definition :
  buildReadRequests [mkDef "x" 1 [] None None None None None] 100 = [ReqUndefined 3].
Proof. reflexivity. Qed.

(** ** The worked examples of the specification *)

(** The Modbus RTU request [01 03 00 00 00 01] carries the CRC [84 0A]. *)
Example crc16_reference : crc16 [1; 3; 0; 0; 0; 1] = 0x0a84.
Proof. reflexivity. Qed.

(** Rule 1, one register reading 1617, offset 1000, scale 0.1. *)
Example decodeRegister_rule1 :
  decodeRegister (mkDef "t" 1 [0x5a] (Some 0.1%float) (Some 1000%float) None None None)
                 (<[0x5a := 1617]> ∅) = VNum 61.7%float.
Proof. reflexivity. Qed.

(** Rule 5 over the registers 0x4142 and 0x4344. *)
Example decodeRegister_rule5 :
  decodeRegister (mkDef "Device Serial" 5 [3; 4] None None None None None)
                 (<[3 := 0x4142]> (<[4 := 0x4344]> ∅)) = VStr "ABCD".
Proof. reflexivity. Qed.

(** The 4-MPPT catalog is read in two requests. *)
Example buildReadRequests_catalog :
  buildReadRequests DEYE_STRING_4MPPT DEFAULT_MAX_COUNT = [Req 3 3 88; Req 3 109 8].
Proof. reflexivity. Qed.

(* ===================================================================== *)
(** * Part III.  Further properties of the code                           *)
(* ===================================================================== *)

(** ** CRC and request frames *)

Lemma crc16_bit_shift (h : Z) (k : nat) :
  0 <= h -> Nat.iter k crc16_bit (Z.shiftl h (Z.of_nat k)) = h.
Proof.
  intros Hh. induction k as [|k IH].
  - cbn. apply Z.shiftl_0_r.
  - rewrite Nat.iter_succ_r. unfold crc16_bit at 2.
    rewrite Z.shiftl_spec_low by lia.
    rewrite Z.shiftr_shiftl_l by lia.
    replace (Z.of_nat (S k) - 1) with (Z.of_nat k) by lia. exact IH.
Qed.

Lemma lxor_low_byte (crc : Z) :
  0 <= crc -> Z.lxor crc (Z.land crc 0xff) = Z.shiftl (Z.shiftr crc 8) 8.
Proof.
  intros Hc. apply Z.bits_inj'. intros n Hn.
  rewrite Z.lxor_spec, Z.land_spec.
  destruct (Z.lt_ge_cases n 8) as [Hlt|Hge].
  - rewrite Z.shiftl_spec_low by lia.
    change 0xff with (Z.ones 8). rewrite Z.ones_spec_low by lia.
    destruct (Z.testbit crc n); reflexivity.
  - rewrite Z.shiftl_spec by lia. rewrite Z.shiftr_spec by lia.
    change 0xff with (Z.ones 8). rewrite Z.ones_spec_high by lia.
    replace (n - 8 + 8) with n by lia.
    destruct (Z.testbit crc n); reflexivity.
Qed.

Lemma crc16_byte_low (crc : Z) :
  0 <= crc -> crc16_byte crc (Z.land crc 0xff) = Z.shiftr crc 8.
Proof.
  intros Hc. unfold crc16_byte. rewrite lxor_low_byte by exact Hc.
  apply (crc16_bit_shift (Z.shiftr crc 8) 8). apply Z.shiftr_nonneg. exact Hc.
Qed.

Lemma crc16_byte_self (h : Z) : crc16_byte h h = 0.
Proof. unfold crc16_byte. rewrite Z.lxor_nilpotent. reflexivity. Qed.

Lemma crc16_nonneg (buf : Buffer) : isBuffer buf -> 0 <= crc16 buf.
Proof. intros H%crc16_range%inUInt16_iff. lia. Qed.

(** Appending the CRC, low byte first, brings the CRC of the whole to 0. *)
Lemma crc16_appended (buf : Buffer) :
  isBuffer buf ->
  crc16 (buf ++ [Z.land (crc16 buf) 0xff; Z.shiftr (crc16 buf) 8]) = 0.
Proof.
  intros Hbuf. unfold crc16 at 1. rewrite fold_left_app. cbn [fold_left].
  fold (crc16 buf). rewrite crc16_byte_low by (apply crc16_nonneg; exact Hbuf).
  apply crc16_byte_self.
Qed.

Lemma buildModbusRtuFrame_eq (slave fc register count : Z) :
  inUInt16 register = true -> inUInt16 count = true ->
  buildModbusRtuFrame slave fc register count =
    Ok (([toUint8 slave; toUint8 fc]
           ++ [Z.shiftr register 8; Z.land register 255]
           ++ [Z.shiftr count 8; Z.land count 255])
          ++ [Z.land (crc16 ([toUint8 slave; toUint8 fc]
                               ++ [Z.shiftr register 8; Z.land register 255]
                               ++ [Z.shiftr count 8; Z.land count 255])) 255;
              Z.shiftr (crc16 ([toUint8 slave; toUint8 fc]
                               ++ [Z.shiftr register 8; Z.land register 255]
                               ++ [Z.shiftr count 8; Z.land count 255])) 8]).
Proof.
  intros Hr Hc. unfold buildModbusRtuFrame.
  rewrite (writeUInt16BE_Ok _ Hr), (writeUInt16BE_Ok _ Hc).
  rewrite !bind_Ok.
  rewrite (writeUInt16LE_Ok _ (crc16_range _ (rtuHeader_isBuffer slave fc register count Hr Hc))).
  rewrite bind_Ok. reflexivity.
Qed.

Lemma buildModbusRtuFrame_Throw (slave fc register count : Z) :
  inUInt16 register = false \/ inUInt16 count = false ->
  buildModbusRtuFrame slave fc register count = Throw RangeError.
Proof.
  intros H. unfold buildModbusRtuFrame, writeUInt16BE.
  destruct (inUInt16 register); [|reflexivity].
  destruct H as [H|H]; [discriminate|]. rewrite H. reflexivity.
Qed.

(** X1.  A Modbus RTU request that [buildModbusRtuFrame] returns has
    CRC 0 when the CRC is taken over all eight bytes: the check a receiver
    makes succeeds. *)
Theorem buildModbusRtuFrame_crc (slave fc register count : Z) (frame : Buffer) :
  buildModbusRtuFrame slave fc register count = Ok frame ->
  crc16 frame = 0.
Proof.
  intros Hbuild.
  destruct (inUInt16 register) eqn:Hr;
    [|rewrite buildModbusRtuFrame_Throw in Hbuild by auto; discriminate].
  destruct (inUInt16 count) eqn:Hc;
    [|rewrite buildModbusRtuFrame_Throw in Hbuild by auto; discriminate].
  rewrite (buildModbusRtuFrame_eq _ _ _ _ Hr Hc) in Hbuild.
  pose proof (crc16_appended _ (rtuHeader_isBuffer slave fc register count Hr Hc)) as Hcrc.
  congruence.
Qed.

Lemma buildModbusRtuFrame_crc_witness : crc16 [1; 3; 0; 59; 0; 1; 245; 199] = 0.
Proof. apply (buildModbusRtuFrame_crc 1 3 59 1). reflexivity. Defined.

Lemma split16_be (v : Z) : 256 * Z.shiftr v 8 + Z.land v 0xff = v.
Proof. pose proof (split16 v). lia. Qed.

Lemma land_255_isByte (v : Z) : isByte (Z.land v 0xff).
Proof.
  unfold isByte.
  assert (Z.land v 0xff = v mod 256) as -> by (apply (Z.land_ones v 8); lia).
  apply Z.mod_pos_bound. lia.
Qed.

Lemma looksLikeModbusTcp_short (frame : Buffer) :
  (length frame < 9)%nat -> looksLikeModbusTcp frame = false.
Proof.
  intros Hlen. unfold looksLikeModbusTcp, MODBUS_TCP_HEADER_LEN.
  destruct (decide (length frame < 7 + 2)%nat); [reflexivity|lia].
Qed.

(** X2.  [buildModbusRtuFrame] throws a range error exactly when the
    register or the count/value is outside 0..65535.  Otherwise it returns
    eight bytes: unit id and function code (each modulo 256), register and
    count big-endian, and the CRC of the first six bytes little-endian.
    Such a frame is never taken for Modbus TCP by [looksLikeModbusTcp]. *)
Theorem buildModbusRtuFrame_layout (slave fc register count : Z) :
  match buildModbusRtuFrame slave fc register count with
  | Ok frame =>
      inUInt16 register = true /\ inUInt16 count = true /\
      length frame = 8%nat /\ isBuffer frame /\
      frame !! 0%nat = Some (slave mod 256) /\
      frame !! 1%nat = Some (fc mod 256) /\
      readUInt16BE frame 2 = Ok register /\
      readUInt16BE frame 4 = Ok count /\
      readUInt16LE frame 6 = Ok (crc16 (take 6 frame)) /\
      looksLikeModbusTcp frame = false
  | Throw e =>
      e = RangeError /\ (inUInt16 register = false \/ inUInt16 count = false)
  end.
Proof.
  destruct (inUInt16 register) eqn:Hr;
    [|rewrite buildModbusRtuFrame_Throw by auto; auto].
  destruct (inUInt16 count) eqn:Hc;
    [|rewrite buildModbusRtuFrame_Throw by auto; auto].
  rewrite (buildModbusRtuFrame_eq _ _ _ _ Hr Hc).
  pose proof (rtuHeader_isBuffer slave fc register count Hr Hc) as Hhead.
  pose proof (crc16_range _ Hhead) as Hcrc.
  set (head := [toUint8 slave; toUint8 fc]
                 ++ [Z.shiftr register 8; Z.land register 255]
                 ++ [Z.shiftr count 8; Z.land count 255]) in *.
  assert (Hlen : length head = 6%nat) by reflexivity.
  assert (Htake : take 6 (head ++ [Z.land (crc16 head) 255; Z.shiftr (crc16 head) 8]) = head)
    by (rewrite <- Hlen; apply take_app_length).
  rewrite Htake.
  destruct (uint16_bytes _ Hcrc) as [Hhi Hlo].
  remember (crc16 head) as crc eqn:Ecrc in *. clear Ecrc Htake Hcrc.
  split; [reflexivity|]. split; [reflexivity|]. split; [reflexivity|].
  split.
  { apply Forall_app. split; [exact Hhead|].
    apply Forall_cons_2; [exact Hlo|]. apply Forall_cons_2; [exact Hhi|]. apply Forall_nil_2. }
  split; [reflexivity|]. split; [reflexivity|].
  split; [unfold readUInt16BE; cbn; f_equal; apply split16_be|].
  split; [unfold readUInt16BE; cbn; f_equal; apply split16_be|].
  split; [unfold readUInt16LE; cbn; f_equal; apply split16|].
  apply looksLikeModbusTcp_short. cbn. lia.
Qed.

Lemma buildModbusTcpFrame_eq (tid unit fc register count : Z) :
  inUInt16 register = true -> inUInt16 count = true ->
  buildModbusTcpFrame tid unit fc register count =
    Ok [Z.shiftr (Z.land tid 0xffff) 8; Z.land (Z.land tid 0xffff) 255; 0; 0; 0; 6;
        toUint8 unit; toUint8 fc;
        Z.shiftr register 8; Z.land register 255; Z.shiftr count 8; Z.land count 255].
Proof.
  intros Hr Hc. unfold buildModbusTcpFrame.
  rewrite (writeUInt16BE_Ok _ Hr), (writeUInt16BE_Ok _ Hc).
  rewrite !bind_Ok. rewrite (writeUInt16BE_Ok _ (inUInt16_land tid)).
  rewrite bind_Ok. reflexivity.
Qed.

Lemma buildModbusTcpFrame_Throw (tid unit fc register count : Z) :
  inUInt16 register = false \/ inUInt16 count = false ->
  buildModbusTcpFrame tid unit fc register count = Throw RangeError.
Proof.
  intros H. unfold buildModbusTcpFrame, writeUInt16BE.
  destruct (inUInt16 register); [|reflexivity].
  destruct H as [H|H]; [discriminate|]. rewrite H. reflexivity.
Qed.

(** X3.  [buildModbusTcpFrame] throws a range error exactly when the
    register or the count/value is outside 0..65535.  Otherwise it returns
    twelve bytes: the transaction id modulo 2^16, protocol id 0, length 6,
    unit id, function code, register and count, all big-endian; and
    [looksLikeModbusTcp] takes such a frame for Modbus TCP. *)
Theorem buildModbusTcpFrame_layout (tid unit fc register count : Z) :
  match buildModbusTcpFrame tid unit fc register count with
  | Ok frame =>
      inUInt16 register = true /\ inUInt16 count = true /\
      length frame = 12%nat /\ isBuffer frame /\
      readUInt16BE frame 0 = Ok (tid mod 2 ^ 16) /\
      readUInt16BE frame 2 = Ok 0 /\
      readUInt16BE frame 4 = Ok 6 /\
      frame !! 6%nat = Some (unit mod 256) /\
      frame !! 7%nat = Some (fc mod 256) /\
      readUInt16BE frame 8 = Ok register /\
      readUInt16BE frame 10 = Ok count /\
      looksLikeModbusTcp frame = true
  | Throw e =>
      e = RangeError /\ (inUInt16 register = false \/ inUInt16 count = false)
  end.
Proof.
  destruct (inUInt16 register) eqn:Hr;
    [|rewrite buildModbusTcpFrame_Throw by auto; auto].
  destruct (inUInt16 count) eqn:Hc;
    [|rewrite buildModbusTcpFrame_Throw by auto; auto].
  rewrite (buildModbusTcpFrame_eq _ _ _ _ _ Hr Hc).
  destruct (uint16_bytes _ Hr) as [Hr1 Hr2], (uint16_bytes _ Hc) as [Hc1 Hc2].
  destruct (uint16_bytes _ (inUInt16_land tid)) as [Ht1 Ht2].
  assert (Htid : Z.land tid 0xffff = tid mod 2 ^ 16) by (apply (Z.land_ones tid 16); lia).
  split; [reflexivity|]. split; [reflexivity|]. split; [reflexivity|].
  split.
  { unfold isBuffer.
    do 12 (apply Forall_cons_2;
           [first [assumption | apply toUint8_isByte | unfold isByte; lia]|]).
    apply Forall_nil_2. }
  split; [unfold readUInt16BE; cbn; f_equal; rewrite split16_be; exact Htid|].
  split; [reflexivity|]. split; [reflexivity|].
  split; [reflexivity|]. split; [reflexivity|].
  split; [unfold readUInt16BE; cbn; f_equal; apply split16_be|].
  split; [unfold readUInt16BE; cbn; f_equal; apply split16_be|].
  reflexivity.
Qed.

(** ** The request frame *)

Lemma encodeV5Frame_eq (adu : Buffer) (serial sequence : Z) :
  15 + Z.of_nat (length adu) <= 0xffff ->
  inUInt16 sequence = true ->
  let payloadLen := 15 + Z.of_nat (length adu) in
  let body := [V5_START; Z.land payloadLen 255; Z.shiftr payloadLen 8; 0x10; 0x45;
               Z.land sequence 255; Z.shiftr sequence 8]
                ++ writeUInt32LE (toUint32 serial) ++ requestPrefix ++ adu in
  encodeV5Frame adu serial sequence = Ok (body ++ [v5Checksum (body ++ [0; 0]); V5_END]).
Proof.
  intros Hlen Hseq. cbv zeta. unfold encodeV5Frame.
  rewrite (writeUInt16LE_Ok (15 + Z.of_nat (length adu))) by (apply inUInt16_iff; lia).
  rewrite (writeUInt16LE_Ok sequence) by assumption.
  reflexivity.
Qed.

Lemma encodeV5Frame_Throw (adu : Buffer) (serial sequence : Z) :
  0xffff < 15 + Z.of_nat (length adu) \/ inUInt16 sequence = false ->
  encodeV5Frame adu serial sequence = Throw RangeError.
Proof.
  intros H. unfold encodeV5Frame, writeUInt16LE.
  destruct (inUInt16 (15 + Z.of_nat (length adu))) eqn:Hlen; [|reflexivity].
  destruct H as [H|H]; [apply inUInt16_iff in Hlen; lia|].
  cbn [mbind result_bind]. change (inUInt16 V5_CTRL_REQUEST) with true.
  cbn [mbind result_bind]. rewrite H. reflexivity.
Qed.

(** The checksum does not depend on the last two bytes of the frame. *)
Lemma v5Checksum_tail (body : Buffer) (a b c d : Z) :
  v5Checksum (body ++ [a; b]) = v5Checksum (body ++ [c; d]).
Proof.
  unfold v5Checksum, slice. rewrite !length_app. cbn [length].
  replace (length body + 2 - 2 - 1)%nat with (length body - 1)%nat by lia.
  destruct body as [|x body]; [reflexivity|].
  cbn [app drop length]. rewrite !drop_0.
  replace (S (length body) - 1)%nat with (length body) by lia.
  rewrite !take_app_length. reflexivity.
Qed.

Lemma uint32_bytes (v : Z) :
  0 <= v < 2 ^ 32 ->
  Z.land v 0xff + 256 * Z.land (Z.shiftr v 8) 0xff
    + 65536 * Z.land (Z.shiftr v 16) 0xff + 16777216 * Z.land (Z.shiftr v 24) 0xff = v.
Proof.
  intros Hv. change 0xff with (Z.ones 8).
  rewrite !Z.land_ones, !Z.shiftr_div_pow2 by lia.
  change (2 ^ 8) with 256. change (2 ^ 16) with 65536. change (2 ^ 24) with 16777216.
  change (2 ^ 32) with 4294967296 in Hv.
  pose proof (Z.div_mod v 256 ltac:(lia)).
  pose proof (Z.div_mod (v / 256) 256 ltac:(lia)).
  pose proof (Z.div_mod (v / 65536) 256 ltac:(lia)).
  pose proof (Z.div_mod (v / 16777216) 256 ltac:(lia)).
  assert (v / 256 / 256 = v / 65536) by (rewrite Z.div_div by lia; reflexivity).
  assert (v / 65536 / 256 = v / 16777216) by (rewrite Z.div_div by lia; reflexivity).
  assert (v / 16777216 / 256 = 0)
    by (rewrite Z.div_div by lia; apply Z.div_small; lia).
  lia.
Qed.

(** X4.  For an ADU of bytes that fits (at most 65520 bytes) and a 16-bit
    sequence number, [encodeV5Frame] returns a frame of |adu| + 28 bytes
    that begins with 0xA5 and ends with 0x15, whose header reads back the
    payload length 15 + |adu|, the request control code 0x4510, the
    sequence number and the logger serial modulo 2^32 (all little-endian),
    whose payload begins with frame type 2, and whose last byte but one is
    the checksum of the finished frame.  Otherwise it throws a range
    error. *)
Theorem encodeV5Frame_layout (adu : Buffer) (serial sequence : Z) :
  isBuffer adu ->
  match encodeV5Frame adu serial sequence with
  | Ok frame =>
      15 + Z.of_nat (length adu) <= 0xffff /\ inUInt16 sequence = true /\
      length frame = (length adu + 28)%nat /\ isBuffer frame /\
      frame !! 0%nat = Some V5_START /\ last frame = Some V5_END /\
      readUInt16LE frame 1 = Ok (15 + Z.of_nat (length adu)) /\
      readUInt16LE frame 3 = Ok V5_CTRL_REQUEST /\
      readUInt16LE frame 5 = Ok sequence /\
      (exists b0 b1 b2 b3,
         frame !! 7%nat = Some b0 /\ frame !! 8%nat = Some b1 /\
         frame !! 9%nat = Some b2 /\ frame !! 10%nat = Some b3 /\
         b0 + 256 * b1 + 65536 * b2 + 16777216 * b3 = serial mod 2 ^ 32) /\
      frame !! 11%nat = Some 2 /\
      frame !! (length adu + 26)%nat = Some (v5Checksum frame)
  | Throw e =>
      e = RangeError /\
      (0xffff < 15 + Z.of_nat (length adu) \/ inUInt16 sequence = false)
  end.
Proof.
  intros Hadu.
  destruct (Z.le_gt_cases (15 + Z.of_nat (length adu)) 0xffff) as [Hlen|Hlen];
    [|rewrite encodeV5Frame_Throw by (left; lia); split; [reflexivity|left; lia]].
  destruct (inUInt16 sequence) eqn:Hseq;
    [|rewrite encodeV5Frame_Throw by auto; auto].
  rewrite (encodeV5Frame_eq adu serial sequence Hlen Hseq).
  set (payloadLen := 15 + Z.of_nat (length adu)).
  set (body := [V5_START; Z.land payloadLen 255; Z.shiftr payloadLen 8; 0x10; 0x45;
                Z.land sequence 255; Z.shiftr sequence 8]
                 ++ writeUInt32LE (toUint32 serial) ++ requestPrefix ++ adu).
  assert (Hbody : length body = (length adu + 26)%nat).
  { unfold body. rewrite !length_app. cbn. lia. }
  set (ck := v5Checksum (body ++ [0; 0])).
  assert (Hck : isByte ck) by apply land_255_isByte.
  assert (Hsum : v5Checksum (body ++ [ck; V5_END]) = ck) by apply v5Checksum_tail.
  clearbody ck.
  assert (Hplen : inUInt16 payloadLen = true) by (apply inUInt16_iff; unfold payloadLen; lia).
  destruct (uint16_bytes _ Hplen) as [Hp1 Hp2], (uint16_bytes _ Hseq) as [Hs1 Hs2].
  split; [exact Hlen|]. split; [reflexivity|].
  split; [rewrite length_app, Hbody; cbn; lia|].
  split.
  { apply Forall_app. split; [|apply Forall_cons_2; [exact Hck|]; apply Forall_cons_2;
                                [unfold isByte, V5_END; lia|apply Forall_nil_2]].
    unfold body. apply Forall_app. split.
    - do 7 (apply Forall_cons_2;
            [first [assumption | unfold isByte, V5_START; lia]|]).
      apply Forall_nil_2.
    - apply Forall_app. split.
      + unfold writeUInt32LE.
        do 4 (apply Forall_cons_2; [apply land_255_isByte|]). apply Forall_nil_2.
      + apply Forall_app. split; [|exact Hadu].
        unfold requestPrefix. cbn [repeat].
        do 15 (apply Forall_cons_2; [unfold isByte; lia|]). apply Forall_nil_2. }
  split; [reflexivity|].
  split.
  { change [ck; V5_END] with ([ck] ++ [V5_END]). rewrite app_assoc. apply last_snoc. }
  split; [unfold readUInt16LE; cbn; f_equal; apply split16|].
  split; [reflexivity|].
  split; [unfold readUInt16LE; cbn; f_equal; apply split16|].
  split.
  { eexists _, _, _, _. repeat (split; [reflexivity|]).
    apply uint32_bytes. unfold toUint32. apply Z.mod_pos_bound. lia. }
  split; [reflexivity|].
  rewrite Hsum, <- Hbody. rewrite lookup_app_r by lia.
  replace (length body - length body)%nat with 0%nat by lia. reflexivity.
Qed.

Lemma encodeV5Frame_layout_witness :
  exists frame,
    encodeV5Frame [1; 3; 0; 59; 0; 1; 245; 199] 1782317166 1 = Ok frame /\
    length frame = 36%nat /\ frame !! 34%nat = Some (v5Checksum frame).
Proof.
  pose proof (encodeV5Frame_layout [1; 3; 0; 59; 0; 1; 245; 199] 1782317166 1) as H.
  destruct (encodeV5Frame [1; 3; 0; 59; 0; 1; 245; 199] 1782317166 1) as [frame|e] eqn:E;
    [|discriminate E].
  exists frame. split; [reflexivity|].
  destruct H as (_ & _ & Hlen & _ & _ & _ & _ & _ & _ & _ & _ & Hck).
  - unfold isBuffer. do 8 (apply Forall_cons_2; [unfold isByte; lia|]). apply Forall_nil_2.
  - split; [exact Hlen|exact Hck].
Defined.

(** ** The response frame *)

Lemma stripZeroPair_cases (modbus : Buffer) :
  stripZeroPair modbus = modbus \/
  ((2 <= length modbus)%nat /\ stripZeroPair modbus = take (length modbus - 2) modbus).
Proof.
  unfold stripZeroPair. destruct (decide (2 <= length modbus)%nat); [|auto].
  destruct (modbus !! (length modbus - 2)%nat) as [[| |]|]; auto.
  destruct (modbus !! (length modbus - 1)%nat) as [[| |]|]; auto.
Qed.

Lemma stripZeroPair_prefix (modbus : Buffer) :
  stripZeroPair modbus = take (length (stripZeroPair modbus)) modbus.
Proof.
  destruct (stripZeroPair_cases modbus) as [->|[Hn ->]].
  - symmetry. apply take_ge. lia.
  - rewrite length_take_le by lia. reflexivity.
Qed.

Lemma slice_lookup (buf : Buffer) (from to k : nat) :
  slice buf from to !! k = if decide (k < to - from)%nat then buf !! (from + k)%nat else None.
Proof.
  unfold slice. destruct (decide (k < to - from)%nat).
  - rewrite lookup_take_lt by lia. apply lookup_drop.
  - apply lookup_take_ge. lia.
Qed.

(** X5.  When [decodeV5Frame] returns an ADU, the frame begins with 0xA5,
    ends with 0x15, carries the response control code 0x1510 and declares
    a payload that ends before the last two bytes; the ADU is a run of
    consecutive bytes of the frame starting at offset 25, so it is at most
    |frame| - 27 bytes long and made of bytes when the frame is.  A
    declared payload of 14 bytes or fewer gives the empty ADU, not an
    error. *)
Theorem decodeV5Frame_Ok (v5Frame adu : Buffer) :
  decodeV5Frame v5Frame = Ok adu ->
  v5Frame !! 0%nat = Some V5_START /\
  last v5Frame = Some V5_END /\
  readUInt16LE v5Frame 3 = Ok V5_CTRL_RESPONSE /\
  exists payloadLen,
    readUInt16LE v5Frame 1 = Ok payloadLen /\
    11 + payloadLen <= Z.of_nat (length v5Frame) - 2 /\
    adu = stripZeroPair (slice v5Frame 25 (Z.to_nat (11 + payloadLen))) /\
    adu = take (length adu) (drop 25 v5Frame) /\
    (adu = [] \/ (length adu + 27 <= length v5Frame)%nat) /\
    (payloadLen <= 14 -> adu = []) /\
    (isBuffer v5Frame -> isBuffer adu).
Proof.
  unfold decodeV5Frame.
  case_bool_decide as Hstart; cbn [negb]; [|discriminate].
  case_bool_decide as Hend; cbn [negb]; [|discriminate].
  destruct (readUInt16LE v5Frame 3) as [ctrl|] eqn:Hctrl; cbn [mbind result_bind]; [|discriminate].
  destruct (Z.eqb_spec ctrl V5_CTRL_RESPONSE) as [->|]; cbn [negb]; [|discriminate].
  destruct (readUInt16LE v5Frame 1) as [payloadLen|] eqn:Hlen;
    cbn [mbind result_bind]; [|discriminate].
  destruct (Z.ltb_spec (Z.of_nat (length v5Frame) - 2) (11 + payloadLen)) as [|Hfits];
    [discriminate|].
  cbn [mret result_ret]. intros [= <-].
  split; [exact Hstart|]. split; [exact Hend|]. split; [reflexivity|].
  exists payloadLen. split; [reflexivity|]. split; [exact Hfits|]. split; [reflexivity|].
  set (s := slice v5Frame 25 (Z.to_nat (11 + payloadLen))).
  assert (Hs : s = take (length s) (drop 25 v5Frame)).
  { unfold s, slice. rewrite length_take.
    destruct (Nat.le_gt_cases (Z.to_nat (11 + payloadLen) - 25) (length (drop 25 v5Frame))).
    - rewrite Nat.min_l by assumption. reflexivity.
    - rewrite Nat.min_r by lia. rewrite !take_ge by lia. reflexivity. }
  assert (Hslen : (length s <= Z.to_nat (11 + payloadLen) - 25)%nat)
    by (unfold s, slice; rewrite length_take; lia).
  assert (Hstrip : (length (stripZeroPair s) <= length s)%nat).
  { destruct (stripZeroPair_cases s) as [->|[_ ->]]; [lia|]. rewrite length_take. lia. }
  split; [|split; [|split]].
  - rewrite stripZeroPair_prefix at 1. rewrite Hs at 2. rewrite take_take.
    f_equal. lia.
  - destruct (stripZeroPair s) as [|b rest] eqn:E; [left; reflexivity|right].
    cbn [length] in *. lia.
  - intros Hshort. destruct (stripZeroPair s) as [|b rest] eqn:E; [reflexivity|].
    cbn [length] in Hstrip. lia.
  - intros Hbuf. rewrite stripZeroPair_prefix. apply Forall_take.
    unfold s, slice. apply Forall_take, Forall_drop. exact Hbuf.
Qed.

Lemma decodeV5Frame_Ok_witness :
  decodeV5Frame (v5ResponseFrame [1; 0; 110; 0; 60; 106] (2 :: 1 :: repeat 0 12)
                                 [1; 3; 2; 18; 52; 181; 51] 0)
  = Ok (take 7 (drop 25 (v5ResponseFrame [1; 0; 110; 0; 60; 106] (2 :: 1 :: repeat 0 12)
                                          [1; 3; 2; 18; 52; 181; 51] 0))).
Proof.
  destruct (decodeV5Frame_Ok
              (v5ResponseFrame [1; 0; 110; 0; 60; 106] (2 :: 1 :: repeat 0 12)
                               [1; 3; 2; 18; 52; 181; 51] 0)
              [1; 3; 2; 18; 52; 181; 51] eq_refl)
    as (_ & _ & _ & payloadLen & _ & _ & _ & Hrun & _).
  reflexivity.
Defined.

(** X6.  [decodeV5Frame] looks only at bytes 0 to 4, at the last byte and
    at bytes 25 to |frame| - 3: two frames of equal length that agree there
    decode alike.  The sequence number, the logger serial, the payload
    prefix (bytes 5 to 24) and the checksum (byte |frame| - 2) are never
    examined. *)
Theorem decodeV5Frame_unchecked_bytes (frame1 frame2 : Buffer) :
  length frame1 = length frame2 ->
  (forall j : nat,
     (j < 5 \/ S j = length frame1 \/ (25 <= j /\ j + 2 < length frame1))%nat ->
     frame1 !! j = frame2 !! j) ->
  decodeV5Frame frame1 = decodeV5Frame frame2.
Proof.
  intros Hlen Hagree. unfold decodeV5Frame.
  rewrite <- (Hagree 0%nat) by lia.
  assert (Hlast : last frame1 = last frame2).
  { rewrite !last_lookup, <- Hlen. destruct (length frame1) as [|n] eqn:E;
      cbn [pred]; apply Hagree; lia. }
  rewrite <- Hlast.
  assert (Hctrl : readUInt16LE frame1 3 = readUInt16LE frame2 3)
    by (unfold readUInt16LE; rewrite <- !Hagree by lia; reflexivity).
  assert (Hplen : readUInt16LE frame1 1 = readUInt16LE frame2 1)
    by (unfold readUInt16LE; rewrite <- !Hagree by lia; reflexivity).
  rewrite <- Hctrl, <- Hplen, <- Hlen.
  destruct (bool_decide (frame1 !! 0%nat = Some V5_START)); cbn [negb]; [|reflexivity].
  destruct (bool_decide (last frame1 = Some V5_END)); cbn [negb]; [|reflexivity].
  destruct (readUInt16LE frame1 3) as [ctrl|]; cbn [mbind result_bind]; [|reflexivity].
  destruct (negb (ctrl =? V5_CTRL_RESPONSE)); [reflexivity|].
  destruct (readUInt16LE frame1 1) as [payloadLen|]; cbn [mbind result_bind]; [|reflexivity].
  destruct (Z.ltb_spec (Z.of_nat (length frame1) - 2) (11 + payloadLen)) as [|Hfits];
    [reflexivity|].
  cbn [mret result_ret]. do 2 f_equal.
  apply list_eq. intros k. rewrite !slice_lookup.
  destruct (decide (k < Z.to_nat (11 + payloadLen) - 25)%nat); [|reflexivity].
  apply Hagree. lia.
Qed.

(** Two responses that differ in sequence, serial and checksum. *)
Lemma decodeV5Frame_unchecked_bytes_witness :
  decodeV5Frame (v5ResponseFrame [1; 0; 110; 0; 60; 106] (2 :: 1 :: repeat 0 12)
                                 [1; 3; 2; 18; 52; 181; 51] 0)
  = decodeV5Frame (v5ResponseFrame [9; 9; 1; 2; 3; 4] (2 :: 1 :: repeat 0 12)
                                   [1; 3; 2; 18; 52; 181; 51] 77).
Proof.
  apply decodeV5Frame_unchecked_bytes; [reflexivity|].
  intros j Hj. cbn in Hj.
  do 34 (destruct j as [|j]; [first [reflexivity | exfalso; lia]|]).
  destruct j as [|j]; [reflexivity|].
  rewrite !lookup_ge_None_2 by (cbn; lia). reflexivity.
Defined.

(** ** Response ADUs *)

Lemma readUInt16BE_app (pre : Buffer) (hi lo : Z) (rest : Buffer) :
  readUInt16BE (pre ++ hi :: lo :: rest) (length pre) = Ok (256 * hi + lo).
Proof.
  unfold readUInt16BE.
  rewrite lookup_app_r by lia. replace (length pre - length pre)%nat with 0%nat by lia.
  rewrite lookup_app_r by lia. replace (S (length pre) - length pre)%nat with 1%nat by lia.
  reflexivity.
Qed.

Lemma readWords_wordsBE (values : list Z) (pre tail : Buffer) :
  Forall (fun v => inUInt16 v = true) values ->
  readWords (pre ++ wordsBE values ++ tail) (length pre) (length values) = Ok values.
Proof.
  intros Hall. revert pre. induction Hall as [|v values Hv _ IH]; intros pre; [reflexivity|].
  cbn [length readWords wordsBE flat_map app].
  rewrite readUInt16BE_app, bind_Ok, split16_be.
  specialize (IH (pre ++ [Z.shiftr v 8; Z.land v 255])).
  rewrite length_app in IH. cbn [length] in IH.
  replace (length pre + 2)%nat with (S (S (length pre))) in IH by lia.
  rewrite <- app_assoc in IH. cbn [app] in IH. fold (wordsBE values).
  rewrite IH. reflexivity.
Qed.

Lemma readWords_short (values : list Z) (pre : Buffer) :
  Forall (fun v => inUInt16 v = true) values ->
  readWords (pre ++ wordsBE values) (length pre) (S (length values)) = Throw RangeError.
Proof.
  intros Hall. revert pre. induction Hall as [|v values Hv _ IH]; intros pre.
  - cbn [length readWords wordsBE flat_map]. rewrite app_nil_r.
    unfold readUInt16BE. rewrite lookup_ge_None_2 by lia. reflexivity.
  - cbn [length wordsBE flat_map app]. fold (wordsBE values).
    change (readWords ?a ?s (S ?n)) with (v0 ← readUInt16BE a s; vs ← readWords a (S (S s)) n;
                                          mret (v0 :: vs)).
    rewrite readUInt16BE_app, bind_Ok.
    specialize (IH (pre ++ [Z.shiftr v 8; Z.land v 255])).
    rewrite length_app in IH. cbn [length] in IH.
    replace (length pre + 2)%nat with (S (S (length pre))) in IH by lia.
    rewrite <- app_assoc in IH. cbn [app] in IH.
    rewrite IH. reflexivity.
Qed.

Lemma wordCount_even (n : nat) : wordCount (2 * Z.of_nat n) = n.
Proof.
  unfold wordCount. replace ((2 * Z.of_nat n + 1) / 2) with (Z.of_nat n); [lia|].
  apply Z.div_unique with (r := 1); lia.
Qed.

Lemma isExceptionFc_low (fc : Z) : 0 <= fc < 128 -> isExceptionFc fc = false.
Proof.
  intros Hfc. unfold isExceptionFc. apply Z.testbit_false; [lia|].
  change (2 ^ 7) with 128. rewrite Z.div_small by lia. reflexivity.
Qed.

Lemma wordsBE_first_nonneg (values : list Z) (tail : Buffer) (b : Z) :
  Forall (fun v => inUInt16 v = true) values -> values <> [] ->
  (wordsBE values ++ tail) !! 0%nat = Some b -> 0 <= b.
Proof.
  intros Hall Hne. destruct Hall as [|v values Hv _]; [congruence|].
  cbn. intros [= <-]. apply (uint16_bytes _ Hv).
Qed.

Lemma length_wordsBE (values : list Z) : length (wordsBE values) = (2 * length values)%nat.
Proof. induction values as [|v values IH]; cbn [wordsBE flat_map length app]; [reflexivity|].
  fold (wordsBE values). rewrite IH. lia. Qed.

Lemma looksLikeModbusTcp_protocolId (frame : Buffer) :
  looksLikeModbusTcp frame = true -> readUInt16BE frame 2 = Ok 0.
Proof.
  unfold looksLikeModbusTcp. destruct (decide _); [discriminate|].
  destruct (readUInt16BE frame 2) as [protocolId|]; [|discriminate].
  destruct (readUInt16BE frame 4) as [len|]; [|discriminate].
  destruct (Z.eqb_spec protocolId 0) as [->|]; [reflexivity|discriminate].
Qed.

Lemma rtuResponse_not_tcp (unit fc : Z) (values : list Z) (tail : Buffer) :
  Forall (fun v => inUInt16 v = true) values -> values <> [] ->
  looksLikeModbusTcp ([unit; fc; 2 * Z.of_nat (length values)] ++ wordsBE values ++ tail) = false.
Proof.
  intros Hall Hne.
  destruct (looksLikeModbusTcp _) eqn:Hlooks; [|reflexivity].
  apply looksLikeModbusTcp_protocolId in Hlooks.
  destruct Hall as [|v values Hv _]; [congruence|].
  destruct (uint16_bytes _ Hv) as [[Hhi _] _].
  cbn in Hlooks. injection Hlooks as Hzero. lia.
Qed.

(** The RTU path on a well-formed read response. *)
Lemma parseRtuWords (unit fc : Z) (values : list Z) (tail : Buffer) :
  0 <= fc < 128 ->
  Forall (fun v => inUInt16 v = true) values ->
  values <> [] ->
  parseRegistersAuto
    ([unit; fc; 2 * Z.of_nat (length values)] ++ wordsBE values ++ tail) fc
  = Ok values.
Proof.
  intros Hfc Hall Hne. unfold parseRegistersAuto.
  rewrite rtuResponse_not_tcp by assumption.
  unfold parseRtuPath.
  destruct (decide _) as [Hshort|_].
  { rewrite !length_app, length_wordsBE in Hshort. cbn [length] in Hshort.
    destruct values; [congruence|]. cbn [length] in Hshort. lia. }
  set (adu := [unit; fc; 2 * Z.of_nat (length values)] ++ wordsBE values ++ tail).
  assert (adu !! 1%nat = Some fc) as -> by reflexivity.
  assert (adu !! 2%nat = Some (2 * Z.of_nat (length values))) as -> by reflexivity.
  rewrite isExceptionFc_low by exact Hfc.
  rewrite Z.eqb_refl. cbn [negb]. rewrite wordCount_even.
  apply (readWords_wordsBE values [unit; fc; 2 * Z.of_nat (length values)] tail Hall).
Qed.

(** X7.  An ADU laid out as a Modbus RTU read response (unit id, the
    expected function code, byte count 2n, n big-endian words, then the
    CRC or anything else) with at least one word is parsed by
    [parseRegistersAuto] into exactly those words.  The unit id and the
    CRC bytes are not checked. *)
Theorem parseRegistersAuto_rtu (unit fc : Z) (values : list Z) (tail : Buffer) :
  0 <= fc < 128 ->
  Forall (fun v => inUInt16 v = true) values ->
  values <> [] ->
  parseRegistersAuto
    ([unit; fc; 2 * Z.of_nat (length values)] ++ wordsBE values ++ tail) fc
  = Ok values.
Proof. exact (parseRtuWords unit fc values tail). Qed.

Lemma parseRegistersAuto_rtu_witness :
  parseRegistersAuto [1; 3; 4; 18; 52; 0; 7; 99; 98] 3 = Ok [4660; 7].
Proof.
  apply (parseRegistersAuto_rtu 1 3 [4660; 7] [99; 98]); [lia| |discriminate].
  repeat constructor.
Defined.

(** The TCP path on a well-formed read response. *)
Lemma parseTcpWords (tid0 tid1 len0 len1 unit fc : Z)
        (values : list Z) (tail : Buffer) :
  2 <= 256 * len0 + len1 ->
  0 <= fc < 128 ->
  Forall (fun v => inUInt16 v = true) values ->
  parseRegistersAuto
    ([tid0; tid1; 0; 0; len0; len1; unit; fc; 2 * Z.of_nat (length values)]
       ++ wordsBE values ++ tail) fc
  = Ok values.
Proof.
  intros Hlen Hfc Hall. unfold parseRegistersAuto.
  assert (Hshape : looksLikeModbusTcp
            ([tid0; tid1; 0; 0; len0; len1; unit; fc; 2 * Z.of_nat (length values)]
               ++ wordsBE values ++ tail) = true).
  { unfold looksLikeModbusTcp. destruct (decide _) as [Hshort|_].
    - rewrite length_app in Hshort. cbn in Hshort. lia.
    - assert (readUInt16BE
                ([tid0; tid1; 0; 0; len0; len1; unit; fc; 2 * Z.of_nat (length values)]
                   ++ wordsBE values ++ tail) 2 = Ok 0) as -> by reflexivity.
      assert (readUInt16BE
                ([tid0; tid1; 0; 0; len0; len1; unit; fc; 2 * Z.of_nat (length values)]
                   ++ wordsBE values ++ tail) 4 = Ok (256 * len0 + len1)) as -> by reflexivity.
      cbn [Z.eqb negb].
      destruct (Z.ltb_spec (256 * len0 + len1) 2); [lia|reflexivity]. }
  rewrite Hshape. unfold parseTcpPath.
  set (adu := [tid0; tid1; 0; 0; len0; len1; unit; fc; 2 * Z.of_nat (length values)]
                ++ wordsBE values ++ tail).
  assert (adu !! 7%nat = Some fc) as -> by reflexivity.
  assert (adu !! 8%nat = Some (2 * Z.of_nat (length values))) as -> by reflexivity.
  rewrite isExceptionFc_low by exact Hfc. rewrite Z.eqb_refl. cbn [negb].
  rewrite wordCount_even.
  apply (readWords_wordsBE values
           [tid0; tid1; 0; 0; len0; len1; unit; fc; 2 * Z.of_nat (length values)] tail Hall).
Qed.

(** X8.  An ADU laid out as a Modbus TCP read response (transaction id,
    protocol id 0, a declared length of at least 2, unit id, the expected
    function code, byte count 2n, n big-endian words, anything after) is
    parsed by [parseRegistersAuto] into exactly those words.  Transaction
    id, declared length and unit id are not compared with the request. *)
Theorem parseRegistersAuto_tcp (tid0 tid1 len0 len1 unit fc : Z)
        (values : list Z) (tail : Buffer) :
  2 <= 256 * len0 + len1 ->
  0 <= fc < 128 ->
  Forall (fun v => inUInt16 v = true) values ->
  parseRegistersAuto
    ([tid0; tid1; 0; 0; len0; len1; unit; fc; 2 * Z.of_nat (length values)]
       ++ wordsBE values ++ tail) fc
  = Ok values.
Proof. exact (parseTcpWords tid0 tid1 len0 len1 unit fc values tail). Qed.

Lemma parseRegistersAuto_tcp_witness :
  parseRegistersAuto [0; 1; 0; 0; 0; 7; 1; 3; 4; 18; 52; 0; 7] 3 = Ok [4660; 7].
Proof.
  apply (parseRegistersAuto_tcp 0 1 0 7 1 3 [4660; 7] []); [lia|lia|].
  repeat constructor.
Defined.

(** ** From response frame to register values *)

Lemma stripZeroPair_snoc2 (l : Buffer) (a b : Z) :
  stripZeroPair (l ++ [a; b]) = if (a =? 0) && (b =? 0) then l else l ++ [a; b].
Proof.
  unfold stripZeroPair. rewrite length_app. cbn [length].
  destruct (decide (2 <= length l + 2)%nat); [|lia].
  replace (length l + 2 - 2)%nat with (length l) by lia.
  replace (length l + 2 - 1)%nat with (S (length l)) by lia.
  rewrite !lookup_app_r by lia.
  replace (length l - length l)%nat with 0%nat by lia.
  replace (S (length l) - length l)%nat with 1%nat by lia.
  cbn [lookup list_lookup]. rewrite take_app_length.
  destruct a as [|p|p], b as [|q|q]; reflexivity.
Qed.

Lemma wordsBE_snoc (values : list Z) (v : Z) :
  wordsBE (values ++ [v]) = wordsBE values ++ [Z.shiftr v 8; Z.land v 255].
Proof. unfold wordsBE. rewrite flat_map_app. cbn. reflexivity. Qed.

Lemma word_bytes_zero (v : Z) :
  (Z.shiftr v 8 =? 0) && (Z.land v 255 =? 0) = (v =? 0).
Proof.
  pose proof (split16 v) as Hv.
  destruct (Z.eqb_spec (Z.shiftr v 8) 0) as [H1|H1],
           (Z.eqb_spec (Z.land v 255) 0) as [H2|H2],
           (Z.eqb_spec v 0) as [H3|H3]; cbn [andb]; try reflexivity; try lia.
  all: subst v; first [exact (False_ind _ (H1 eq_refl)) | exact (False_ind _ (H2 eq_refl))].
Qed.

(** X9.  Through [decodeV5Frame], a response frame that wraps a Modbus RTU
    read response with at least one word always yields the words, whatever
    its CRC, sequence number, serial, prefix and checksum are: a CRC of
    0x0000 is stripped as a spurious zero pair and is not needed. *)
Theorem decode_parse_rtu (header prefix : Buffer) (ck unit fc crcLo crcHi : Z)
        (values : list Z) :
  length header = 6%nat -> length prefix = 14%nat ->
  0 <= fc < 128 ->
  Forall (fun v => inUInt16 v = true) values ->
  values <> [] ->
  decodeV5Frame
    (v5ResponseFrame header prefix
       ([unit; fc; 2 * Z.of_nat (length values)] ++ wordsBE values ++ [crcLo; crcHi]) ck)
    ≫= (fun adu => parseRegistersAuto adu fc)
  = Ok values.
Proof.
  intros Hh Hp Hfc Hall Hne.
  rewrite (decodeV5Frame_response header prefix _ ck Hh Hp), bind_Ok.
  rewrite !app_assoc, stripZeroPair_snoc2.
  destruct ((crcLo =? 0) && (crcHi =? 0)).
  - rewrite <- (app_nil_r (_ ++ wordsBE values)), <- !app_assoc.
    apply parseRtuWords; assumption.
  - rewrite <- !app_assoc. apply parseRtuWords; assumption.
Qed.

Lemma decode_parse_rtu_witness :
  decodeV5Frame (v5ResponseFrame [1; 0; 110; 0; 60; 106] (2 :: 1 :: repeat 0 12)
                                 [1; 3; 2; 18; 52; 0; 0] 0)
    ≫= (fun adu => parseRegistersAuto adu 3) = Ok [4660].
Proof.
  apply (decode_parse_rtu [1; 0; 110; 0; 60; 106] (2 :: 1 :: repeat 0 12) 0 1 3 0 0 [4660]);
    [reflexivity|reflexivity|lia| |discriminate].
  repeat constructor.
Defined.

(** X10.  Through [decodeV5Frame], a response frame that wraps a Modbus TCP
    read response and nothing after it yields the words only if the last
    word is not 0.  When the last register reads 0 its two bytes are
    stripped as a spurious zero pair and parsing throws a range error; a
    client on TCP then returns that error for the read. *)
Theorem decode_parse_tcp (header prefix : Buffer) (ck tid0 tid1 len0 len1 unit fc : Z)
        (values : list Z) (v : Z) :
  length header = 6%nat -> length prefix = 14%nat ->
  2 <= 256 * len0 + len1 ->
  0 <= fc < 128 ->
  Forall (fun v => inUInt16 v = true) (values ++ [v]) ->
  let frame :=
    v5ResponseFrame header prefix
      ([tid0; tid1; 0; 0; len0; len1; unit; fc; 2 * Z.of_nat (length (values ++ [v]))]
         ++ wordsBE (values ++ [v])) ck in
  let outcome := if v =? 0 then Throw RangeError else Ok (values ++ [v]) in
  decodeV5Frame frame ≫= (fun adu => parseRegistersAuto adu fc) = outcome /\
  forall net c register count,
    _transport c = tcp -> inUInt16 register = true -> inUInt16 count = true ->
    returned (_readRegisters (Reply frame :: net) c fc register count) = outcome.
Proof.
  intros Hh Hp Hlen Hfc Hall frame outcome.
  assert (Hdec : decodeV5Frame frame =
                 Ok (if v =? 0
                     then [tid0; tid1; 0; 0; len0; len1; unit; fc;
                           2 * Z.of_nat (length (values ++ [v]))] ++ wordsBE values
                     else [tid0; tid1; 0; 0; len0; len1; unit; fc;
                           2 * Z.of_nat (length (values ++ [v]))] ++ wordsBE (values ++ [v]))).
  { unfold frame. rewrite (decodeV5Frame_response header prefix _ ck Hh Hp).
    rewrite wordsBE_snoc, app_assoc, stripZeroPair_snoc2, word_bytes_zero.
    destruct (v =? 0); [reflexivity|]. rewrite <- app_assoc. reflexivity. }
  assert (Hparse : decodeV5Frame frame ≫= (fun adu => parseRegistersAuto adu fc) = outcome).
  { rewrite Hdec, bind_Ok. unfold outcome. destruct (v =? 0).
    - apply Forall_app in Hall as [Hvalues _].
      set (adu := [tid0; tid1; 0; 0; len0; len1; unit; fc;
                   2 * Z.of_nat (length (values ++ [v]))] ++ wordsBE values).
      assert (Hshape : looksLikeModbusTcp adu = true).
      { unfold looksLikeModbusTcp. destruct (decide _) as [Hshort|_].
        - unfold adu in Hshort. rewrite length_app in Hshort. cbn in Hshort. lia.
        - assert (readUInt16BE adu 2 = Ok 0) as -> by reflexivity.
          assert (readUInt16BE adu 4 = Ok (256 * len0 + len1)) as -> by reflexivity.
          cbn [Z.eqb negb]. destruct (Z.ltb_spec (256 * len0 + len1) 2); [lia|reflexivity]. }
      unfold parseRegistersAuto. rewrite Hshape. unfold parseTcpPath.
      assert (adu !! 7%nat = Some fc) as -> by reflexivity.
      assert (adu !! 8%nat = Some (2 * Z.of_nat (length (values ++ [v])))) as -> by reflexivity.
      rewrite isExceptionFc_low by exact Hfc. rewrite Z.eqb_refl. cbn [negb].
      rewrite wordCount_even, length_app. cbn [length].
      replace (length values + 1)%nat with (S (length values)) by lia.
      apply (readWords_short values
               [tid0; tid1; 0; 0; len0; len1; unit; fc;
                2 * Z.of_nat (length (values ++ [v]))] Hvalues).
    - rewrite <- (app_nil_r (wordsBE (values ++ [v]))).
      apply parseTcpWords; assumption. }
  split; [exact Hparse|].
  intros net c register count Ht Hr Hc.
  destruct (_readRegisters_tcp (Reply frame :: net) c fc register count Ht Hr Hc)
    as (_ & _ & Hret).
  rewrite Hdec in Hparse. rewrite bind_Ok in Hparse.
  destruct (Hret frame net _ eq_refl Hdec) as [-> _]. exact Hparse.
Qed.

Lemma decode_parse_tcp_witness :
  decodeV5Frame (v5ResponseFrame [1; 0; 110; 0; 60; 106] (2 :: 1 :: repeat 0 12)
                                 [0; 1; 0; 0; 0; 7; 1; 3; 4; 18; 52; 0; 0] 0)
    ≫= (fun adu => parseRegistersAuto adu 3) = Throw RangeError.
Proof.
  refine (proj1 (decode_parse_tcp [1; 0; 110; 0; 60; 106] (2 :: 1 :: repeat 0 12)
                                  0 0 1 0 7 1 3 [4660] 0 _ _ _ _ _));
    [reflexivity|reflexivity|lia|lia|].
  repeat constructor.
Defined.

(** ** Reassembly of the response in [_sendReceive] *)

Lemma readUInt16LE_app_l (buf tail : Buffer) (off : nat) :
  (S off < length buf)%nat ->
  readUInt16LE (buf ++ tail) off = readUInt16LE buf off.
Proof.
  intros H. unfold readUInt16LE. rewrite !lookup_app_l by lia. reflexivity.
Qed.

Lemma readUInt16LE_defined (buf : Buffer) (off : nat) :
  (S off < length buf)%nat -> exists v, readUInt16LE buf off = Ok v.
Proof.
  intros H. unfold readUInt16LE.
  destruct (lookup_lt_is_Some_2 buf off ltac:(lia)) as [lo ->].
  destruct (lookup_lt_is_Some_2 buf (S off) ltac:(lia)) as [hi ->].
  eexists; reflexivity.
Qed.

Lemma readUInt16LE_short (buf : Buffer) (off : nat) :
  (length buf <= S off)%nat -> readUInt16LE buf off = Throw RangeError.
Proof.
  intros H. unfold readUInt16LE.
  rewrite (lookup_ge_None_2 buf (S off)) by lia. destruct (buf !! off); reflexivity.
Qed.

Lemma readUInt16LE_nonneg (buf : Buffer) (off : nat) (v : Z) :
  isBuffer buf -> readUInt16LE buf off = Ok v -> 0 <= v <= 0xffff.
Proof.
  intros Hbuf. unfold readUInt16LE.
  destruct (buf !! off) as [lo|] eqn:Hlo; [|discriminate].
  destruct (buf !! S off) as [hi|] eqn:Hhi; [|discriminate].
  intros [= <-].
  pose proof (proj1 (Forall_lookup _ _) Hbuf _ _ Hlo) as H1.
  pose proof (proj1 (Forall_lookup _ _) Hbuf _ _ Hhi) as H2.
  unfold isByte in *. lia.
Qed.

Lemma firstFrame_app (stream tail frame : Buffer) :
  isBuffer stream ->
  firstFrame stream = Some frame -> firstFrame (stream ++ tail) = Some frame.
Proof.
  intros Hbuf. unfold firstFrame.
  destruct (readUInt16LE stream 1) as [payloadLen|] eqn:Hlen; [|discriminate].
  pose proof (readUInt16LE_nonneg _ _ _ Hbuf Hlen) as Hrange.
  destruct (Z.leb_spec (13 + payloadLen) (Z.of_nat (length stream))) as [Hle|]; [|discriminate].
  intros [= <-].
  rewrite readUInt16LE_app_l, Hlen by lia.
  rewrite length_app.
  destruct (Z.leb_spec (13 + payloadLen) (Z.of_nat (length stream + length tail))); [|lia].
  rewrite take_app_le by lia. reflexivity.
Qed.

(** What the promise holds after the chunks in [data]. *)
Lemma receive_state (data : list Buffer) :
  Forall isBuffer data ->
  let p := receive data in
  resolved p = firstFrame (concat data) /\
  (resolved p = None ->
   chunks p = data /\
   expectedLen p =
     match readUInt16LE (concat data) 1 with
     | Ok payloadLen => Some (11 + payloadLen + 2)
     | Throw _ => None
     end).
Proof.
  unfold receive. induction data as [|chunk data IH] using rev_ind; intros Hall.
  - cbn. split; [reflexivity|]. intros _. split; reflexivity.
  - apply Forall_app in Hall as [Hdata Hchunk].
    apply Forall_cons_1 in Hchunk as [Hchunk _].
    specialize (IH Hdata). cbn zeta in IH. destruct IH as [Hres Hlisten].
    assert (Hstream : isBuffer (concat data)).
    { unfold isBuffer. apply Forall_concat. exact Hdata. }
    rewrite fold_left_app. cbn [fold_left]. cbn zeta.
    rewrite concat_app. cbn [concat]. rewrite app_nil_r.
    set (p := fold_left onData data listening) in *.
    unfold onData. destruct (resolved p) as [frame|] eqn:Hp.
    + rewrite Hp. split; [|discriminate].
      symmetry. apply firstFrame_app; [assumption|]. symmetry. exact Hres.
    + destruct (Hlisten eq_refl) as [Hchunks Hexp]. rewrite Hchunks, Hexp.
      rewrite concat_app. cbn [concat]. rewrite app_nil_r.
      set (stream := concat data) in *. set (buf := stream ++ chunk).
      assert (Hbuf : isBuffer buf) by (apply Forall_app; split; assumption).
      assert (Hexp' :
                match readUInt16LE stream 1 with
                | Ok payloadLen => Some (11 + payloadLen + 2)
                | Throw _ =>
                    if decide (3 <= length buf)%nat then
                      match readUInt16LE buf 1 with
                      | Ok payloadLen => Some (11 + payloadLen + 2)
                      | Throw _ => None
                      end
                    else None
                end =
                match readUInt16LE buf 1 with
                | Ok payloadLen => Some (11 + payloadLen + 2)
                | Throw _ => None
                end).
      { destruct (decide (3 <= length stream)%nat) as [Hlong|Hshort].
        - unfold buf. rewrite readUInt16LE_app_l by lia.
          destruct (readUInt16LE_defined stream 1 ltac:(lia)) as [v ->]. reflexivity.
        - rewrite (readUInt16LE_short stream 1) by lia.
          destruct (decide (3 <= length buf)%nat) as [|Hshort']; [reflexivity|].
          rewrite (readUInt16LE_short buf 1) by lia. reflexivity. }
      destruct (readUInt16LE stream 1) as [v|e] eqn:Hs.
      * cbn match. rewrite <- Hexp' at 1.
        unfold firstFrame.
        assert (Hb : readUInt16LE buf 1 = Ok v).
        { unfold buf. destruct (decide (3 <= length stream)%nat).
          - rewrite readUInt16LE_app_l by lia. exact Hs.
          - rewrite readUInt16LE_short in Hs by lia. discriminate. }
        rewrite Hb. pose proof (readUInt16LE_nonneg _ _ _ Hbuf Hb) as Hrange.
        replace (11 + v + 2) with (13 + v) by lia.
        destruct (Z.leb_spec (13 + v) (Z.of_nat (length buf))); cbn [resolved chunks expectedLen].
        -- split; [|discriminate]. unfold slice. rewrite drop_0.
           replace (Z.to_nat (13 + v) - 0)%nat with (Z.to_nat (13 + v)) by lia. reflexivity.
        -- split; [reflexivity|]. intros _. split; reflexivity.
      * cbn match. unfold firstFrame.
        destruct (decide (3 <= length buf)%nat) as [Hlong|Hshort].
        -- destruct (readUInt16LE_defined buf 1 ltac:(lia)) as [v Hb]. rewrite Hb.
           pose proof (readUInt16LE_nonneg _ _ _ Hbuf Hb) as Hrange.
           replace (11 + v + 2) with (13 + v) by lia.
           destruct (Z.leb_spec (13 + v) (Z.of_nat (length buf))); cbn [resolved chunks expectedLen].
           ++ split; [|discriminate]. unfold slice. rewrite drop_0.
              replace (Z.to_nat (13 + v) - 0)%nat with (Z.to_nat (13 + v)) by lia. reflexivity.
           ++ split; [reflexivity|]. intros _. split; reflexivity.
        -- rewrite (readUInt16LE_short buf 1) by lia. cbn [resolved chunks expectedLen].
           split; [reflexivity|]. intros _. split; reflexivity.
Qed.

(** X11.  [_sendReceive] resolves with the first 13 + payloadLen bytes of
    the byte stream, the payload length being bytes 1 and 2 of the stream,
    as soon as that many bytes have arrived, and stays pending before.
    The result depends on the bytes only, not on how the socket cut them
    into chunks, and bytes after the frame are dropped. *)
Theorem receive_first_frame (data : list Buffer) :
  Forall isBuffer data ->
  let stream := concat data in
  match resolved (receive data) with
  | Some frame =>
      exists payloadLen,
        readUInt16LE stream 1 = Ok payloadLen /\
        13 + payloadLen <= Z.of_nat (length stream) /\
        frame = take (Z.to_nat (13 + payloadLen)) stream
  | None =>
      (length stream < 3)%nat \/
      exists payloadLen,
        readUInt16LE stream 1 = Ok payloadLen /\
        Z.of_nat (length stream) < 13 + payloadLen
  end /\
  forall data', Forall isBuffer data' -> concat data' = stream ->
                resolved (receive data') = resolved (receive data).
Proof.
  intros Hall stream.
  destruct (receive_state data Hall) as [Hres _]. fold stream in Hres.
  split.
  - rewrite Hres. unfold firstFrame.
    destruct (readUInt16LE stream 1) as [payloadLen|e] eqn:Hlen.
    + destruct (Z.leb_spec (13 + payloadLen) (Z.of_nat (length stream))).
      * exists payloadLen. split; [reflexivity|]. split; [assumption|reflexivity].
      * right. exists payloadLen. split; [reflexivity|assumption].
    + left. destruct (decide (3 <= length stream)%nat) as [Hlong|]; [|lia].
      destruct (readUInt16LE_defined stream 1 ltac:(lia)) as [v Hv]. congruence.
  - intros data' Hall' Hsame.
    destruct (receive_state data' Hall') as [Hres' _].
    rewrite Hres', Hres, Hsame. reflexivity.
Qed.

Lemma receive_first_frame_witness :
  resolved (receive [[165; 1]; [0; 16; 21; 0; 0; 0; 0; 0]; [0; 0; 0; 7; 21; 165; 9]])
  = Some [165; 1; 0; 16; 21; 0; 0; 0; 0; 0; 0; 0; 0; 7] /\
  resolved (receive [[165; 1; 0; 16; 21; 0; 0; 0; 0; 0; 0; 0; 0; 7; 21; 165; 9]])
  = resolved (receive [[165; 1]; [0; 16; 21; 0; 0; 0; 0; 0]; [0; 0; 0; 7; 21; 165; 9]]).
Proof.
  assert (Hall : Forall isBuffer [[165; 1]; [0; 16; 21; 0; 0; 0; 0; 0]; [0; 0; 0; 7; 21; 165; 9]]).
  { repeat constructor; unfold isByte; lia. }
  pose proof (receive_first_frame _ Hall) as [_ Hsame].
  split; [reflexivity|].
  apply Hsame; [|reflexivity].
  repeat constructor; unfold isByte; lia.
Defined.

(** X12.  A frame [_sendReceive] resolved with has exactly the length its
    header declares, so [decodeV5Frame] never rejects it for a payload
    length out of bounds: that check cannot fail on what the client
    receives. *)
Theorem receive_length_check (data : list Buffer) (frame : Buffer) :
  Forall isBuffer data ->
  resolved (receive data) = Some frame ->
  (exists payloadLen, readUInt16LE frame 1 = Ok payloadLen /\
                      Z.of_nat (length frame) = 13 + payloadLen) /\
  decodeV5Frame frame <> Throw V5PayloadLengthOutOfBounds.
Proof.
  intros Hall Hframe.
  destruct (receive_state data Hall) as [Hres _]. rewrite Hframe in Hres.
  assert (Hstream : isBuffer (concat data)).
  { unfold isBuffer. apply Forall_concat. exact Hall. }
  unfold firstFrame in Hres.
  destruct (readUInt16LE (concat data) 1) as [payloadLen|] eqn:Hlen; [|discriminate].
  pose proof (readUInt16LE_nonneg _ _ _ Hstream Hlen) as Hrange.
  destruct (Z.leb_spec (13 + payloadLen) (Z.of_nat (length (concat data)))); [|discriminate].
  injection Hres as Hres.
  assert (Hlength : Z.of_nat (length frame) = 13 + payloadLen).
  { rewrite Hres, length_take. lia. }
  assert (Hread : readUInt16LE frame 1 = Ok payloadLen).
  { rewrite <- Hlen, Hres. unfold readUInt16LE.
    rewrite !lookup_take_lt by lia. reflexivity. }
  split; [exists payloadLen; split; assumption|].
  unfold decodeV5Frame.
  destruct (negb (bool_decide (frame !! 0%nat = Some V5_START))); [discriminate|].
  destruct (negb (bool_decide (last frame = Some V5_END))); [discriminate|].
  destruct (readUInt16LE frame 3) as [ctrl|e] eqn:Hctrl.
  - rewrite bind_Ok. destruct (negb (ctrl =? V5_CTRL_RESPONSE)); [discriminate|].
    rewrite Hread, bind_Ok.
    destruct (Z.ltb_spec (Z.of_nat (length frame) - 2) (11 + payloadLen)); [lia|discriminate].
  - unfold readUInt16LE in Hctrl.
    destruct (frame !! 3%nat); [destruct (frame !! 4%nat)|]; try discriminate;
      injection Hctrl as <-; discriminate.
Qed.

Lemma receive_length_check_witness :
  decodeV5Frame [165; 1; 0; 16; 21; 0; 0; 0; 0; 0; 0; 0; 0; 7]
  <> Throw V5PayloadLengthOutOfBounds.
Proof.
  refine (proj2 (receive_length_check
                   [[165; 1]; [0; 16; 21; 0; 0; 0; 0; 0]; [0; 0; 0; 7; 21; 165; 9]]
                   [165; 1; 0; 16; 21; 0; 0; 0; 0; 0; 0; 0; 0; 7] _ _)); [|reflexivity].
  repeat constructor; unfold isByte; lia.
Defined.

(** ** Sequence numbers and requests of [_readRegisters] *)

Lemma land_ffff_mod (v : Z) : Z.land v 0xffff = v mod 65536.
Proof. apply (Z.land_ones v 16). lia. Qed.

Lemma prepareRequest_stamp (c : Client) (fc register count : Z) :
  inUInt16 register = true -> inUInt16 count = true ->
  let c2 := _nextSequence (match _transport c with tcp => _nextTxId c | rtu => c end) in
  exists v5Req,
    prepareRequest c fc register count = (Ok v5Req, c2) /\
    readUInt16LE v5Req 5 = Ok (_sequence c2).
Proof.
  intros Hr Hc c2. unfold prepareRequest, _buildModbusRequest.
  assert (Hseq : inUInt16 (_sequence c2) = true) by apply inUInt16_land.
  destruct (_transport c) eqn:Ht.
  - rewrite (buildModbusRtuFrame_eq _ fc _ _ Hr Hc).
    fold c2. rewrite encodeV5Frame_eq; [|cbn; lia|exact Hseq].
    eexists. split; [reflexivity|].
    unfold readUInt16LE.
    match goal with |- context [?l !! 5%nat] =>
      assert (l !! 5%nat = Some (Z.land (_sequence c2) 255)) as -> by reflexivity;
      assert (l !! 6%nat = Some (Z.shiftr (_sequence c2) 8)) as -> by reflexivity
    end.
    f_equal. apply split16.
  - rewrite (buildModbusTcpFrame_eq _ _ fc _ _ Hr Hc).
    fold c2. rewrite encodeV5Frame_eq; [|cbn; lia|exact Hseq].
    eexists. split; [reflexivity|].
    unfold readUInt16LE.
    match goal with |- context [?l !! 5%nat] =>
      assert (l !! 5%nat = Some (Z.land (_sequence c2) 255)) as -> by reflexivity;
      assert (l !! 6%nat = Some (Z.shiftr (_sequence c2) 8)) as -> by reflexivity
    end.
    f_equal. apply split16.
Qed.

Lemma _readRegisters_invariants (net : list Exchange) (c : Client) (fc register count : Z) :
  inUInt16 register = true -> inUInt16 count = true ->
  let o := _readRegisters net c fc register count in
  (1 <= length (handed o))%nat /\
  _sequence (clientAfter o) = (_sequence c + Z.of_nat (length (handed o))) mod 65536 /\
  (forall i req, handed o !! i = Some req ->
                 readUInt16LE req 5 = Ok ((_sequence c + 1 + Z.of_nat i) mod 65536)) /\
  loggerSerial (clientAfter o) = loggerSerial c /\
  slaveId (clientAfter o) = slaveId c /\
  exists consumed, net = consumed ++ unread o /\
                   (length consumed <= length (handed o))%nat.
Proof.
  intros Hr Hc. revert c.
  assert (Hone : forall (c : Client) v5Req,
             readUInt16LE v5Req 5 =
               Ok (_sequence (_nextSequence
                                (match _transport c with tcp => _nextTxId c | rtu => c end))) ->
             forall i req, [v5Req] !! i = Some req ->
                           readUInt16LE req 5 = Ok ((_sequence c + 1 + Z.of_nat i) mod 65536)).
  { intros c v5Req Hstamp [|i] req Hi; [|destruct i; discriminate].
    injection Hi as <-. rewrite Hstamp. f_equal.
    replace (_sequence c + 1 + Z.of_nat 0) with (_sequence c + 1) by lia.
    destruct (_transport c); cbn; apply land_ffff_mod. }
  assert (Hnext : forall c : Client,
             _sequence (_nextSequence
                          (match _transport c with tcp => _nextTxId c | rtu => c end))
             = (_sequence c + 1) mod 65536).
  { intros c. destruct (_transport c); cbn; apply land_ffff_mod. }
  assert (Hserial : forall c : Client,
             loggerSerial (_nextSequence
                          (match _transport c with tcp => _nextTxId c | rtu => c end))
             = loggerSerial c) by (intros c; destruct (_transport c); reflexivity).
  assert (Hslave : forall c : Client,
             slaveId (_nextSequence
                          (match _transport c with tcp => _nextTxId c | rtu => c end))
             = slaveId c) by (intros c; destruct (_transport c); reflexivity).
  induction net as [|[v5Resp|msg] net' IH]; intros c;
    destruct (prepareRequest_stamp c fc register count Hr Hc) as (v5Req & Hprep & Hstamp);
    cbn zeta in Hprep, Hstamp; cbn zeta; cbn [_readRegisters]; rewrite Hprep.
  - cbn [handed clientAfter unread length]. rewrite Hnext, Hserial, Hslave.
    repeat split; [lia|apply (Hone c v5Req Hstamp)|]. exists []. split; [reflexivity|cbn; lia].
  - set (c2 := _nextSequence (match _transport c with tcp => _nextTxId c | rtu => c end)) in *.
    destruct (decodeV5Frame v5Resp) as [adu|e].
    + destruct (parseRegistersAuto adu fc) as [values|e].
      * cbn [handed clientAfter unread length].
        assert (Hsame : forall b : bool,
                   _sequence (if b then setTransport tcp c2 else c2) = _sequence c2 /\
                   loggerSerial (if b then setTransport tcp c2 else c2) = loggerSerial c2 /\
                   slaveId (if b then setTransport tcp c2 else c2) = slaveId c2)
          by (intros []; repeat split).
        destruct (Hsame (isRtu c2 && looksLikeModbusTcp adu)) as (-> & -> & ->).
        unfold c2. rewrite Hnext, Hserial, Hslave.
        repeat split; [lia|apply (Hone c v5Req Hstamp)|].
        exists [Reply v5Resp]. split; [reflexivity|cbn; lia].
      * destruct (isRtu c2 && looksLikeModbusTcp adu).
        -- specialize (IH (setTransport tcp c2)). cbn zeta in IH.
           destruct IH as (Hlen & Hseq & Hstamps & Hser & Hsl & consumed & Hnet & Hcons).
           cbn [handed clientAfter unread length].
           rewrite Hseq, Hser, Hsl.
           change (_sequence (setTransport tcp c2)) with (_sequence c2).
           change (loggerSerial (setTransport tcp c2)) with (loggerSerial c2).
           change (slaveId (setTransport tcp c2)) with (slaveId c2).
           unfold c2. rewrite Hnext, Hserial, Hslave.
           repeat split; [lia| | |].
           ++ rewrite Z.add_mod_idemp_l by lia. f_equal. lia.
           ++ intros [|i] req Hi.
              ** injection Hi as <-. apply (Hone c v5Req Hstamp 0%nat). reflexivity.
              ** cbn in Hi. rewrite (Hstamps i req Hi).
                 change (_sequence (setTransport tcp c2)) with (_sequence c2).
                 unfold c2. rewrite Hnext.
                 rewrite <- Z.add_assoc, Z.add_mod_idemp_l by lia. do 2 f_equal. lia.
           ++ exists (Reply v5Resp :: consumed).
              split; [rewrite <- app_comm_cons; f_equal; exact Hnet|].
              cbn [length]. apply le_n_S. exact Hcons.
        -- cbn [handed clientAfter unread length]. unfold c2. rewrite Hnext, Hserial, Hslave.
           repeat split; [lia|apply (Hone c v5Req Hstamp)|].
           exists [Reply v5Resp]. split; [reflexivity|cbn; lia].
    + cbn [handed clientAfter unread length]. unfold c2. rewrite Hnext, Hserial, Hslave.
      repeat split; [lia|apply (Hone c v5Req Hstamp)|].
      exists [Reply v5Resp]. split; [reflexivity|cbn; lia].
  - cbn [handed clientAfter unread length]. rewrite Hnext, Hserial, Hslave.
    repeat split; [lia|apply (Hone c v5Req Hstamp)|].
    exists [Reject msg]. split; [reflexivity|cbn; lia].
Qed.

Lemma _readRegisters_retry (net : list Exchange) (c : Client) (fc register count : Z) :
  inUInt16 register = true -> inUInt16 count = true ->
  let o := _readRegisters net c fc register count in
  (length (handed o) <= 2)%nat /\
  (_transport c = tcp -> _transport (clientAfter o) = tcp) /\
  (length (handed o) = 2%nat -> _transport c = rtu /\ _transport (clientAfter o) = tcp).
Proof.
  intros Hr Hc o. subst o.
  destruct (_transport c) eqn:Ht.
  2: { destruct (_readRegisters_tcp net c fc register count Ht Hr Hc) as (Hafter & Hlen & _).
       rewrite Hlen. split; [lia|]. split; [intros _; assumption|discriminate]. }
  destruct (prepareRequest_Ok c fc register count Hr Hc) as (v5Req & Hprep).
  rewrite Ht in Hprep.
  destruct net as [|[v5Resp|msg] net']; cbn [_readRegisters]; rewrite Hprep.
  - cbn. split; [lia|]. split; discriminate.
  - destruct (decodeV5Frame v5Resp) as [adu|e].
    + destruct (parseRegistersAuto adu fc) as [values|e].
      * cbn. split; [lia|]. split; discriminate.
      * destruct (isRtu (_nextSequence c) && looksLikeModbusTcp adu).
        -- destruct (_readRegisters_tcp net' (setTransport tcp (_nextSequence c))
                                        fc register count eq_refl Hr Hc) as (Hafter & Hlen & _).
           cbn [handed clientAfter length]. rewrite Hlen.
           split; [lia|]. split; [discriminate|]. intros _. split; [reflexivity|exact Hafter].
        -- cbn. split; [lia|]. split; discriminate.
    + cbn. split; [lia|]. split; discriminate.
  - cbn. split; [lia|]. split; discriminate.
Qed.

(** X13.  A register read with 16-bit register and count hands one or two
    request frames to the logger, two only when it switches an RTU client
    to TCP.  Each frame carries the next sequence number modulo 2^16, so
    the client's sequence number advances by the number of frames handed
    over; the logger serial and slave id are unchanged, a client on TCP
    stays on TCP, and at most one scripted exchange is consumed per frame. *)
Theorem _readRegisters_accounting (net : list Exchange) (c : Client)
        (fc register count : Z) :
  inUInt16 register = true -> inUInt16 count = true ->
  let o := _readRegisters net c fc register count in
  (1 <= length (handed o) <= 2)%nat /\
  _sequence (clientAfter o) = (_sequence c + Z.of_nat (length (handed o))) mod 65536 /\
  (forall i req, handed o !! i = Some req ->
                 readUInt16LE req 5 = Ok ((_sequence c + 1 + Z.of_nat i) mod 65536)) /\
  loggerSerial (clientAfter o) = loggerSerial c /\
  slaveId (clientAfter o) = slaveId c /\
  (_transport c = tcp -> _transport (clientAfter o) = tcp) /\
  (length (handed o) = 2%nat -> _transport c = rtu /\ _transport (clientAfter o) = tcp) /\
  exists consumed, net = consumed ++ unread o /\
                   (length consumed <= length (handed o))%nat.
Proof.
  intros Hr Hc o.
  destruct (_readRegisters_invariants net c fc register count Hr Hc)
    as (Hmin & Hseq & Hstamps & Hserial & Hslave & Hnet).
  destruct (_readRegisters_retry net c fc register count Hr Hc) as (Hmax & Htcp & Htwo).
  repeat split; try assumption.
  - apply Htwo. assumption.
  - apply Htwo. assumption.
Qed.

Lemma _readRegisters_accounting_witness :
  let o := _readRegisters
             [Reply (v5ResponseFrame [1; 0; 110; 0; 60; 106] (2 :: 1 :: repeat 0 12)
                                     [0; 1; 0; 0; 0; 3; 1; 131; 2] 0);
              Reply (v5ResponseFrame [1; 0; 110; 0; 60; 106] (2 :: 1 :: repeat 0 12)
                                     [0; 2; 0; 0; 0; 5; 1; 3; 2; 18; 52] 0)]
             (mkClient 1782317166 1 65535 rtu 7) 3 59 1 in
  length (handed o) = 2%nat /\ _sequence (clientAfter o) = 1 /\
  _transport (clientAfter o) = tcp.
Proof.
  intros o.
  destruct (_readRegisters_accounting
              [Reply (v5ResponseFrame [1; 0; 110; 0; 60; 106] (2 :: 1 :: repeat 0 12)
                                      [0; 1; 0; 0; 0; 3; 1; 131; 2] 0);
               Reply (v5ResponseFrame [1; 0; 110; 0; 60; 106] (2 :: 1 :: repeat 0 12)
                                      [0; 2; 0; 0; 0; 5; 1; 3; 2; 18; 52] 0)]
              (mkClient 1782317166 1 65535 rtu 7) 3 59 1 eq_refl eq_refl)
    as (_ & Hseq & _ & _ & _ & _ & Htwo & _).
  fold o in Hseq, Htwo.
  assert (Hlen : length (handed o) = 2%nat) by (vm_compute; reflexivity).
  split; [exact Hlen|]. split; [|apply Htwo; exact Hlen].
  rewrite Hseq, Hlen. reflexivity.
Defined.

(** ** What a parsed response holds *)

Lemma readWords_Ok_inv (adu : Buffer) (n start : nat) (values : list Z) :
  readWords adu start n = Ok values ->
  length values = n /\
  (n = 0%nat \/ start + 2 * n <= length adu)%nat /\
  forall i v, values !! i = Some v -> readUInt16BE adu (start + 2 * i) = Ok v.
Proof.
  revert start values. induction n as [|n IH]; intros start values; cbn [readWords].
  - intros [= <-]. split; [reflexivity|]. split; [left; reflexivity|]. intros i v Hi. discriminate.
  - destruct (readUInt16BE adu start) as [v0|e] eqn:Hv0; [|discriminate].
    rewrite bind_Ok.
    destruct (readWords adu (S (S start)) n) as [vs|e] eqn:Hvs; [|discriminate].
    rewrite bind_Ok. intros [= <-].
    destruct (IH _ _ Hvs) as (Hlen & Hfit & Hat).
    split; [cbn; congruence|]. split.
    + right. destruct Hfit as [->|Hfit]; [|lia].
      unfold readUInt16BE in Hv0.
      destruct (adu !! start) eqn:H0; [|discriminate].
      destruct (adu !! S start) eqn:H1; [|discriminate].
      apply lookup_lt_Some in H1. lia.
    + intros [|i] v Hi.
      * injection Hi as <-. rewrite Nat.add_0_r. exact Hv0.
      * cbn in Hi. rewrite <- (Hat i v Hi). f_equal. lia.
Qed.

Lemma readUInt16BE_range (buf : Buffer) (off : nat) (v : Z) :
  isBuffer buf -> readUInt16BE buf off = Ok v -> inUInt16 v = true.
Proof.
  intros Hbuf. unfold readUInt16BE.
  destruct (buf !! off) as [hi|] eqn:Hhi; [|discriminate].
  destruct (buf !! S off) as [lo|] eqn:Hlo; [|discriminate].
  intros [= <-].
  pose proof (proj1 (Forall_lookup _ _) Hbuf _ _ Hhi) as H1.
  pose proof (proj1 (Forall_lookup _ _) Hbuf _ _ Hlo) as H2.
  apply inUInt16_iff. unfold isByte in *. lia.
Qed.

(** X14.  Whatever [parseRegistersAuto] returns was read from the ADU: the
    function-code byte (offset 7 for a TCP-shaped ADU, 1 otherwise) equals
    the expected code and has bit 7 clear, the number of values is
    (byteCount + 1) / 2 for the ADU's own byte-count byte (the requested
    count plays no part), value i is the big-endian word at offset
    base + 2i (base 9 or 3), all inside the ADU, and each value is a
    16-bit unsigned number. *)
Theorem parseRegistersAuto_Ok (adu : Buffer) (expectedFc : Z) (values : list Z) :
  isBuffer adu ->
  parseRegistersAuto adu expectedFc = Ok values ->
  let base := if looksLikeModbusTcp adu then 9%nat else 3%nat in
  adu !! (base - 2)%nat = Some expectedFc /\
  isExceptionFc expectedFc = false /\
  (exists byteCount, adu !! (base - 1)%nat = Some byteCount /\
                     length values = wordCount byteCount) /\
  (values = [] \/ base + 2 * length values <= length adu)%nat /\
  (forall i v, values !! i = Some v -> readUInt16BE adu (base + 2 * i) = Ok v) /\
  Forall (fun v => inUInt16 v = true) values.
Proof.
  intros Hbuf. unfold parseRegistersAuto.
  assert (Hfinish : forall (base : nat) fc byteCount,
             adu !! (base - 2)%nat = Some fc -> adu !! (base - 1)%nat = Some byteCount ->
             (if isExceptionFc fc then Throw (ModbusRtuException byteCount)
              else if negb (fc =? expectedFc)
                   then Throw (UnexpectedModbusRtuFc expectedFc fc)
                   else readWords adu base (wordCount byteCount)) = Ok values \/
             (if isExceptionFc fc then Throw (ModbusTcpException byteCount)
              else if negb (fc =? expectedFc)
                   then Throw (UnexpectedModbusTcpFc expectedFc fc)
                   else readWords adu base (wordCount byteCount)) = Ok values ->
             adu !! (base - 2)%nat = Some expectedFc /\
             isExceptionFc expectedFc = false /\
             (exists byteCount, adu !! (base - 1)%nat = Some byteCount /\
                                length values = wordCount byteCount) /\
             (values = [] \/ base + 2 * length values <= length adu)%nat /\
             (forall i v, values !! i = Some v -> readUInt16BE adu (base + 2 * i) = Ok v) /\
             Forall (fun v => inUInt16 v = true) values).
  { intros base fc byteCount Hfc Hcount Hparse.
    destruct (isExceptionFc fc) eqn:Hexc; [destruct Hparse; discriminate|].
    destruct (Z.eqb_spec fc expectedFc) as [->|]; [|destruct Hparse; discriminate].
    cbn [negb] in Hparse.
    assert (Hwords : readWords adu base (wordCount byteCount) = Ok values) by tauto.
    destruct (readWords_Ok_inv _ _ _ _ Hwords) as (Hlen & Hfit & Hat).
    split; [assumption|]. split; [assumption|].
    split; [exists byteCount; split; [assumption|exact Hlen]|].
    split.
    - destruct Hfit as [Hzero|Hfit]; [left|right; lia].
      rewrite Hzero in Hlen. destruct values; [reflexivity|discriminate].
    - split; [exact Hat|].
      apply Forall_lookup. intros i v Hi.
      apply (readUInt16BE_range adu (base + 2 * i)); [assumption|apply Hat; assumption]. }
  destruct (looksLikeModbusTcp adu).
  - unfold parseTcpPath.
    destruct (adu !! 7%nat) as [fc|] eqn:Hfc; [|discriminate].
    destruct (adu !! 8%nat) as [byteCount|] eqn:Hcount; [|discriminate].
    intros Hparse. apply (Hfinish 9%nat fc byteCount Hfc Hcount). right. exact Hparse.
  - unfold parseRtuPath. destruct (decide (length adu < 5)%nat); [discriminate|].
    destruct (adu !! 1%nat) as [fc|] eqn:Hfc; [|discriminate].
    destruct (adu !! 2%nat) as [byteCount|] eqn:Hcount; [|discriminate].
    intros Hparse. apply (Hfinish 3%nat fc byteCount Hfc Hcount). left. exact Hparse.
Qed.

Lemma parseRegistersAuto_Ok_witness :
  Forall (fun v => inUInt16 v = true) [4660; 7].
Proof.
  refine (proj2 (proj2 (proj2 (proj2 (proj2
            (parseRegistersAuto_Ok [1; 3; 4; 18; 52; 0; 7; 99; 98] 3 [4660; 7] _ _)))))).
  - repeat constructor; unfold isByte; lia.
  - reflexivity.
Defined.

(** ** [writeSingleRegister] *)

Lemma prepareRequest_Throw (c : Client) (fc register count : Z) :
  inUInt16 register = false \/ inUInt16 count = false ->
  fst (prepareRequest c fc register count) = Throw RangeError /\
  _sequence (snd (prepareRequest c fc register count)) = _sequence c /\
  _transport (snd (prepareRequest c fc register count)) = _transport c.
Proof.
  intros H. unfold prepareRequest, _buildModbusRequest.
  destruct (_transport c) eqn:Ht.
  - rewrite (buildModbusRtuFrame_Throw _ fc _ _ H). cbn. auto.
  - rewrite (buildModbusTcpFrame_Throw _ _ fc _ _ H). cbn. auto.
Qed.

(** X15.  [writeSingleRegister] sends exactly one request when register
    and value are 16-bit unsigned, and none (a range error, the sequence
    number untouched) otherwise.  Unlike a read it never changes the
    transport mode, whatever the shape of the answer, and it accepts the
    answer exactly when its function-code byte (offset 7 if TCP-shaped,
    else 1) is 6: the echoed register and value are not compared with
    what was written. *)
Theorem writeSingleRegister_outcome (net : list Exchange) (c : Client) (register value : Z) :
  let o := writeSingleRegister net c register value in
  _transport (writeClientAfter o) = _transport c /\
  if inUInt16 register && inUInt16 value then
    length (writeHanded o) = 1%nat /\
    _sequence (writeClientAfter o) = (_sequence c + 1) mod 65536 /\
    forall v5Resp net' adu,
      net = Reply v5Resp :: net' -> decodeV5Frame v5Resp = Ok adu ->
      writeUnread o = net' /\
      (thrown o = None <->
       adu !! (if looksLikeModbusTcp adu then 7%nat else 1%nat)
         = Some MODBUS_FC_WRITE_SINGLE)
  else
    thrown o = Some (Thrown RangeError) /\ writeHanded o = [] /\
    writeUnread o = net /\ _sequence (writeClientAfter o) = _sequence c.
Proof.
  intros o. subst o. unfold writeSingleRegister.
  destruct (inUInt16 register && inUInt16 value) eqn:Hrange.
  - apply andb_true_iff in Hrange as [Hr Hv].
    destruct (prepareRequest_stamp c MODBUS_FC_WRITE_SINGLE register value Hr Hv)
      as (v5Req & Hprep & _). cbn zeta in Hprep. rewrite Hprep.
    assert (Ht : _transport (_nextSequence
                               match _transport c with rtu => c | tcp => _nextTxId c end)
                 = _transport c) by (destruct (_transport c) eqn:E; cbn; rewrite ?E; reflexivity).
    assert (Hs : _sequence (_nextSequence
                               match _transport c with rtu => c | tcp => _nextTxId c end)
                 = (_sequence c + 1) mod 65536)
      by (destruct (_transport c); cbn; apply land_ffff_mod).
    destruct net as [|[v5Resp|msg] net'].
    + cbn [writeClientAfter writeHanded writeUnread thrown length].
      split; [exact Ht|]. split; [reflexivity|]. split; [exact Hs|]. discriminate.
    + destruct (decodeV5Frame v5Resp) as [adu|e] eqn:Hdec;
        cbn [writeClientAfter writeHanded writeUnread thrown length];
        (split; [exact Ht|]; split; [reflexivity|]; split; [exact Hs|]);
        intros v5Resp' net'' adu' [= <- <-] Hdec'; rewrite Hdec in Hdec'; [|discriminate].
      injection Hdec' as <-. split; [reflexivity|].
      unfold checkWriteResponse.
      destruct (looksLikeModbusTcp adu).
      * destruct (adu !! 7%nat) as [fc|]; [|split; discriminate].
        split.
        -- destruct (isExceptionFc fc); [discriminate|].
           destruct (Z.eqb_spec fc MODBUS_FC_WRITE_SINGLE); [congruence|discriminate].
        -- intros [= ->]. reflexivity.
      * destruct (adu !! 1%nat) as [fc|]; [|split; discriminate].
        split.
        -- destruct (isExceptionFc fc); [discriminate|].
           destruct (Z.eqb_spec fc MODBUS_FC_WRITE_SINGLE); [congruence|discriminate].
        -- intros [= ->]. reflexivity.
    + cbn [writeClientAfter writeHanded writeUnread thrown length].
      split; [exact Ht|]. split; [reflexivity|]. split; [exact Hs|]. discriminate.
  - apply andb_false_iff in Hrange.
    destruct (prepareRequest_Throw c MODBUS_FC_WRITE_SINGLE register value Hrange)
      as (Hfst & Hseq & Ht).
    destruct (prepareRequest c MODBUS_FC_WRITE_SINGLE register value) as [r c2].
    cbn [fst snd] in *. subst r. cbn. auto.
Qed.

(** ** The plan of [buildReadRequests]: tight and minimal *)

Lemma groupByFc_snoc (definitions : list RegisterDefinition) (def : RegisterDefinition) :
  groupByFc (definitions ++ [def]) = collect (groupByFc definitions) def.
Proof. unfold groupByFc. rewrite fold_left_app. reflexivity. Qed.

(** Every address of a set of [byFc] was put there by a definition of
    that function code. *)
Lemma groupByFc_sound (definitions : list RegisterDefinition) :
  NoDup (groupByFc definitions).*1 /\
  forall fc s, mapGet (groupByFc definitions) fc = Some s ->
    NoDup s /\
    forall a, a ∈ s ->
      exists def, def ∈ definitions /\ fcOf def = fc /\ a ∈ registers def.
Proof.
  induction definitions as [|def definitions IH] using rev_ind.
  - split; [constructor|]. intros fc s Hget. discriminate.
  - destruct IH as [Hnd IH]. rewrite groupByFc_snoc.
    destruct (collect_spec (groupByFc definitions) def Hnd) as [Hnd' Hget'].
    split; [exact Hnd'|]. intros fc s. rewrite Hget'.
    destruct (decide (fc = fcOf def)) as [->|Hne].
    + intros [= <-].
      assert (Hold : NoDup (default [] (mapGet (groupByFc definitions) (fcOf def))) /\
                     forall a, a ∈ default [] (mapGet (groupByFc definitions) (fcOf def)) ->
                               exists def0, def0 ∈ definitions /\ fcOf def0 = fcOf def /\
                                            a ∈ registers def0).
      { destruct (mapGet (groupByFc definitions) (fcOf def)) as [s0|] eqn:Hs0; cbn [default].
        - exact (IH _ _ Hs0).
        - split; [constructor|]. intros a Ha. inversion Ha. }
      destruct Hold as [Hnd0 Hold].
      destruct (fold_setAdd (registers def) _ Hnd0) as (Hnds & Hmem & _).
      split; [exact Hnds|]. intros a Ha. apply Hmem in Ha as [Ha|Ha].
      * destruct (Hold a Ha) as (def0 & Hin & Hfc & Hreg).
        exists def0. split; [apply elem_of_app; left; exact Hin|]. split; assumption.
      * exists def. split; [apply elem_of_app; right; left|]. split; [reflexivity|exact Ha].
    + intros Hget. destruct (IH _ _ Hget) as [Hnds Hsound]. split; [exact Hnds|].
      intros a Ha. destruct (Hsound a Ha) as (def0 & Hin & Hfc & Hreg).
      exists def0. split; [apply elem_of_app; left; exact Hin|]. split; assumption.
Qed.

Lemma mergeLoop_endpoints (fc maxCount : Z) (rest : list Z) (start end_ : Z) :
  Forall (fun r => exists s c, r = Req fc s c /\
                               s ∈ start :: rest /\ s + c - 1 ∈ end_ :: rest)
         (mergeLoop fc maxCount start end_ rest).
Proof.
  revert start end_. induction rest as [|addr rest IH]; intros start end_; cbn [mergeLoop].
  - apply Forall_singleton. exists start, (end_ - start + 1).
    split; [reflexivity|]. split; [left|].
    replace (start + (end_ - start + 1) - 1) with end_ by lia. left.
  - destruct (addr - start <? maxCount).
    + eapply Forall_impl; [apply IH|]. intros r (s & c & -> & Hs & He). exists s, c.
      split; [reflexivity|]. split.
      * apply elem_of_cons in Hs as [->|Hs]; [left|right; right; exact Hs].
      * right. exact He.
    + apply Forall_cons. split.
      * exists start, (end_ - start + 1). split; [reflexivity|]. split; [left|].
        replace (start + (end_ - start + 1) - 1) with end_ by lia. left.
      * eapply Forall_impl; [apply IH|]. intros r (s & c & -> & Hs & He). exists s, c.
        split; [reflexivity|]. split; right; assumption.
Qed.

(** Two requests of one function code whose starts are at least
    [maxCount] apart, the first one first. *)
Lemma mergeLoop_gaps (fc maxCount : Z) (rest : list Z) (start end_ : Z) :
  StronglySorted Z.lt rest ->
  StronglySorted
    (fun r1 r2 => exists s1 c1 s2 c2,
                    r1 = Req fc s1 c1 /\ r2 = Req fc s2 c2 /\ maxCount <= s2 - s1)
    (mergeLoop fc maxCount start end_ rest).
Proof.
  revert start end_. induction rest as [|addr rest IH]; intros start end_ Hsorted;
    cbn [mergeLoop].
  - repeat constructor.
  - apply StronglySorted_inv in Hsorted as [Hsorted Hlt].
    destruct (Z.ltb_spec (addr - start) maxCount) as [|Hfar].
    + apply IH. exact Hsorted.
    + constructor; [apply IH; exact Hsorted|].
      eapply Forall_impl; [apply (mergeLoop_endpoints fc maxCount rest addr addr)|].
      intros r (s & c & -> & Hs & _). exists start, (end_ - start + 1), s, c.
      split; [reflexivity|]. split; [reflexivity|].
      apply elem_of_cons in Hs as [->|Hs]; [lia|].
      pose proof (proj1 (Forall_forall _ _) Hlt s Hs). lia.
Qed.

(** A counting argument: when every anchor needs a box of its own, there
    are at least as many boxes as anchors. *)
Lemma boxes_for_anchors {A B : Type} (P : A -> B -> Prop) (anchors : list A) :
  StronglySorted (fun a1 a2 => forall b, P a1 b -> P a2 b -> False) anchors ->
  forall boxes : list B,
    (forall a, a ∈ anchors -> exists b, b ∈ boxes /\ P a b) ->
    (length anchors <= length boxes)%nat.
Proof.
  induction 1 as [|a anchors Hsorted IH Hapart]; intros boxes Hcover; [cbn; lia|].
  destruct (Hcover a ltac:(left)) as (b & Hb & Hab).
  apply list_elem_of_split in Hb as (boxes1 & boxes2 & ->).
  rewrite length_app. cbn [length].
  assert (length anchors <= length (boxes1 ++ boxes2))%nat as Hle.
  { apply IH. intros a' Ha'.
    destruct (Hcover a' ltac:(right; exact Ha')) as (b' & Hb' & Hab').
    exists b'. split; [|exact Hab'].
    apply elem_of_app in Hb' as [Hb'|Hb']; [apply elem_of_app; left; exact Hb'|].
    apply elem_of_cons in Hb' as [->|Hb']; [|apply elem_of_app; right; exact Hb'].
    exfalso. exact (proj1 (Forall_forall _ _) Hapart a' Ha' b Hab Hab'). }
  rewrite length_app in Hle. lia.
Qed.

Lemma StronglySorted_impl {A : Type} (R1 R2 : A -> A -> Prop) (l : list A) :
  (forall x y, R1 x y -> R2 x y) -> StronglySorted R1 l -> StronglySorted R2 l.
Proof.
  intros Himpl. induction 1 as [|x l Hsorted IH Hall]; constructor; [exact IH|].
  eapply Forall_impl; [exact Hall|]. intros y. apply Himpl.
Qed.

(** The first and the last address of a planned range. *)
Lemma planned_endpoints (definitions : list RegisterDefinition)
        (maxCount fc start count : Z) :
  Req fc start count ∈ buildReadRequests definitions maxCount ->
  (exists def, def ∈ definitions /\ fcOf def = fc /\ start ∈ registers def) /\
  (exists def, def ∈ definitions /\ fcOf def = fc /\ start + count - 1 ∈ registers def).
Proof.
  unfold buildReadRequests. intros Hin.
  apply list_elem_of_In, in_flat_map in Hin as ([fc0 s] & Hentry & Hin).
  apply list_elem_of_In in Hentry, Hin. cbn [fst snd] in Hin.
  destruct (groupByFc_sound definitions) as [Hnd Hsound].
  pose proof (mapGet_elem_of _ _ _ Hnd Hentry) as Hget.
  destruct (Hsound _ _ Hget) as [_ Hfrom].
  assert (Hmem : forall a, a ∈ sortAscending s -> a ∈ s).
  { intros a. unfold sortAscending. rewrite merge_sort_Permutation. auto. }
  unfold mergeRanges in Hin.
  destruct (sortAscending s) as [|first rest]; [apply list_elem_of_singleton in Hin; discriminate|].
  pose proof (proj1 (Forall_forall _ _) (mergeLoop_endpoints fc0 maxCount rest first first)
                    _ Hin) as (s0 & c0 & [= -> -> ->] & Hs & He).
  split; apply Hfrom, Hmem; assumption.
Qed.

(** X16.  Every request planned by [buildReadRequests] starts at an
    address and ends at an address that some definition of the request's
    function code lists: the plan reads no register before the first or
    after the last one asked for in a range. *)
Theorem buildReadRequests_tight (definitions : list RegisterDefinition)
        (maxCount fc start count : Z) :
  Req fc start count ∈ buildReadRequests definitions maxCount ->
  (exists def, def ∈ definitions /\ fcOf def = fc /\ start ∈ registers def) /\
  (exists def, def ∈ definitions /\ fcOf def = fc /\ start + count - 1 ∈ registers def).
Proof. exact (planned_endpoints definitions maxCount fc start count). Qed.

Lemma buildReadRequests_tight_witness :
  exists def, def ∈ DEYE_STRING_4MPPT /\ fcOf def = 3 /\ 3 + 88 - 1 ∈ registers def.
Proof.
  refine (proj2 (buildReadRequests_tight DEYE_STRING_4MPPT 100 3 3 88 _)).
  vm_compute. left.
Defined.

Lemma planned_requests_defined (definitions : list RegisterDefinition) (maxCount : Z)
      (r : ReadRequest) :
  (forall def, def ∈ definitions -> registers def <> []) ->
  r ∈ buildReadRequests definitions maxCount ->
  exists fc start count, r = Req fc start count.
Proof.
  intros Hne. unfold buildReadRequests. intros Hin.
  apply list_elem_of_In, in_flat_map in Hin as ([fc0 s] & Hentry & Hin).
  apply list_elem_of_In in Hentry, Hin. cbn [fst snd] in Hin.
  destruct (groupByFc_spec definitions Hne) as (Hnd & Hsets & _).
  pose proof (mapGet_elem_of _ _ _ Hnd Hentry) as Hget.
  destruct (Hsets _ _ Hget) as [Hnds Hnonempty].
  destruct (sortAscending_spec s Hnds) as (_ & _ & Hsorted).
  specialize (Hsorted Hnonempty). unfold mergeRanges in Hin.
  destruct (sortAscending s) as [|first rest]; [congruence|].
  pose proof (proj1 (Forall_forall _ _) (mergeLoop_endpoints fc0 maxCount rest first first)
                    _ Hin) as (s0 & c0 & -> & _).
  eauto.
Qed.

(** No request of at most [maxCount] registers covers the starts of two
    planned requests. *)
Lemma planned_starts_apart (maxCount : Z) (byFc : list (Z * list Z)) :
  NoDup byFc.*1 ->
  Forall (fun entry => NoDup (snd entry)) byFc ->
  StronglySorted
    (fun g1 g2 =>
       forall b fc1 s1 c1 fc2 s2 c2,
         g1 = Req fc1 s1 c1 -> g2 = Req fc2 s2 c2 ->
         match b with Req _ _ c => c <= maxCount | ReqUndefined _ => True end ->
         covers fc1 s1 b = true -> covers fc2 s2 b = true -> False)
    (flat_map (fun entry => mergeRanges (fst entry) maxCount (sortAscending (snd entry)))
              byFc).
Proof.
  induction byFc as [|[fc s] byFc IH]; intros Hkeys Hsets; cbn [flat_map fst snd].
  - constructor.
  - cbn [fmap list_fmap fst] in Hkeys. apply NoDup_cons in Hkeys as [Hfresh Hkeys].
    apply Forall_cons in Hsets as [Hs Hsets]. cbn [snd] in Hs.
    apply StronglySorted_app_2; [| |apply IH; assumption].
    + intros g1 g2 Hg1 Hg2 b fc1 s1 c1 fc2 s2 c2 -> -> _ Hc1 Hc2.
      apply covers_requestFc in Hc1, Hc2.
      pose proof (proj1 (Forall_forall _ _) (mergeRanges_fc fc maxCount (sortAscending s))
                        _ Hg1) as Hfc1.
      apply list_elem_of_In, in_flat_map in Hg2 as ([fc' s'] & Hentry & Hg2).
      apply list_elem_of_In in Hentry, Hg2. cbn [fst snd] in Hg2.
      pose proof (proj1 (Forall_forall _ _) (mergeRanges_fc fc' maxCount (sortAscending s'))
                        _ Hg2) as Hfc2.
      cbn [requestFc] in Hfc1, Hfc2.
      apply Hfresh. apply list_elem_of_fmap. exists (fc', s'). split; [|exact Hentry].
      cbn [fst]. congruence.
    + destruct (sortAscending_spec s Hs) as (Hsorted & _ & _).
      unfold mergeRanges. destruct (sortAscending s) as [|first rest].
      * repeat constructor.
      * apply StronglySorted_inv in Hsorted as [Hsorted _].
        eapply StronglySorted_impl; [|apply (mergeLoop_gaps fc maxCount rest first first Hsorted)].
        intros g1 g2 (s1 & c1 & s2 & c2 & -> & -> & Hfar)
               b fc1 s1' c1' fc2 s2' c2' [= <- <- <-] [= <- <- <-] Hb Hc1 Hc2.
        destruct b as [fcb t cb|]; [|discriminate]. cbn [covers] in Hc1, Hc2.
        apply andb_true_iff in Hc1 as [Hc1 Hhi1]. apply andb_true_iff in Hc1 as [_ Hlo1].
        apply andb_true_iff in Hc2 as [Hc2 Hhi2]. apply andb_true_iff in Hc2 as [_ Hlo2].
        apply Z.leb_le in Hhi1, Hlo1, Hhi2, Hlo2. lia.
Qed.

(** X17.  The plan of [buildReadRequests] is minimal: for definitions
    that each list a register, any list of requests of at most
    [maxCount] registers each that covers every address of every
    definition under its function code has at least as many requests. *)
Theorem buildReadRequests_minimal (definitions : list RegisterDefinition)
        (maxCount : Z) (plan : list ReadRequest) :
  (forall def, def ∈ definitions -> registers def <> []) ->
  Forall (fun r => match r with Req _ _ c => c <= maxCount | ReqUndefined _ => True end)
         plan ->
  (forall def a, def ∈ definitions -> a ∈ registers def ->
                 exists r, r ∈ plan /\ covers (fcOf def) a r = true) ->
  (length (buildReadRequests definitions maxCount) <= length plan)%nat.
Proof.
  intros Hne Hbound Hcover.
  apply (boxes_for_anchors
           (fun g b =>
              match b with Req _ _ c => c <= maxCount | ReqUndefined _ => True end /\
              match g with
              | Req fc s _ => covers fc s b = true
              | ReqUndefined _ => False
              end)).
  - destruct (groupByFc_sound definitions) as [Hkeys Hsound].
    eapply StronglySorted_impl;
      [|apply (planned_starts_apart maxCount (groupByFc definitions) Hkeys)].
    + intros g1 g2 Hapart b [Hb H1] [_ H2].
      destruct g1 as [fc1 s1 c1|]; [|contradiction].
      destruct g2 as [fc2 s2 c2|]; [|contradiction].
      exact (Hapart b _ _ _ _ _ _ eq_refl eq_refl Hb H1 H2).
    + apply Forall_forall. intros [fc s] Hentry. cbn [snd].
      exact (proj1 (Hsound _ _ (mapGet_elem_of _ _ _ Hkeys Hentry))).
  - intros g Hg.
    destruct (planned_requests_defined definitions maxCount g Hne Hg) as (fc & s & c & ->).
    destruct (planned_endpoints definitions maxCount fc s c Hg) as [(def & Hdef & <- & Hs) _].
    destruct (Hcover def s Hdef Hs) as (b & Hb & Hcov).
    exists b. split; [exact Hb|]. split; [|exact Hcov].
    exact (proj1 (Forall_forall _ _) Hbound b Hb).
Qed.

Lemma buildReadRequests_minimal_witness :
  (length (buildReadRequests DEYE_STRING_4MPPT 100) <= length [Req 3 0 100; Req 3 100 100])%nat.
Proof.
  apply (buildReadRequests_minimal DEYE_STRING_4MPPT 100 [Req 3 0 100; Req 3 100 100]).
  - assert (Hchk : forallb (fun def => negb (Nat.eqb (length (registers def)) 0))
                           DEYE_STRING_4MPPT = true) by (vm_compute; reflexivity).
    intros def Hdef%list_elem_of_In Hnil.
    rewrite forallb_forall in Hchk. specialize (Hchk def Hdef).
    rewrite Hnil in Hchk. discriminate.
  - apply Forall_cons; split; [cbn; lia|]. apply Forall_cons; split; [cbn; lia|].
    apply Forall_nil_2.
  - assert (Hchk : forallb (fun def =>
                              forallb (fun a => existsb (covers (fcOf def) a)
                                                        [Req 3 0 100; Req 3 100 100])
                                      (registers def))
                           DEYE_STRING_4MPPT = true) by (vm_compute; reflexivity).
    intros def a Hdef%list_elem_of_In Ha%list_elem_of_In.
    rewrite forallb_forall in Hchk. specialize (Hchk def Hdef).
    rewrite forallb_forall in Hchk. specialize (Hchk a Ha).
    apply existsb_exists in Hchk as (r & Hr%list_elem_of_In & Hc).
    exists r. split; assumption.
Defined.

(** ** [fetchRegisters] and [readAll] *)

Lemma setValues_outside (values : list Z) (map : gmap Z Z) (start a : Z) :
  a < start \/ start + Z.of_nat (length values) <= a ->
  setValues map start values !! a = map !! a.
Proof.
  revert map start. induction values as [|v values IH]; intros map start Ha; [reflexivity|].
  cbn [setValues]. cbn [length] in Ha. rewrite IH by lia.
  apply lookup_insert_ne. lia.
Qed.

Lemma setValues_inside (values : list Z) (map : gmap Z Z) (start : Z) (i : nat) (v : Z) :
  values !! i = Some v ->
  setValues map start values !! (start + Z.of_nat i) = Some v.
Proof.
  revert map start i. induction values as [|v0 values IH]; intros map start i Hi; [discriminate|].
  cbn [setValues]. destruct i as [|i].
  - injection Hi as ->. rewrite setValues_outside by lia.
    rewrite Z.add_0_r. apply lookup_insert_eq.
  - cbn in Hi. replace (start + Z.of_nat (S i)) with (start + 1 + Z.of_nat i) by lia.
    apply IH. exact Hi.
Qed.

Lemma setValues_lookup (values : list Z) (map : gmap Z Z) (start a : Z) :
  setValues map start values !! a =
    if (start <=? a) && (a <? start + Z.of_nat (length values))
    then values !! Z.to_nat (a - start)
    else map !! a.
Proof.
  destruct (Z.leb_spec start a) as [Hlo|Hlo]; cbn [andb].
  - destruct (Z.ltb_spec a (start + Z.of_nat (length values))) as [Hhi|Hhi].
    + destruct (lookup_lt_is_Some_2 values (Z.to_nat (a - start)) ltac:(lia)) as [v Hv].
      rewrite Hv. replace a with (start + Z.of_nat (Z.to_nat (a - start))) at 1 by lia.
      apply setValues_inside. exact Hv.
    + apply setValues_outside. lia.
  - apply setValues_outside. lia.
Qed.

(** [decodeRegister] reads the map at the definition's own addresses only. *)
Lemma decodeRegister_local (def : RegisterDefinition) (map1 map2 : gmap Z Z) :
  (forall a, a ∈ registers def -> map1 !! a = map2 !! a) ->
  decodeRegister def map1 = decodeRegister def map2.
Proof.
  intros Hsame. unfold decodeRegister.
  assert (Hhas : forall regs, (forall a, a ∈ regs -> map1 !! a = map2 !! a) ->
                              forallb (has map1) regs = forallb (has map2) regs).
  { induction regs as [|a regs IH]; intros H; [reflexivity|]. cbn [forallb].
    rewrite IH by (intros; apply H; right; assumption).
    unfold has. rewrite (H a) by left. reflexivity. }
  assert (Hacc : forall regs, (forall a, a ∈ regs -> map1 !! a = map2 !! a) ->
                              forall i raw, accumulate map1 regs i raw = accumulate map2 regs i raw).
  { induction regs as [|a regs IH]; intros H i raw; [reflexivity|]. cbn [accumulate].
    unfold word. rewrite (H a) by left. apply IH. intros; apply H; right; assumption. }
  assert (Hmap : forall (f : Z -> string) regs,
             (forall a, a ∈ regs -> map1 !! a = map2 !! a) ->
             map (fun a => f (get map1 a)) regs = map (fun a => f (get map2 a)) regs).
  { intros f. induction regs as [|a regs IH]; intros H; [reflexivity|]. cbn [map].
    unfold get at 1 3. rewrite (H a) by left. f_equal. apply IH.
    intros; apply H; right; assumption. }
  rewrite (Hhas _ Hsame), !(Hacc _ Hsame).
  rewrite (Hmap registerChars _ Hsame).
  rewrite (Hmap (fun r => ("0x" ++ padStart4 (hex r))%string) _ Hsame).
  rewrite (Hmap nibbles _ Hsame).
  reflexivity.
Qed.

Lemma snapshot_local (definitions : list RegisterDefinition) (map1 map2 : gmap Z Z) :
  (forall def a, def ∈ definitions -> a ∈ registers def -> map1 !! a = map2 !! a) ->
  snapshot definitions map1 = snapshot definitions map2.
Proof.
  unfold snapshot. generalize (∅ : gmap string Value).
  induction definitions as [|def definitions IH]; intros result Hsame; [reflexivity|].
  cbn [fold_left].
  rewrite (decodeRegister_local def map1 map2) by (intros a Ha; apply (Hsame def); [left|exact Ha]).
  apply IH. intros def' a Hdef'. apply Hsame. right. exact Hdef'.
Qed.

Lemma snapshot_snoc (definitions : list RegisterDefinition) (def : RegisterDefinition)
      (registerMap : gmap Z Z) :
  snapshot (definitions ++ [def]) registerMap
  = <[name def := decodeRegister def registerMap]> (snapshot definitions registerMap).
Proof. unfold snapshot. rewrite fold_left_app. reflexivity. Qed.

(** The last definition of a name decides the entry of that name. *)
Lemma snapshot_lookup (definitions : list RegisterDefinition) (registerMap : gmap Z Z)
      (n : string) :
  snapshot definitions registerMap !! n =
    (fun def => decodeRegister def registerMap)
      <$> last (filter (fun def => name def = n) definitions).
Proof.
  induction definitions as [|def definitions IH] using rev_ind; [reflexivity|].
  rewrite snapshot_snoc, filter_app, filter_cons, filter_nil.
  destruct (decide (name def = n)) as [<-|Hne].
  - rewrite lookup_insert_eq, last_snoc. reflexivity.
  - rewrite lookup_insert_ne by exact Hne. rewrite app_nil_r. exact IH.
Qed.

(** A read answered with an RTU read response of at least one word. *)
Lemma _readRegisters_rtu_answer (net' : list Exchange) (c : Client)
      (fc register count : Z) (header prefix : Buffer) (unit crcLo crcHi ck : Z)
      (registerValues : list Z) :
  inUInt16 register = true -> inUInt16 count = true ->
  0 <= fc < 128 ->
  Forall (fun v => inUInt16 v = true) registerValues -> registerValues <> [] ->
  length header = 6%nat -> length prefix = 14%nat ->
  let o := _readRegisters
             (Reply (v5ResponseFrame header prefix
                       ([unit; fc; 2 * Z.of_nat (length registerValues)]
                          ++ wordsBE registerValues ++ [crcLo; crcHi]) ck) :: net')
             c fc register count in
  returned o = Ok registerValues /\ unread o = net' /\
  _transport (clientAfter o) = _transport c /\ length (handed o) = 1%nat.
Proof.
  intros Hr Hc Hfc Hall Hne Hh Hp.
  destruct (prepareRequest_Ok c fc register count Hr Hc) as (v5Req & Hprep).
  cbn zeta. cbn [_readRegisters]. rewrite Hprep.
  rewrite (decodeV5Frame_response header prefix _ ck Hh Hp).
  set (c2 := _nextSequence match _transport c with rtu => c | tcp => _nextTxId c end).
  assert (Ht : _transport c2 = _transport c)
    by (unfold c2; destruct (_transport c) eqn:E; cbn; rewrite ?E; reflexivity).
  assert (Hadu : exists tail,
             stripZeroPair ([unit; fc; 2 * Z.of_nat (length registerValues)]
                              ++ wordsBE registerValues ++ [crcLo; crcHi])
             = [unit; fc; 2 * Z.of_nat (length registerValues)] ++ wordsBE registerValues ++ tail).
  { rewrite !app_assoc, stripZeroPair_snoc2.
    destruct ((crcLo =? 0) && (crcHi =? 0)).
    - exists []. rewrite app_nil_r. reflexivity.
    - exists [crcLo; crcHi]. reflexivity. }
  destruct Hadu as [tail ->].
  rewrite (parseRtuWords unit fc registerValues tail Hfc Hall Hne).
  rewrite (rtuResponse_not_tcp unit fc registerValues tail Hall Hne), andb_false_r.
  cbn [returned unread clientAfter handed length]. auto.
Qed.

Lemma setValues_subseteq (values : list Z) (map bank : gmap Z Z) (start : Z) :
  map ⊆ bank ->
  (forall i v, values !! i = Some v -> bank !! (start + Z.of_nat i) = Some v) ->
  setValues map start values ⊆ bank.
Proof.
  intros Hsub Hbank. apply map_subseteq_spec. intros a v. rewrite setValues_lookup.
  destruct ((start <=? a) && (a <? start + Z.of_nat (length values))) eqn:Hin.
  - apply andb_true_iff in Hin as [Hlo%Z.leb_le Hhi%Z.ltb_lt]. intros Hv.
    rewrite <- (Hbank _ _ Hv). f_equal. lia.
  - apply (proj1 (map_subseteq_spec _ _) Hsub).
Qed.

Lemma setValues_is_Some (values : list Z) (map : gmap Z Z) (start a : Z) :
  is_Some (map !! a) \/ start <= a < start + Z.of_nat (length values) ->
  is_Some (setValues map start values !! a).
Proof.
  rewrite setValues_lookup.
  destruct (Z.leb_spec start a) as [Hlo|Hlo]; cbn [andb].
  - destruct (Z.ltb_spec a (start + Z.of_nat (length values))) as [Hhi|Hhi].
    + intros _. apply lookup_lt_is_Some_2. lia.
    + intros [H|H]; [exact H|lia].
  - intros [H|H]; [exact H|lia].
Qed.

(** The loop of [fetchRegisters] against a logger that answers each
    request from the inverter's registers. *)
Lemma fetchLoop_answers (bank : gmap Z Z) (requests : list ReadRequest) (net : list Exchange) :
  (forall a v, bank !! a = Some v -> inUInt16 v = true) ->
  Forall2 (answers bank) requests net ->
  Forall (fun r => match r with
                   | Req _ start count => inUInt16 start = true /\ 1 <= count <= 0xffff
                   | ReqUndefined _ => False
                   end) requests ->
  forall (rest : list Exchange) (c : Client) (map : gmap Z Z),
    map ⊆ bank ->
    let f := fetchLoop requests (net ++ rest) c map in
    exists registerMap,
      fetched f = Resolves registerMap /\ registerMap ⊆ bank /\
      (forall a, is_Some (map !! a) \/
                 (exists fc start count, Req fc start count ∈ requests /\
                                         start <= a < start + count) ->
                 is_Some (registerMap !! a)) /\
      fetchUnread f = rest /\ length (fetchHanded f) = length requests /\
      _transport (fetchClient f) = _transport c.
Proof.
  intros Hbank Hanswers. induction Hanswers as [|r ex requests net Hans _ IH];
    intros Hwf rest c map Hsub; cbn zeta.
  - cbn. exists map. repeat split; try assumption.
    intros a [Ha|(fc & start & count & Hin & _)]; [exact Ha|inversion Hin].
  - apply Forall_cons in Hwf as [Hr Hwf]. specialize (IH Hwf).
    destruct r as [fc start count|]; [|contradiction].
    destruct Hr as [Hstart Hcount].
    destruct Hans as (header & prefix & unit & crcLo & crcHi & ck & registerValues &
                      Hh & Hp & Hlen & Hfrom & ->).
    assert (Hall : Forall (fun v => inUInt16 v = true) registerValues).
    { apply Forall_lookup. intros i v Hv. exact (Hbank _ _ (Hfrom i v Hv)). }
    assert (Hne : registerValues <> []) by (intros ->; cbn in Hlen; lia).
    assert (Hcnt : inUInt16 count = true) by (apply inUInt16_iff; lia).
    assert (Hfc : 0 <= wireFc fc < 128) by (unfold wireFc, MODBUS_FC_READ_INPUT, MODBUS_FC_READ_HOLDING;
          destruct (fc =? 4); lia).
    pose proof (_readRegisters_rtu_answer (net ++ rest) c (wireFc fc) start count
                  header prefix unit crcLo crcHi ck registerValues
                  Hstart Hcnt Hfc Hall Hne Hh Hp) as Hread.
    cbn zeta in Hread. destruct Hread as (Hret & Hunread & Htransport & Hhanded).
    rewrite <- app_comm_cons. cbn [fetchLoop].
    assert (Hcall : (if fc =? 4
                     then readInputRegisters
                            (Reply (v5ResponseFrame header prefix
                                      ([unit; wireFc fc; 2 * Z.of_nat (length registerValues)]
                                         ++ wordsBE registerValues ++ [crcLo; crcHi]) ck)
                               :: net ++ rest) c start count
                     else readHoldingRegisters
                            (Reply (v5ResponseFrame header prefix
                                      ([unit; wireFc fc; 2 * Z.of_nat (length registerValues)]
                                         ++ wordsBE registerValues ++ [crcLo; crcHi]) ck)
                               :: net ++ rest) c start count)
                    = _readRegisters
                        (Reply (v5ResponseFrame header prefix
                                  ([unit; wireFc fc; 2 * Z.of_nat (length registerValues)]
                                     ++ wordsBE registerValues ++ [crcLo; crcHi]) ck)
                           :: net ++ rest) c (wireFc fc) start count).
    { unfold wireFc, readInputRegisters, readHoldingRegisters. destruct (fc =? 4); reflexivity. }
    rewrite Hcall, Hret, Hunread.
    destruct (IH rest
                 (clientAfter
                    (_readRegisters
                       (Reply (v5ResponseFrame header prefix
                                 ([unit; wireFc fc; 2 * Z.of_nat (length registerValues)]
                                    ++ wordsBE registerValues ++ [crcLo; crcHi]) ck)
                          :: net ++ rest) c (wireFc fc) start count))
                 (setValues map start registerValues)
                 (setValues_subseteq _ _ _ _ Hsub Hfrom))
      as (registerMap & Hfetched & Hsub' & Hsome & Hrest & Hlength & Ht).
    cbn zeta in Hfetched, Hsome, Hrest, Hlength, Ht.
    exists registerMap. cbn [fetched fetchUnread fetchHanded fetchClient].
    split; [exact Hfetched|]. split; [exact Hsub'|]. split; [|split; [exact Hrest|split]].
    + intros a Ha. apply Hsome.
      destruct Ha as [Ha|(fc' & start' & count' & Hin & Hrange)].
      * left. apply setValues_is_Some. left. exact Ha.
      * apply elem_of_cons in Hin as [[= -> -> ->]|Hin].
        -- left. apply setValues_is_Some. right. lia.
        -- right. exists fc', start', count'. split; assumption.
    + rewrite length_app, Hhanded, Hlength. reflexivity.
    + rewrite Ht. exact Htransport.
Qed.

Lemma planned_counts (definitions : list RegisterDefinition) (maxCount : Z) (r : ReadRequest) :
  1 <= maxCount ->
  (forall def, def ∈ definitions -> registers def <> []) ->
  r ∈ buildReadRequests definitions maxCount ->
  exists fc start count, r = Req fc start count /\ 1 <= count <= maxCount.
Proof.
  intros HB Hne. unfold buildReadRequests. intros Hin.
  apply list_elem_of_In, in_flat_map in Hin as ([fc0 s] & Hentry & Hin).
  apply list_elem_of_In in Hentry, Hin. cbn [fst snd] in Hin.
  destruct (groupByFc_spec definitions Hne) as (Hnd & Hsets & _).
  pose proof (mapGet_elem_of _ _ _ Hnd Hentry) as Hget.
  destruct (Hsets _ _ Hget) as [Hnds Hnonempty].
  destruct (sortAscending_spec s Hnds) as (Hsorted & _ & Hnil).
  destruct (mergeRanges_spec fc0 maxCount (sortAscending s) HB (Hnil Hnonempty) Hsorted)
    as (Hwf & _ & _).
  destruct (proj1 (Forall_forall _ _) Hwf r Hin) as (st & c & -> & Hc). eauto.
Qed.

Lemma planned_covers (definitions : list RegisterDefinition) (maxCount : Z)
      (def : RegisterDefinition) (a : Z) :
  1 <= maxCount ->
  (forall def, def ∈ definitions -> registers def <> []) ->
  def ∈ definitions -> a ∈ registers def ->
  exists start count, Req (fcOf def) start count ∈ buildReadRequests definitions maxCount /\
                      start <= a < start + count.
Proof.
  intros HB Hne Hdef Ha.
  destruct (groupByFc_spec definitions Hne) as (Hnd & Hsets & Hdefs).
  destruct (Hdefs def Hdef) as (s & Hget & Hsub).
  destruct (Hsets _ _ Hget) as [Hnds Hnonempty].
  destruct (sortAscending_spec s Hnds) as (Hsorted & Hmem & Hnil).
  destruct (mergeRanges_spec (fcOf def) maxCount (sortAscending s) HB (Hnil Hnonempty) Hsorted)
    as (_ & _ & Hcov).
  destruct (Hcov a (proj2 (Hmem a) (Hsub a Ha))) as (r & Hr & Hc).
  destruct r as [fc' start count|]; [|discriminate]. cbn [covers] in Hc.
  apply andb_true_iff in Hc as [Hc Hhi%Z.leb_le].
  apply andb_true_iff in Hc as [Hfc%Z.eqb_eq Hlo%Z.leb_le]. subst fc'.
  exists start, count. split; [|lia].
  unfold buildReadRequests. apply list_elem_of_In, in_flat_map.
  exists (fcOf def, s). split; [|apply list_elem_of_In; exact Hr].
  apply list_elem_of_In.
  clear -Hget. induction (groupByFc definitions) as [|[k s'] byFc IH]; [discriminate|].
  cbn [mapGet] in Hget. destruct (Z.eqb_spec k (fcOf def)) as [->|].
  - injection Hget as ->. left.
  - right. apply IH. exact Hget.
Qed.

(** X18.  [decodeRegister] reads the register map at the definition's own
    addresses only: two maps that agree there decode alike, so the other
    registers fetched with a merged range never influence a sensor. *)
Theorem decodeRegister_own_registers (def : RegisterDefinition) (map1 map2 : gmap Z Z) :
  (forall a, a ∈ registers def -> map1 !! a = map2 !! a) ->
  decodeRegister def map1 = decodeRegister def map2.
Proof. exact (decodeRegister_local def map1 map2). Qed.

Lemma decodeRegister_own_registers_witness :
  decodeRegister (mkDef "Total Production" 3 [63; 64] (Some 0.1%float) None None None None)
                 (<[63 := 10]> (<[64 := 0]> ∅))
  = decodeRegister (mkDef "Total Production" 3 [63; 64] (Some 0.1%float) None None None None)
                   (<[59 := 2]> (<[63 := 10]> (<[64 := 0]> ∅))).
Proof.
  apply decodeRegister_own_registers. intros a Ha. cbn [registers] in Ha.
  rewrite (lookup_insert_ne (<[63 := 10]> (<[64 := 0]> ∅)) 59 a 2); [reflexivity|].
  apply elem_of_cons in Ha as [->|Ha]; [discriminate|].
  apply elem_of_cons in Ha as [->|Ha]; [discriminate|inversion Ha].
Defined.

(** [readAll] against a logger that answers from the inverter's registers. *)
Lemma readAll_answered (bank : gmap Z Z) (definitions : list RegisterDefinition)
        (net rest : list Exchange) (c : Client) :
  (forall def, def ∈ definitions -> registers def <> []) ->
  (forall def a, def ∈ definitions -> a ∈ registers def -> inUInt16 a = true) ->
  (forall a v, bank !! a = Some v -> inUInt16 v = true) ->
  Forall2 (answers bank) (buildReadRequests definitions DEFAULT_MAX_COUNT) net ->
  let r := readAll (net ++ rest) c definitions in
  (exists result,
      values r = Resolves result /\
      forall n, result !! n =
                  (fun def => decodeRegister def bank)
                    <$> last (filter (fun def => name def = n) definitions)) /\
  (forall def, def ∈ definitions -> forallb (has bank) (registers def) = true) /\
  readAllUnread r = rest /\
  length (readAllHanded r) = length (buildReadRequests definitions DEFAULT_MAX_COUNT) /\
  _transport (readAllClient r) = _transport c.
Proof.
  intros Hne Haddr Hbank Hanswers. cbn zeta. unfold readAll, fetchRegisters.
  assert (HB : 1 <= DEFAULT_MAX_COUNT) by (unfold DEFAULT_MAX_COUNT; lia).
  assert (Hwf : Forall (fun r => match r with
                                 | Req _ start count =>
                                     inUInt16 start = true /\ 1 <= count <= 0xffff
                                 | ReqUndefined _ => False
                                 end)
                       (buildReadRequests definitions DEFAULT_MAX_COUNT)).
  { apply Forall_forall. intros r Hr.
    destruct (planned_counts definitions DEFAULT_MAX_COUNT r HB Hne Hr)
      as (fc & start & count & -> & Hcount).
    destruct (planned_endpoints definitions DEFAULT_MAX_COUNT fc start count Hr)
      as [(def & Hdef & _ & Hstart) _].
    split; [exact (Haddr def start Hdef Hstart)|].
    unfold DEFAULT_MAX_COUNT in Hcount. lia. }
  destruct (fetchLoop_answers bank _ net Hbank Hanswers Hwf rest c ∅
                              (map_empty_subseteq bank))
    as (registerMap & Hfetched & Hsub & Hsome & Hrest & Hlength & Ht).
  cbn zeta in Hfetched, Hsome, Hrest, Hlength, Ht.
  cbn [values readAllUnread readAllHanded readAllClient]. rewrite Hfetched.
  assert (Hagree : forall def a, def ∈ definitions -> a ∈ registers def ->
                                 is_Some (registerMap !! a) /\ registerMap !! a = bank !! a).
  { intros def a Hdef Ha.
    destruct (planned_covers definitions DEFAULT_MAX_COUNT def a HB Hne Hdef Ha)
      as (start & count & Hin & Hrange).
    assert (Hin' : is_Some (registerMap !! a)).
    { apply Hsome. right. exists (fcOf def), start, count. split; assumption. }
    split; [exact Hin'|]. destruct Hin' as [v Hv]. rewrite Hv. symmetry.
    exact (lookup_weaken _ _ _ _ Hv Hsub). }
  split; [|split; [|split; [exact Hrest|split; [exact Hlength|exact Ht]]]].
  - exists (snapshot definitions registerMap). split; [reflexivity|]. intros n.
    rewrite (snapshot_local definitions registerMap bank);
      [apply snapshot_lookup|].
    intros def a Hdef Ha. exact (proj2 (Hagree def a Hdef Ha)).
  - intros def Hdef. apply forallb_forall. intros a Ha%list_elem_of_In.
    destruct (Hagree def a Hdef Ha) as [Hin Heq].
    unfold has. apply bool_decide_eq_true. rewrite <- Heq. exact Hin.
Qed.



Lemma fetchLoop_app (requests1 requests2 : list ReadRequest) (net : list Exchange)
      (c : Client) (map : gmap Z Z) :
  fetchLoop (requests1 ++ requests2) net c map =
    let f1 := fetchLoop requests1 net c map in
    match fetched f1 with
    | Resolves map1 =>
        let f2 := fetchLoop requests2 (fetchUnread f1) (fetchClient f1) map1 in
        mkFetch (fetched f2) (fetchClient f2) (fetchHanded f1 ++ fetchHanded f2)
                (fetchUnread f2)
    | _ => f1
    end.
Proof.
  revert net c map. induction requests1 as [|r requests1 IH]; intros net c map.
  - cbn. destruct (fetchLoop requests2 net c map); reflexivity.
  - rewrite <- app_comm_cons. destruct r as [fc start count|]; [|reflexivity].
    cbn [fetchLoop]. cbn zeta.
    destruct (returned (if fc =? 4 then readInputRegisters net c start count
                        else readHoldingRegisters net c start count)); [|reflexivity].
    rewrite IH. cbn zeta.
    destruct (fetchLoop requests1 _ _ _) as [[map1| |] client1 handed1 unread1];
      cbn [fetched fetchClient fetchHanded fetchUnread]; try reflexivity.
    rewrite app_assoc. reflexivity.
Qed.

Lemma _readRegisters_reject (net' : list Exchange) (c : Client) (fc register count : Z)
      (msg : string) :
  inUInt16 register = true -> inUInt16 count = true ->
  let o := _readRegisters (Reject msg :: net') c fc register count in
  returned o = Throw (TransportError msg) /\ unread o = net' /\ length (handed o) = 1%nat.
Proof.
  intros Hr Hc. destruct (prepareRequest_Ok c fc register count Hr Hc) as (v5Req & Hprep).
  cbn zeta. cbn [_readRegisters]. rewrite Hprep. cbn. auto.
Qed.



(** ** The success path of [_poll] *)

Lemma applyDefinition_capabilities (values : gmap string Value) (dev : DeyeDevice)
      (def : RegisterDefinition) (cap : string) :
  capabilities (applyDefinition values dev def) !! cap =
    if hasCapability dev cap && negb (String.eqb cap "") && bindsValue values cap def
    then coerce cap <$> (values !! name def)
    else capabilities dev !! cap.
Proof.
  unfold applyDefinition, bindsValue.
  destruct (homeyCapability def) as [capId|]; [|rewrite andb_false_r; reflexivity].
  destruct (String.eqb_spec capId cap) as [->|Hne].
  - destruct (String.eqb cap ""); [rewrite andb_false_r; reflexivity|].
    rewrite andb_true_r. cbn [andb].
    destruct (values !! name def) as [[|x|s]|]; try (rewrite andb_false_r; reflexivity);
      rewrite andb_true_r;
      (destruct (hasCapability dev cap); cbn [negb]; [|reflexivity]);
      (destruct (String.eqb cap "measure_power");
       cbn [capabilities setLastPowerW setCapabilityValue fmap option_fmap option_map];
       apply lookup_insert_eq).
  - cbn [andb]. rewrite andb_false_r.
    destruct (String.eqb capId ""); [reflexivity|].
    destruct (values !! name def) as [[|x|s]|]; try reflexivity;
      (destruct (hasCapability dev capId); cbn [negb]; [|reflexivity]);
      (destruct (String.eqb capId "measure_power");
       cbn [capabilities setLastPowerW setCapabilityValue];
       apply lookup_insert_ne; exact Hne).
Qed.

Lemma applyDefinition_hasCapability (values : gmap string Value) (dev : DeyeDevice)
      (def : RegisterDefinition) (cap : string) :
  hasCapability (applyDefinition values dev def) cap = hasCapability dev cap.
Proof.
  unfold hasCapability at 1. rewrite applyDefinition_capabilities.
  destruct (hasCapability dev cap && negb (String.eqb cap "") && bindsValue values cap def)
    eqn:Hupd; [|reflexivity].
  apply andb_true_iff in Hupd as [Hupd Hbinds].
  apply andb_true_iff in Hupd as [Hhas _]. rewrite Hhas.
  unfold bindsValue in Hbinds.
  destruct (homeyCapability def); [|discriminate].
  apply andb_true_iff in Hbinds as [_ Hvalue].
  destruct (values !! name def) as [v|]; [|discriminate].
  apply bool_decide_eq_true. cbn. eauto.
Qed.

Lemma applyDefinition_lastPowerW (values : gmap string Value) (dev : DeyeDevice)
      (def : RegisterDefinition) :
  _lastPowerW (applyDefinition values dev def) =
    if hasCapability dev "measure_power" && bindsValue values "measure_power" def
    then match values !! name def with Some (VNum x) => x | _ => 0%float end
    else _lastPowerW dev.
Proof.
  unfold applyDefinition, bindsValue.
  destruct (homeyCapability def) as [capId|]; [|rewrite andb_false_r; reflexivity].
  destruct (String.eqb_spec capId "measure_power") as [->|Hne].
  - cbn [String.eqb Ascii.eqb Bool.eqb andb].
    destruct (values !! name def) as [[|x|s]|]; try (rewrite andb_false_r; reflexivity);
      rewrite andb_true_r;
      (destruct (hasCapability dev "measure_power"); reflexivity).
  - cbn [andb]. rewrite andb_false_r.
    destruct (String.eqb capId ""); [reflexivity|].
    destruct (values !! name def) as [[|x|s]|]; try reflexivity;
      (destruct (hasCapability dev capId); reflexivity).
Qed.

Lemma applyDefinition_fields (values : gmap string Value) (dev : DeyeDevice)
      (def : RegisterDefinition) :
  _backoffUntil (applyDefinition values dev def) = _backoffUntil dev /\
  _polling (applyDefinition values dev def) = _polling dev /\
  journal (applyDefinition values dev def) = journal dev /\
  _definitions (applyDefinition values dev def) = _definitions dev.
Proof.
  unfold applyDefinition.
  destruct (homeyCapability def) as [capId|]; [|auto].
  destruct (String.eqb capId ""); [auto|].
  destruct (values !! name def) as [[|x|s]|]; auto;
    (destruct (hasCapability dev capId); cbn [negb]; [|auto]);
    (destruct (String.eqb capId "measure_power"); cbn; auto).
Qed.

(** The success loop of [_poll], definition by definition. *)
Lemma pollResolved_loop (dev : DeyeDevice) (values : gmap string Value) :
  let dev' := pollResolved dev values in
  (forall cap,
      capabilities dev' !! cap =
        match last (filter (fun def => bindsValue values cap def = true) (_definitions dev)) with
        | Some def =>
            if hasCapability dev cap && negb (String.eqb cap "")
            then coerce cap <$> (values !! name def)
            else capabilities dev !! cap
        | None => capabilities dev !! cap
        end) /\
  (forall cap, hasCapability dev' cap = hasCapability dev cap) /\
  _lastPowerW dev' =
    match last (filter (fun def => bindsValue values "measure_power" def = true)
                       (_definitions dev)) with
    | Some def =>
        if hasCapability dev "measure_power"
        then match values !! name def with Some (VNum x) => x | _ => 0%float end
        else _lastPowerW dev
    | None => _lastPowerW dev
    end /\
  availability dev' = Available /\ _polling dev' = false /\
  _backoffUntil dev' = _backoffUntil dev /\ journal dev' = journal dev.
Proof.
  cbn zeta. unfold pollResolved.
  change (_definitions (setAvailable dev)) with (_definitions dev).
  assert (Hloop : forall defs,
    let d := fold_left (applyDefinition values) defs (setAvailable dev) in
    (forall cap,
        capabilities d !! cap =
          match last (filter (fun def => bindsValue values cap def = true) defs) with
          | Some def =>
              if hasCapability dev cap && negb (String.eqb cap "")
              then coerce cap <$> (values !! name def)
              else capabilities dev !! cap
          | None => capabilities dev !! cap
          end) /\
    (forall cap, hasCapability d cap = hasCapability dev cap) /\
    _lastPowerW d =
      match last (filter (fun def => bindsValue values "measure_power" def = true) defs) with
      | Some def =>
          if hasCapability dev "measure_power"
          then match values !! name def with Some (VNum x) => x | _ => 0%float end
          else _lastPowerW dev
      | None => _lastPowerW dev
      end /\
    _backoffUntil d = _backoffUntil dev /\ journal d = journal dev).
  { induction defs as [|def defs IH] using rev_ind.
    - cbn. auto.
    - cbn zeta in IH |- *. destruct IH as (Hcaps & Hhas & Hpower & Hbackoff & Hjournal).
      rewrite fold_left_app. cbn [fold_left].
      set (d := fold_left (applyDefinition values) defs (setAvailable dev)) in *.
      destruct (applyDefinition_fields values d def) as (Hb & _ & Hj & _).
      split; [|split; [|split; [|split; [congruence|congruence]]]].
      + intros cap. rewrite applyDefinition_capabilities, Hhas, Hcaps.
        rewrite filter_app, filter_cons, filter_nil.
        destruct (decide (bindsValue values cap def = true)) as [Hbinds|Hbinds].
        * rewrite last_snoc, Hbinds, andb_true_r.
          destruct (hasCapability dev cap && negb (String.eqb cap "")) eqn:Hc; [reflexivity|].
          destruct (last (filter (fun def0 => bindsValue values cap def0 = true) defs));
            reflexivity.
        * apply not_true_is_false in Hbinds. rewrite Hbinds, andb_false_r, app_nil_r.
          reflexivity.
      + intros cap. rewrite applyDefinition_hasCapability. apply Hhas.
      + rewrite applyDefinition_lastPowerW, Hhas, Hpower.
        rewrite filter_app, filter_cons, filter_nil.
        destruct (decide (bindsValue values "measure_power" def = true)) as [Hbinds|Hbinds].
        * rewrite last_snoc, Hbinds, andb_true_r.
          destruct (hasCapability dev "measure_power"); [reflexivity|].
          destruct (last (filter (fun def0 => bindsValue values "measure_power" def0 = true)
                                 defs)); reflexivity.
        * apply not_true_is_false in Hbinds. rewrite Hbinds, andb_false_r, app_nil_r.
          reflexivity. }
  destruct (Hloop (_definitions dev)) as (Hcaps & Hhas & Hpower & Hbackoff & Hjournal).
  cbn zeta in Hcaps, Hhas, Hpower, Hbackoff, Hjournal.
  split; [exact Hcaps|]. split; [exact Hhas|]. split; [exact Hpower|].
  split; [|split; [reflexivity|split; [exact Hbackoff|exact Hjournal]]].
  cbn [availability setPolling]. rewrite applyDefinitions_availability. reflexivity.
Qed.

(** X21.  A successful poll touches what the definitions bind and nothing
    else.  A capability the device has (other than the empty id) takes
    the coerced value of the last definition bound to it whose value is
    not null, and keeps its value when there is none; no capability is
    added or removed.  The stored power is the value of the last such
    definition bound to measure_power (0 if that is not a number) when the
    device has measure_power.  The device is marked available, the busy
    flag is cleared, and backoff time and log are untouched. *)
Theorem pollResolved_effect (dev : DeyeDevice) (values : gmap string Value) :
  let dev' := pollResolved dev values in
  (forall cap,
      capabilities dev' !! cap =
        match last (filter (fun def => bindsValue values cap def = true) (_definitions dev)) with
        | Some def =>
            if hasCapability dev cap && negb (String.eqb cap "")
            then coerce cap <$> (values !! name def)
            else capabilities dev !! cap
        | None => capabilities dev !! cap
        end) /\
  (forall cap, hasCapability dev' cap = hasCapability dev cap) /\
  _lastPowerW dev' =
    match last (filter (fun def => bindsValue values "measure_power" def = true)
                       (_definitions dev)) with
    | Some def =>
        if hasCapability dev "measure_power"
        then match values !! name def with Some (VNum x) => x | _ => 0%float end
        else _lastPowerW dev
    | None => _lastPowerW dev
    end /\
  availability dev' = Available /\ _polling dev' = false /\
  _backoffUntil dev' = _backoffUntil dev /\ journal dev' = journal dev.
Proof. exact (pollResolved_loop dev values). Qed.

(** ** A whole poll cycle *)

Lemma last_filter_unique {A : Type} (P : A -> Prop) `{!forall x, Decision (P x)}
      (l : list A) (x : A) :
  x ∈ l -> P x -> (forall y, y ∈ l -> P y -> y = x) -> last (filter P l) = Some x.
Proof.
  intros Hin HP Hunique.
  destruct (last (filter P l)) as [y|] eqn:Hlast.
  - apply last_Some_elem_of, list_elem_of_filter in Hlast as [HPy Hy].
    f_equal. apply Hunique; assumption.
  - apply last_None in Hlast.
    assert (Hx : x ∈ filter P l) by (apply list_elem_of_filter; split; assumption).
    rewrite Hlast in Hx. inversion Hx.
Qed.

Lemma decodeRegister_value (def : RegisterDefinition) (registerMap : gmap Z Z) :
  forallb (has registerMap) (registers def) = true ->
  1 <= rule def <= 7 ->
  decodeRegister def registerMap <> VNull.
Proof.
  intros Hall Hrule. unfold decodeRegister. rewrite Hall. cbn [negb].
  assert (Hcases : rule def = 1 \/ rule def = 2 \/ rule def = 3 \/ rule def = 4 \/
                   rule def = 5 \/ rule def = 6 \/ rule def = 7) by lia.
  destruct Hcases as [->|[->|[->|[->|[->|[->| ->]]]]]]; cbn [Z.eqb Pos.eqb orb];
    try discriminate.
  - destruct (lookup def) as [table|]; [|discriminate].
    destruct (lookupLabel table _); discriminate.
  - destruct (lookup def) as [table|]; [|discriminate].
    destruct (lookupLabel table _); discriminate.
Qed.

(** X22.  A whole successful cycle: when the logger answers every planned
    request from the inverter's registers (16-bit addresses, no definition
    without registers), then for a definition with a rule in 1..7 that is the only one of its name and
    the only one bound to its capability, a device that has the
    capability holds, after the poll, the coerced decoding of the
    inverter's registers under that capability. *)
Theorem poll_cycle (bank : gmap Z Z) (net rest : list Exchange) (c : Client)
        (dev : DeyeDevice) (def : RegisterDefinition) (cap : string) :
  let definitions := _definitions dev in
  (forall def, def ∈ definitions -> registers def <> []) ->
  (forall def a, def ∈ definitions -> a ∈ registers def -> inUInt16 a = true) ->
  (forall a v, bank !! a = Some v -> inUInt16 v = true) ->
  Forall2 (answers bank) (buildReadRequests definitions DEFAULT_MAX_COUNT) net ->
  def ∈ definitions -> 1 <= rule def <= 7 ->
  homeyCapability def = Some cap -> cap <> ""%string -> hasCapability dev cap = true ->
  (forall def', def' ∈ definitions -> name def' = name def -> def' = def) ->
  (forall def', def' ∈ definitions -> homeyCapability def' = Some cap -> def' = def) ->
  exists result,
    values (readAll (net ++ rest) c definitions) = Resolves result /\
    capabilities (pollResolved dev result) !! cap
      = Some (coerce cap (decodeRegister def bank)) /\
    availability (pollResolved dev result) = Available.
Proof.
  intros definitions Hne Haddr Hbank Hanswers Hdef Hrule Hcap Hid Hhas Hname Honly.
  destruct (readAll_answered bank definitions net rest c Hne Haddr Hbank Hanswers)
    as ((result & Hvalues & Hresult) & Hpresent & _).
  exists result. split; [exact Hvalues|].
  destruct (pollResolved_loop dev result) as (Hcaps & _ & _ & Havailable & _).
  split; [|exact Havailable].
  assert (Hentry : result !! name def = Some (decodeRegister def bank)).
  { rewrite Hresult.
    rewrite (last_filter_unique (fun d => name d = name def) definitions def Hdef eq_refl Hname).
    reflexivity. }
  assert (Hvalue : decodeRegister def bank <> VNull)
    by (apply decodeRegister_value; [apply Hpresent; exact Hdef|exact Hrule]).
  assert (Hbinds : bindsValue result cap def = true).
  { unfold bindsValue. rewrite Hcap, String.eqb_refl, Hentry.
    destruct (decodeRegister def bank); [congruence|reflexivity|reflexivity]. }
  rewrite Hcaps. fold definitions.
  rewrite (last_filter_unique (fun d => bindsValue result cap d = true) definitions def
                              Hdef Hbinds).
  - rewrite Hhas, Hentry.
    destruct (String.eqb_spec cap ""); [contradiction|]. reflexivity.
  - intros def' Hdef' Hbinds'. apply Honly; [exact Hdef'|].
    unfold bindsValue in Hbinds'. destruct (homeyCapability def') as [c'|]; [|discriminate].
    apply andb_true_iff in Hbinds' as [Heq%String.eqb_eq _]. congruence.
Qed.

Lemma poll_cycle_witness :
  exists result,
    values (readAll [Reply (v5ResponseFrame [1; 0; 110; 0; 60; 106] (2 :: 1 :: repeat 0 12)
                                            [1; 3; 2; 0; 4; 0; 0] 0)]
                    (mkClient 1782317166 1 0 rtu 0)
                    [mkDef "Device State" 1 [59] None None None
                           (Some [mkEntry (KeyOne 3) "Alarm"; mkEntry (KeyOne 4) "Fault"])
                           (Some "alarm_generic")])
    = Resolves result /\
    capabilities
      (pollResolved
         (onInit [mkDef "Device State" 1 [59] None None None
                        (Some [mkEntry (KeyOne 3) "Alarm"; mkEntry (KeyOne 4) "Fault"])
                        (Some "alarm_generic")]
                 {["alarm_generic"%string := CBool false]} Available)
         result) !! "alarm_generic"%string
    = Some (CBool true).
Proof.
  destruct (poll_cycle
              {[59 := 4]}
              [Reply (v5ResponseFrame [1; 0; 110; 0; 60; 106] (2 :: 1 :: repeat 0 12)
                                      [1; 3; 2; 0; 4; 0; 0] 0)]
              [] (mkClient 1782317166 1 0 rtu 0)
              (onInit [mkDef "Device State" 1 [59] None None None
                             (Some [mkEntry (KeyOne 3) "Alarm"; mkEntry (KeyOne 4) "Fault"])
                             (Some "alarm_generic")]
                      {["alarm_generic"%string := CBool false]} Available)
              (mkDef "Device State" 1 [59] None None None
                     (Some [mkEntry (KeyOne 3) "Alarm"; mkEntry (KeyOne 4) "Fault"])
                     (Some "alarm_generic"))
              "alarm_generic")
    as (result & Hvalues & Hcap & _).
  - intros def ->%list_elem_of_singleton. discriminate.
  - intros def a ->%list_elem_of_singleton ->%list_elem_of_singleton. reflexivity.
  - intros a v [_ <-]%lookup_singleton_Some. reflexivity.
  - constructor; [|constructor].
    exists [1; 0; 110; 0; 60; 106], (2 :: 1 :: repeat 0 12), 1, 0, 0, 0, [4].
    split; [reflexivity|]. split; [reflexivity|]. split; [reflexivity|].
    split; [|reflexivity].
    intros [|i] v Hv; [|discriminate]. injection Hv as <-. apply lookup_singleton_eq.
  - apply list_elem_of_singleton. reflexivity.
  - cbn. lia.
  - reflexivity.
  - discriminate.
  - reflexivity.
  - intros def' ->%list_elem_of_singleton _. reflexivity.
  - intros def' ->%list_elem_of_singleton _. reflexivity.
  - exists result. split; [exact Hvalues|]. rewrite Hcap. reflexivity.
Defined.

(** ** The solar window of [_isNight] *)



(** ** What [fetchRegisters] stores *)

Lemma fetchLoop_words (plan : list Answered) (net : list Exchange) :
  Forall2 (fun p ex => rtuAnswer (wireFc (askedFc p)) (sentWords p) ex) plan net ->
  Forall (fun p => inUInt16 (askedStart p) = true /\ inUInt16 (askedCount p) = true /\
                   sentWords p <> [] /\
                   Forall (fun v => inUInt16 v = true) (sentWords p)) plan ->
  forall (rest : list Exchange) (c : Client) (map : gmap Z Z),
    let f := fetchLoop (asked <$> plan) (net ++ rest) c map in
    fetched f = Resolves (fold_left (fun m p => setValues m (askedStart p) (sentWords p))
                                    plan map) /\
    fetchUnread f = rest /\ length (fetchHanded f) = length plan.
Proof.
  induction 1 as [|p ex plan net Hans _ IH]; intros Hwf rest c map; cbn zeta.
  - cbn. auto.
  - apply Forall_cons in Hwf as [(Hstart & Hcount & Hne & Hall) Hwf]. specialize (IH Hwf).
    destruct p as [fc start count words]. cbn [askedFc askedStart askedCount sentWords] in *.
    destruct Hans as (header & prefix & unit & crcLo & crcHi & ck & Hh & Hp & ->).
    assert (Hfc : 0 <= wireFc fc < 128)
      by (unfold wireFc, MODBUS_FC_READ_INPUT, MODBUS_FC_READ_HOLDING;
          destruct (fc =? 4); lia).
    pose proof (_readRegisters_rtu_answer (net ++ rest) c (wireFc fc) start count
                  header prefix unit crcLo crcHi ck words
                  Hstart Hcount Hfc Hall Hne Hh Hp) as Hread.
    cbn zeta in Hread. destruct Hread as (Hret & Hunread & _ & Hhanded).
    rewrite <- app_comm_cons. cbn [fmap list_fmap asked askedFc askedStart askedCount fetchLoop].
    assert (Hcall : (if fc =? 4
                     then readInputRegisters
                            (Reply (v5ResponseFrame header prefix
                                      ([unit; wireFc fc; 2 * Z.of_nat (length words)]
                                         ++ wordsBE words ++ [crcLo; crcHi]) ck)
                               :: net ++ rest) c start count
                     else readHoldingRegisters
                            (Reply (v5ResponseFrame header prefix
                                      ([unit; wireFc fc; 2 * Z.of_nat (length words)]
                                         ++ wordsBE words ++ [crcLo; crcHi]) ck)
                               :: net ++ rest) c start count)
                    = _readRegisters
                        (Reply (v5ResponseFrame header prefix
                                  ([unit; wireFc fc; 2 * Z.of_nat (length words)]
                                     ++ wordsBE words ++ [crcLo; crcHi]) ck)
                           :: net ++ rest) c (wireFc fc) start count).
    { unfold wireFc, readInputRegisters, readHoldingRegisters. destruct (fc =? 4); reflexivity. }
    rewrite Hcall, Hret, Hunread.
    destruct (IH rest
                 (clientAfter
                    (_readRegisters
                       (Reply (v5ResponseFrame header prefix
                                 ([unit; wireFc fc; 2 * Z.of_nat (length words)]
                                    ++ wordsBE words ++ [crcLo; crcHi]) ck)
                          :: net ++ rest) c (wireFc fc) start count))
                 (setValues map start words))
      as (Hfetched & Hrest & Hlength).
    cbn zeta in Hfetched, Hrest, Hlength.
    cbn [fetched fetchUnread fetchHanded fold_left length askedStart sentWords].
    split; [exact Hfetched|]. split; [exact Hrest|].
    rewrite length_app, Hhanded, Hlength. reflexivity.
Qed.

Lemma fold_setValues_lookup (plan : list Answered) (map : gmap Z Z) (a : Z) :
  fold_left (fun m p => setValues m (askedStart p) (sentWords p)) plan map !! a =
    match last (filter (fun p => received a p = true) plan) with
    | Some p => sentWords p !! Z.to_nat (a - askedStart p)
    | None => map !! a
    end.
Proof.
  induction plan as [|p plan IH] using rev_ind; [reflexivity|].
  rewrite fold_left_app. cbn [fold_left]. rewrite setValues_lookup.
  rewrite filter_app, filter_cons, filter_nil.
  fold (received a p).
  destruct (decide (received a p = true)) as [Hin|Hout].
  - rewrite Hin, last_snoc. reflexivity.
  - apply not_true_is_false in Hout. rewrite Hout, app_nil_r. exact IH.
Qed.

(** X24.  What [fetchRegisters] stores is decided by the start addresses
    asked for and the words received, in order: at each address the map
    holds the word of the last answer whose received words reach that
    address, and nothing where no answer reaches.  The count asked for
    plays no part (a shorter answer leaves addresses unset, a longer one
    sets addresses past the range), and neither does the function code:
    holding and input registers of one address share one entry. *)
Theorem fetchRegisters_stores (plan : list Answered) (net rest : list Exchange) (c : Client) :
  Forall2 (fun p ex => rtuAnswer (wireFc (askedFc p)) (sentWords p) ex) plan net ->
  Forall (fun p => inUInt16 (askedStart p) = true /\ inUInt16 (askedCount p) = true /\
                   sentWords p <> [] /\
                   Forall (fun v => inUInt16 v = true) (sentWords p)) plan ->
  exists registerMap,
    fetched (fetchRegisters (net ++ rest) c (asked <$> plan)) = Resolves registerMap /\
    forall a,
      registerMap !! a =
        match last (filter (fun p => received a p = true) plan) with
        | Some p => sentWords p !! Z.to_nat (a - askedStart p)
        | None => None
        end.
Proof.
  intros Hanswers Hwf. unfold fetchRegisters.
  destruct (fetchLoop_words plan net Hanswers Hwf rest c ∅) as (Hfetched & _ & _).
  cbn zeta in Hfetched. eexists. split; [exact Hfetched|].
  intros a. rewrite fold_setValues_lookup, lookup_empty. reflexivity.
Qed.

Lemma fetchRegisters_stores_witness :
  exists registerMap,
    fetched (fetchRegisters
               [Reply (v5ResponseFrame [1; 0; 110; 0; 60; 106] (2 :: 1 :: repeat 0 12)
                                       [1; 3; 2; 0; 7; 0; 0] 0);
                Reply (v5ResponseFrame [2; 0; 110; 0; 60; 106] (2 :: 1 :: repeat 0 12)
                                       [1; 4; 4; 0; 9; 0; 1; 0; 0] 0)]
               (mkClient 1782317166 1 0 rtu 0)
               [Req 3 59 1; Req 4 59 1])
    = Resolves registerMap /\
    registerMap !! 59 = Some 9 /\ registerMap !! 60 = Some 1.
Proof.
  destruct (fetchRegisters_stores
              [mkAnswered 3 59 1 [7]; mkAnswered 4 59 1 [9; 1]]
              [Reply (v5ResponseFrame [1; 0; 110; 0; 60; 106] (2 :: 1 :: repeat 0 12)
                                      [1; 3; 2; 0; 7; 0; 0] 0);
               Reply (v5ResponseFrame [2; 0; 110; 0; 60; 106] (2 :: 1 :: repeat 0 12)
                                      [1; 4; 4; 0; 9; 0; 1; 0; 0] 0)]
              [] (mkClient 1782317166 1 0 rtu 0))
    as (registerMap & Hfetched & Hmap).
  - constructor; [|constructor; [|constructor]].
    + exists [1; 0; 110; 0; 60; 106], (2 :: 1 :: repeat 0 12), 1, 0, 0, 0.
      repeat split.
    + exists [2; 0; 110; 0; 60; 106], (2 :: 1 :: repeat 0 12), 1, 0, 0, 0.
      repeat split.
  - repeat (apply Forall_cons; split;
            [split; [reflexivity|]; split; [reflexivity|]; split; [discriminate|];
             repeat (apply Forall_cons; split; [reflexivity|]); apply Forall_nil_2|]).
    apply Forall_nil_2.
  - exists registerMap. split; [exact Hfetched|]. rewrite !Hmap. split; reflexivity.
Defined.

(** ** The scheduler never wedges *)

(** X25.  In every state the scheduler can reach with no poll in flight,
    the busy flag is clear: a timer tick at or after the backoff time is
    admitted and starts a poll, and changes nothing but the busy flag.
    Whatever way a poll settled, the flag it took is given back. *)
Theorem tick_admitted (dev : DeyeDevice) (now : Z) :
  reachable (dev, O) ->
  _backoffUntil dev <= now ->
  _polling dev = false /\
  pollAdmitted dev now = true /\
  _poll dev now = setPolling dev true /\
  step (dev, O) (Tick now) (setPolling dev true, 1%nat).
Proof.
  intros Hreach Hnow.
  pose proof (reachable_busy_flag _ Hreach) as Hflag. cbn [fst snd] in Hflag.
  assert (Hidle : _polling dev = false) by (destruct (_polling dev); [discriminate|reflexivity]).
  assert (Hadmit : pollAdmitted dev now = true).
  { unfold pollAdmitted. rewrite Hidle.
    destruct (Z.ltb_spec now (_backoffUntil dev)); [lia|reflexivity]. }
  assert (Hpoll : _poll dev now = setPolling dev true).
  { unfold _poll. rewrite Hidle.
    destruct (Z.ltb_spec now (_backoffUntil dev)); [lia|reflexivity]. }
  split; [exact Hidle|]. split; [exact Hadmit|]. split; [exact Hpoll|].
  rewrite <- Hpoll. apply step_tick_admitted. exact Hadmit.
Qed.

Lemma tick_admitted_witness :
  _poll (pollRejected (_poll (onInit [] ∅ Available) 1500) "timeout" false 16500) 60000
  = setPolling (pollRejected (_poll (onInit [] ∅ Available) 1500) "timeout" false 16500) true.
Proof.
  refine (proj1 (proj2 (proj2 (tick_admitted
            (pollRejected (_poll (onInit [] ∅ Available) 1500) "timeout" false 16500)
            60000 _ _)))).
  - apply (reachable_step (_poll (onInit [] ∅ Available) 1500, 1%nat)
                          (Rejected "timeout" false 16500)).
    + apply (reachable_step (onInit [] ∅ Available, O) (Tick 1500)).
      * apply reachable_init.
      * apply step_tick_admitted. reflexivity.
    + apply step_rejected.
  - cbn. lia.
Defined.
